(** * Thunder/__main__.py: service start-up, plugin loading, supervision and
    teardown.

    The coroutines of [Thunder/__main__.py] are embedded as computations in a
    small state-and-exception monad.  The collaborators the file imports
    (the Telegram client, the database, the web runner, the plugin files on
    disk, ...) are opaque: a [world] supplies the outcome of every call, and
    every call, sleep, print and log line is appended to a trace. *)

From Stdlib Require Import List String Ascii Arith Lia Bool.
Import ListNotations.
Open Scope string_scope.
Open Scope list_scope.

(** ** Exceptions *)

(** The instances of Python's [Exception] class that the handlers of the file
    tell apart.  [Error] stands for every other instance of [Exception]. *)
Inductive exception : Type :=
| FloodWait (value : nat)
| MessageNotModified
| Error (msg : string).

(** The exceptions that derive from [BaseException] and not from
    [Exception], [asyncio.CancelledError] apart: the interpreter's exit
    signals.  No handler of the file names them. *)
Inductive exit_signal : Type :=
| SystemExit (code : nat)
| KeyboardInterrupt
| GeneratorExit.

(** What a call can raise.  [asyncio.CancelledError] derives from
    [BaseException] and not from [Exception] (Python 3.8 and later), so an
    [except Exception] clause lets it through, as it does the exit
    signals. *)
Inductive raised : Type :=
| Exc (e : exception)
| CancelledError
| Signal (s : exit_signal).

(** Outcome of an awaited call, and of a computation of the monad. *)
Inductive outcome (A : Type) : Type :=
| Return (a : A)
| Raise (r : raised).
Arguments Return {A} a.
Arguments Raise {A} r.

(** Outcome of a synchronous library call ([importlib]).  Executing a module
    runs the code of the plugin, which can raise anything: an instance of
    [Exception], or [sys.exit()] and the like. *)
Inductive sync_outcome (A : Type) : Type :=
| Returned (a : A)
| Threw (r : raised).
Arguments Returned {A} a.
Arguments Threw {A} r.

(** ** Data *)

Inductive task : Type :=
| request_executor_task
| keepalive_task
| token_cleanup_task.

(** [restart_message_data]: a truthy value of [db.get_restart_message()]. *)
Record notice : Type := mkNotice { chat_id : nat; message_id : nat }.

(** [bot_info], of which only [username] is read. *)
Record bot_info : Type := mkBotInfo { bot_username : string }.

(** [spec] as returned by [importlib.util.spec_from_file_location]: [None],
    or a spec whose [loader] may be [None]. *)
Record module_spec : Type := mkSpec { loader : option string }.

(** Lines written with [print]. *)
Inductive printed : Type :=
| Banner
| InitializingHeader
| BotInitialized (name : string)
| ImportingHeader
| NoPluginsFound
| PluginTotals (total success failed : nat)
| FailedPlugins (names : list string)
| RunningOn
| StartupTime.

(** Lines written with [logger.error]. *)
Inductive logged : Type :=
| InvalidPluginSpec (plugin_name : string)
| FailedToImport (plugin_name : string) (e : exception)
| BotInitFailed (e : exception)
| TokenCleanupError (e : exception).

Inductive event : Type :=
| Stdout (p : printed)
| LogError (l : logged)
| Sleep (seconds : nat)
| Call_start
| Call_get_me
| Call_set_commands
| Call_get_restart_message
| Call_edit_message_text (chat message : nat)
| Call_delete_restart_message (message : nat)
| Call_initialize_clients
| Call_spec_from_file_location (import_path file_path : string)
| Call_exec_module (import_path : string)
| CreateTask (t : task)
| Call_web_server
| Call_runner_setup
| Call_site_start
| Call_idle
| Cancel (t : task)
| Call_cleanup_clients
| Call_rate_limiter_shutdown
| Call_runner_cleanup
| Call_cleanup_expired_tokens.

(** ** The collaborators *)

Record world : Type := mkWorld {
  (* StreamBot: the n-th call of each method *)
  StreamBot_start : nat -> outcome unit;
  StreamBot_get_me : nat -> outcome bot_info;
  StreamBot_edit_message_text : nat -> outcome unit;
  set_commands : outcome unit;
  (* db: a fault raised by the call instead of its effect *)
  db_get_fault : option raised;
  db_delete_fault : option raised;
  initialize_clients : outcome unit;
  (* plugin files *)
  glob : list string;
  spec_from_file_location : string -> string -> sync_outcome (option module_spec);
  exec_module : string -> sync_outcome unit;
  (* web server *)
  web_server : outcome unit;
  runner_setup : outcome unit;
  site_start : outcome unit;
  idle : outcome unit;
  (* teardown *)
  cleanup_clients : outcome unit;
  rate_limiter_shutdown : outcome unit;
  runner_cleanup : outcome unit
}.

(** ** Process state *)

Record state : Type := mkState {
  trace : list event;
  stored_notice : option notice;     (* the database's pending restart notice *)
  username : option string;          (* StreamBot.username *)
  sys_modules : list string;         (* import paths put into sys.modules *)
  starts : nat;                      (* calls of StreamBot.start so far *)
  get_mes : nat;                     (* calls of StreamBot.get_me so far *)
  edits : nat                        (* calls of StreamBot.edit_message_text *)
}.

Definition initial_state (db : option notice) : state :=
  mkState [] db None [] 0 0 0.

(** ** The monad *)

Definition M (A : Type) : Type := state -> outcome A * state.

Definition ret {A} (a : A) : M A := fun st => (Return a, st).

Definition bind {A B} (m : M A) (k : A -> M B) : M B :=
  fun st =>
    match m st with
    | (Return a, st') => k a st'
    | (Raise r, st') => (Raise r, st')
    end.

Definition raise {A} (r : raised) : M A := fun st => (Raise r, st).

Declare Scope prog_scope.
Delimit Scope prog_scope with prog.
Notation "x <- m ;; k" := (bind m (fun x => k))
  (at level 61, m at next level, right associativity) : prog_scope.
Notation "m ;; k" := (bind m (fun _ => k))
  (at level 61, right associativity) : prog_scope.
Open Scope prog_scope.

(** [try: body except ...: handler].  A handler is a partial function on what
    was raised: [None] when no [except] clause matches, and the exception
    goes on. *)
Definition handler (A : Type) : Type := raised -> option (M A).

Definition try_except {A} (body : M A) (h : handler A) : M A :=
  fun st =>
    match body st with
    | (Return a, st') => (Return a, st')
    | (Raise r, st') =>
        match h r with
        | Some k => k st'
        | None => (Raise r, st')
        end
    end.

(** [except FloodWait as e] *)
Definition except_FloodWait {A} (k : nat -> M A) : handler A :=
  fun r => match r with Exc (FloodWait v) => Some (k v) | _ => None end.

(** [except MessageNotModified] *)
Definition except_MessageNotModified {A} (k : M A) : handler A :=
  fun r => match r with Exc MessageNotModified => Some k | _ => None end.

(** [except asyncio.CancelledError] *)
Definition except_CancelledError {A} (k : M A) : handler A :=
  fun r => match r with CancelledError => Some k | _ => None end.

(** [except Exception as e] *)
Definition except_Exception {A} (k : exception -> M A) : handler A :=
  fun r => match r with Exc e => Some (k e) | _ => None end.

(** Two [except] clauses: the first that matches is taken. *)
Definition orelse {A} (h1 h2 : handler A) : handler A :=
  fun r => match h1 r with Some k => Some k | None => h2 r end.

(** [try: body finally: fin].  [fin] always runs; when it raises, its
    exception replaces the outcome of [body]. *)
Definition try_finally {A} (body : M A) (fin : M unit) : M A :=
  fun st =>
    let (o, st') := body st in
    match fin st' with
    | (Return _, st'') => (o, st'')
    | (Raise r, st'') => (Raise r, st'')
    end.

(** ** Primitive steps *)

Definition emit (e : event) : M unit :=
  fun st => (Return tt,
             mkState (trace st ++ [e]) (stored_notice st) (username st)
                     (sys_modules st) (starts st) (get_mes st) (edits st)).

Definition print (p : printed) : M unit := emit (Stdout p).
Definition logger_error (l : logged) : M unit := emit (LogError l).

(** [await asyncio.sleep(seconds)] inside [start_services]: the sleep runs to
    its end. *)
Definition asyncio_sleep (seconds : nat) : M unit := emit (Sleep seconds).

(** An awaited call whose outcome the world fixes. *)
Definition await {A} (e : event) (o : outcome A) : M A :=
  emit e ;; (fun st => (o, st)).

(** A synchronous call. *)
Definition call {A} (e : event) (o : sync_outcome A) : M A :=
  emit e ;;
  (fun st => match o with
             | Returned a => (Return a, st)
             | Threw r => (Raise r, st)
             end).

(** ** pathlib: [Path(file_path).stem], for POSIX paths *)

Definition slash : ascii := "/"%char.
Definition dot : ascii := "."%char.

(** Components of a path: the pieces between slashes. *)
Fixpoint split_slash (s : string) : list string :=
  match s with
  | EmptyString => [EmptyString]
  | String c rest =>
      if Ascii.eqb c slash then EmptyString :: split_slash rest
      else match split_slash rest with
           | [] => [String c EmptyString]
           | p :: ps => String c p :: ps
           end
  end.

(** [PurePath.name]: the last component, empty and ["."] components being
    dropped when the path is parsed. *)
Definition path_name (s : string) : string :=
  last (filter (fun p => negb (String.eqb p "" || String.eqb p "."))
               (split_slash s)) "".

(** [name.rfind('.')]: index of the last dot. *)
Fixpoint rfind_dot (s : string) : option nat :=
  match s with
  | EmptyString => None
  | String c rest =>
      match rfind_dot rest with
      | Some i => Some (S i)
      | None => if Ascii.eqb c dot then Some 0 else None
      end
  end.

(** [PurePath.stem]: [name[:i]] when [0 < i < len(name) - 1], else [name]. *)
Definition path_stem (s : string) : string :=
  let name := path_name s in
  match rfind_dot name with
  | Some i =>
      if ((0 <? i) && (i <? String.length name - 1))%nat
      then substring 0 i name else name
  | None => name
  end.

(** ** import_plugins *)

Definition register_module (import_path : string) : M unit :=
  fun st => (Return tt,
             mkState (trace st) (stored_notice st) (username st)
                     (sys_modules st ++ [import_path])
                     (starts st) (get_mes st) (edits st)).

(** The locals the loop updates: [success_count] and [failed_plugins]. *)
Record tally : Type := mkTally {
  success_count : nat;
  failed_plugins : list string
}.

(** One pass of the body of [for file_path in plugins]. *)
Definition import_one (w : world) (file_path : string) (t : tally) : M tally :=
  let plugin_name := path_stem file_path in
  let import_path := ("Thunder.bot.plugins." ++ plugin_name)%string in
  try_except
    (spec <- call (Call_spec_from_file_location import_path file_path)
                  (spec_from_file_location w import_path file_path) ;;
     match spec with
     | Some (mkSpec (Some _)) =>
         register_module import_path ;;
         call (Call_exec_module import_path) (exec_module w import_path) ;;
         ret (mkTally (S (success_count t)) (failed_plugins t))
     | _ =>
         logger_error (InvalidPluginSpec plugin_name) ;;
         ret (mkTally (success_count t) (failed_plugins t ++ [plugin_name]))
     end)
    (except_Exception (fun e =>
       logger_error (FailedToImport plugin_name e) ;;
       ret (mkTally (success_count t) (failed_plugins t ++ [plugin_name])))).

Fixpoint import_loop (w : world) (plugins : list string) (t : tally) : M tally :=
  match plugins with
  | [] => ret t
  | file_path :: rest => t' <- import_one w file_path t ;; import_loop w rest t'
  end.

Definition import_plugins (w : world) : M nat :=
  print ImportingHeader ;;
  let plugins := glob w in
  match plugins with
  | [] => print NoPluginsFound ;; ret 0
  | _ =>
      t <- import_loop w plugins (mkTally 0 []) ;;
      print (PluginTotals (List.length plugins) (success_count t)
                          (List.length (failed_plugins t))) ;;
      match failed_plugins t with
      | [] => ret tt
      | names => print (FailedPlugins names)
      end ;;
      ret (success_count t)
  end.

(** ** Reading a trace *)

(** File paths handed to [spec_from_file_location], in order. *)
Fixpoint attempted (evs : list event) : list string :=
  match evs with
  | [] => []
  | Call_spec_from_file_location _ f :: rest => f :: attempted rest
  | _ :: rest => attempted rest
  end.

(** Import paths handed to [exec_module], in order. *)
Fixpoint executed (evs : list event) : list string :=
  match evs with
  | [] => []
  | Call_exec_module p :: rest => p :: executed rest
  | _ :: rest => executed rest
  end.

(** Lines of [logger.error], in order. *)
Fixpoint error_log (evs : list event) : list logged :=
  match evs with
  | [] => []
  | LogError l :: rest => l :: error_log rest
  | _ :: rest => error_log rest
  end.

(** Lines of [print], in order. *)
Fixpoint stdout (evs : list event) : list printed :=
  match evs with
  | [] => []
  | Stdout p :: rest => p :: stdout rest
  | _ :: rest => stdout rest
  end.

(** The plugin named in a line of the error log, if it is about a plugin. *)
Definition logged_plugin (l : logged) : option string :=
  match l with
  | InvalidPluginSpec n => Some n
  | FailedToImport n _ => Some n
  | _ => None
  end.

Definition import_path_of (file_path : string) : string :=
  ("Thunder.bot.plugins." ++ path_stem file_path)%string.

(** The file has a load specification with a loader, so that its module is
    executed. *)
Definition has_loader (w : world) (file_path : string) : bool :=
  match spec_from_file_location w (import_path_of file_path) file_path with
  | Returned (Some (mkSpec (Some _))) => true
  | _ => false
  end.

(** A plugin file fails to load: resolving its specification raises, the
    specification is [None] or has no loader, or executing the module
    raises. *)
Definition fails_to_load (w : world) (file_path : string) : bool :=
  let import_path := ("Thunder.bot.plugins." ++ path_stem file_path)%string in
  match spec_from_file_location w import_path file_path with
  | Threw _ => true
  | Returned None => true
  | Returned (Some (mkSpec None)) => true
  | Returned (Some (mkSpec (Some _))) =>
      match exec_module w import_path with
      | Threw _ => true
      | Returned _ => false
      end
  end.

Definition failing (w : world) (files : list string) : list string :=
  filter (fails_to_load w) files.

(** What a synchronous call raises past an [except Exception] clause, if
    anything. *)
Definition uncaught {A} (o : sync_outcome A) : option raised :=
  match o with
  | Returned _ | Threw (Exc _) => None
  | Threw r => Some r
  end.

(** What the body of the loop raises past its handler (line 86) for a file,
    if anything: what resolving the specification raised or, when the
    specification has a loader, what executing the module raised. *)
Definition escape_of (w : world) (file_path : string) : option raised :=
  let import_path := ("Thunder.bot.plugins." ++ path_stem file_path)%string in
  match spec_from_file_location w import_path file_path with
  | Returned (Some (mkSpec (Some _))) => uncaught (exec_module w import_path)
  | o => uncaught o
  end.

(** The file fails to load and the handler of line 86 deals with it: its
    failure is not an exception that the handler lets through. *)
Definition caught (w : world) (file_path : string) : bool :=
  fails_to_load w file_path &&
  match escape_of w file_path with Some _ => false | None => true end.

(** The first exception that a file of the list raises past the handler. *)
Fixpoint first_escape (w : world) (files : list string) : option raised :=
  match files with
  | [] => None
  | f :: rest =>
      match escape_of w f with
      | Some r => Some r
      | None => first_escape w rest
      end
  end.

(** The files the loop reaches: all of them or, when one raises past the
    handler, those up to it. *)
Fixpoint reached (w : world) (files : list string) : list string :=
  match files with
  | [] => []
  | f :: rest =>
      f :: match escape_of w f with
           | Some _ => []
           | None => reached w rest
           end
  end.

(** ** The collaborators as steps *)

Definition StreamBot_start_ (w : world) : M unit :=
  fun st =>
    await Call_start (StreamBot_start w (starts st))
      (mkState (trace st) (stored_notice st) (username st) (sys_modules st)
               (S (starts st)) (get_mes st) (edits st)).

Definition StreamBot_get_me_ (w : world) : M bot_info :=
  fun st =>
    await Call_get_me (StreamBot_get_me w (get_mes st))
      (mkState (trace st) (stored_notice st) (username st) (sys_modules st)
               (starts st) (S (get_mes st)) (edits st)).

Definition StreamBot_edit_message_text_ (w : world) (chat message : nat)
  : M unit :=
  fun st =>
    await (Call_edit_message_text chat message)
      (StreamBot_edit_message_text w (edits st))
      (mkState (trace st) (stored_notice st) (username st) (sys_modules st)
               (starts st) (get_mes st) (S (edits st))).

(** [StreamBot.username = ...] *)
Definition set_username (name : string) : M unit :=
  fun st => (Return tt,
             mkState (trace st) (stored_notice st) (Some name)
                     (sys_modules st) (starts st) (get_mes st) (edits st)).

(** Modelled from the spec: the persistent storage behind
    [Thunder.utils.database.db], which is not among the sources.  It holds an
    optional pending restart notice; [GetPendingRestartNotice] returns it and
    [DeletePendingRestartNotice(messageId)] removes the notice with that
    message id.  Either call may instead raise, as any awaited call. *)
Definition db_get_restart_message (w : world) : M (option notice) :=
  emit Call_get_restart_message ;;
  (fun st => match db_get_fault w with
             | Some r => (Raise r, st)
             | None => (Return (stored_notice st), st)
             end).

(** Modelled from the spec: the effect of
    [DeletePendingRestartNotice(messageId)] on the storage, which is not among
    the sources: the notice with that message id is removed. *)
Definition remove_notice (message : nat) (db : option notice) : option notice :=
  match db with
  | Some n => if Nat.eqb (message_id n) message then None else Some n
  | None => None
  end.

(** Modelled from the spec: [db.delete_restart_message(message_id)], which
    is not among the sources; it removes the notice unless it raises. *)
Definition db_delete_restart_message (w : world) (message : nat) : M unit :=
  emit (Call_delete_restart_message message) ;;
  (fun st => match db_delete_fault w with
             | Some r => (Raise r, st)
             | None =>
                 (Return tt,
                  mkState (trace st) (remove_notice message (stored_notice st))
                          (username st) (sys_modules st)
                          (starts st) (get_mes st) (edits st))
             end).

(** ** start_services *)

(** Lines 104-108. *)
Definition connect (w : world) : M unit :=
  try_except (StreamBot_start_ w)
    (except_FloodWait (fun value =>
       asyncio_sleep value ;; StreamBot_start_ w)).

(** Lines 110-114. *)
Definition fetch_identity (w : world) : M bot_info :=
  try_except (StreamBot_get_me_ w)
    (except_FloodWait (fun value =>
       asyncio_sleep value ;; StreamBot_get_me_ w)).

(** Lines 121-133. *)
Definition resolve_restart_notice (w : world) : M unit :=
  restart_message_data <- db_get_restart_message w ;;
  match restart_message_data with
  | Some d =>
      try_except
        (StreamBot_edit_message_text_ w (chat_id d) (message_id d) ;;
         db_delete_restart_message w (message_id d))
        (orelse (except_MessageNotModified (ret tt))
                (except_FloodWait (fun value => asyncio_sleep value)))
  | None => ret tt
  end.

(** The body of the outer [try], lines 104-133. *)
Definition startup_steps (w : world) : M unit :=
  connect w ;;
  info <- fetch_identity w ;;
  set_username (bot_username info) ;;
  print (BotInitialized (bot_username info)) ;;
  await Call_set_commands (set_commands w) ;;
  resolve_restart_notice w.

(** Where the outer [try] statement ends: past it ([Ready]), or in its
    [except Exception] clause ([Failed]). *)
Inductive sequencer_state : Type :=
| Ready
| Failed (e : exception).

(** Lines 103-137. *)
Definition startup_sequencer (w : world) : M sequencer_state :=
  try_except (startup_steps w ;; ret Ready)
    (except_Exception (fun e =>
       logger_error (BotInitFailed e) ;; ret (Failed e))).

Definition supervised_tasks : list task :=
  [request_executor_task; keepalive_task; token_cleanup_task].

(** [task.cancel()] only requests the cancellation and does not raise. *)
Fixpoint cancel_all (tasks : list task) : M unit :=
  match tasks with
  | [] => ret tt
  | t :: rest => emit (Cancel t) ;; cancel_all rest
  end.

(** The [finally] block, lines 161-166. *)
Definition teardown (w : world) : M unit :=
  cancel_all supervised_tasks ;;
  await Call_cleanup_clients (cleanup_clients w) ;;
  await Call_rate_limiter_shutdown (rate_limiter_shutdown w) ;;
  await Call_runner_cleanup (runner_cleanup w).

(** Lines 140-156: what runs past [Ready], up to the listener. *)
Definition launch (w : world) : M unit :=
  await Call_initialize_clients (initialize_clients w) ;;
  import_plugins w ;;
  emit (CreateTask request_executor_task) ;;
  emit (CreateTask keepalive_task) ;;
  emit (CreateTask token_cleanup_task) ;;
  await Call_web_server (web_server w) ;;
  await Call_runner_setup (runner_setup w) ;;
  await Call_site_start (site_start w) ;;
  print RunningOn ;;
  print StartupTime.

(** Lines 158-166. *)
Definition run_until_terminated (w : world) : M unit :=
  try_finally (await Call_idle (idle w)) (teardown w).

Definition serve (w : world) : M unit :=
  launch w ;;
  run_until_terminated w.

(** Lines 99-100. *)
Definition print_headers : M unit :=
  print Banner ;;
  print InitializingHeader.

Definition start_services (w : world) : M unit :=
  print_headers ;;
  s <- startup_sequencer w ;;
  match s with
  | Failed _ => ret tt
  | Ready => serve w
  end.

(** ** schedule_token_cleanup *)

(** What the loop's two awaited calls do in its [i]-th iteration. *)
Record cleanup_world : Type := mkCleanupWorld {
  (* [asyncio.sleep]: it returns, or raises what is thrown into the task
     while it waits there, a cancellation request for one *)
  sleep_outcome : nat -> outcome unit;
  cleanup_expired_tokens : nat -> outcome unit
}.

Definition cleanup_interval : nat := 3 * 3600.

Inductive loop_control : Type :=
| Continue
| Break.

(** The body of [while True], lines 171-177. *)
Definition cleanup_iteration (cw : cleanup_world) (i : nat) : M loop_control :=
  try_except
    (await (Sleep cleanup_interval) (sleep_outcome cw i) ;;
     await Call_cleanup_expired_tokens (cleanup_expired_tokens cw i) ;;
     ret Continue)
    (orelse (except_CancelledError (ret Break))
            (except_Exception (fun e =>
               logger_error (TokenCleanupError e) ;; ret Continue))).

Inductive loop_status : Type :=
| Running      (* the iterations observed so far all went on *)
| Finished.    (* the coroutine returned *)

(** The loop observed for at most [n] iterations, from iteration [i] on. *)
Fixpoint schedule_token_cleanup (n : nat) (cw : cleanup_world) (i : nat)
  : M loop_status :=
  match n with
  | 0 => ret Running
  | S n' =>
      c <- cleanup_iteration cw i ;;
      match c with
      | Break => ret Finished
      | Continue => schedule_token_cleanup n' cw (S i)
      end
  end.

(** ** Schedules *)





Definition is_teardown_call (e : event) : bool :=
  match e with
  | Cancel _ | Call_cleanup_clients | Call_rate_limiter_shutdown
  | Call_runner_cleanup => true
  | _ => false
  end.

(** The steps of lines 99-137: the headers, the sequenced start-up steps and
    the error line of the [except Exception] clause. *)
Definition is_startup_step (e : event) : bool :=
  match e with
  | Stdout Banner | Stdout InitializingHeader | Stdout (BotInitialized _)
  | Sleep _ | Call_start | Call_get_me | Call_set_commands
  | Call_get_restart_message | Call_edit_message_text _ _
  | Call_delete_restart_message _ | LogError (BotInitFailed _) => true
  | _ => false
  end.

(** The steps of lines 140-156, which run only past [Ready]: the client pool,
    the plugin pass, the background tasks, the listener. *)
Definition is_launch_step (e : event) : bool :=
  match e with
  | Call_initialize_clients | Call_spec_from_file_location _ _
  | Call_exec_module _ | CreateTask _ | Call_web_server | Call_runner_setup
  | Call_site_start
  | LogError (InvalidPluginSpec _) | LogError (FailedToImport _ _)
  | Stdout ImportingHeader | Stdout NoPluginsFound | Stdout (PluginTotals _ _ _)
  | Stdout (FailedPlugins _) | Stdout RunningOn | Stdout StartupTime => true
  | _ => false
  end.

(** The calls the [finally] block makes, given what each one does. *)
Definition teardown_calls (w : world) : list event :=
  map Cancel supervised_tasks ++
  Call_cleanup_clients ::
  match cleanup_clients w with
  | Raise _ => []
  | Return _ =>
      Call_rate_limiter_shutdown ::
      match rate_limiter_shutdown w with
      | Raise _ => []
      | Return _ => [Call_runner_cleanup]
      end
  end.


(** ** Vocabulary of the properties *)

(** The tally after one file, and after a list of files. *)
Definition tally_after (w : world) (file_path : string) (t : tally) : tally :=
  if fails_to_load w file_path
  then mkTally (success_count t) (failed_plugins t ++ [path_stem file_path])
  else mkTally (S (success_count t)) (failed_plugins t).

Fixpoint tally_loop (w : world) (files : list string) (t : tally) : tally :=
  match files with
  | [] => t
  | f :: rest => tally_loop w rest (tally_after w f t)
  end.

Definition is_db_delete (e : event) : bool :=
  match e with Call_delete_restart_message _ => true | _ => false end.

Definition no_db_delete (e : event) : Prop := is_db_delete e = false.

(** [m] only appends to the trace, and only events that satisfy [P]; and it
    leaves the stored notice alone unless it calls
    [db.delete_restart_message]. *)
Definition emits (P : event -> Prop) {A} (m : M A) : Prop :=
  forall st, exists evs,
    trace (snd (m st)) = trace st ++ evs /\ Forall P evs /\
    (Forall no_db_delete evs ->
     stored_notice (snd (m st)) = stored_notice st).

Definition handler_emits (P : event -> Prop) {A} (h : handler A) : Prop :=
  forall r k, h r = Some k -> emits P k.

Definition startup_only (e : event) : Prop := is_startup_step e = true.
Definition launch_only (e : event) : Prop := is_launch_step e = true.
Definition any_event (e : event) : Prop := True.

(** ** Sample worlds *)

(** Every call returns; there is no plugin file. *)
Definition calm_world : world :=
  mkWorld (fun _ => Return tt) (fun _ => Return (mkBotInfo "ThunderBot"))
          (fun _ => Return tt) (Return tt) None None (Return tt)
          [] (fun _ _ => Returned (Some (mkSpec (Some "SourceFileLoader"))))
          (fun _ => Returned tt)
          (Return tt) (Return tt) (Return tt) (Return tt)
          (Return tt) (Return tt) (Return tt).

Definition with_start (f : nat -> outcome unit) (w : world) : world :=
  mkWorld f (StreamBot_get_me w) (StreamBot_edit_message_text w)
          (set_commands w) (db_get_fault w) (db_delete_fault w)
          (initialize_clients w) (glob w) (spec_from_file_location w)
          (exec_module w) (web_server w) (runner_setup w) (site_start w)
          (idle w) (cleanup_clients w) (rate_limiter_shutdown w)
          (runner_cleanup w).

Definition with_get_me (f : nat -> outcome bot_info) (w : world) : world :=
  mkWorld (StreamBot_start w) f (StreamBot_edit_message_text w)
          (set_commands w) (db_get_fault w) (db_delete_fault w)
          (initialize_clients w) (glob w) (spec_from_file_location w)
          (exec_module w) (web_server w) (runner_setup w) (site_start w)
          (idle w) (cleanup_clients w) (rate_limiter_shutdown w)
          (runner_cleanup w).

Definition with_edit (f : nat -> outcome unit) (w : world) : world :=
  mkWorld (StreamBot_start w) (StreamBot_get_me w) f
          (set_commands w) (db_get_fault w) (db_delete_fault w)
          (initialize_clients w) (glob w) (spec_from_file_location w)
          (exec_module w) (web_server w) (runner_setup w) (site_start w)
          (idle w) (cleanup_clients w) (rate_limiter_shutdown w)
          (runner_cleanup w).

Definition with_set_commands (o : outcome unit) (w : world) : world :=
  mkWorld (StreamBot_start w) (StreamBot_get_me w)
          (StreamBot_edit_message_text w)
          o (db_get_fault w) (db_delete_fault w)
          (initialize_clients w) (glob w) (spec_from_file_location w)
          (exec_module w) (web_server w) (runner_setup w) (site_start w)
          (idle w) (cleanup_clients w) (rate_limiter_shutdown w)
          (runner_cleanup w).

Definition with_cleanup_clients (o : outcome unit) (w : world) : world :=
  mkWorld (StreamBot_start w) (StreamBot_get_me w)
          (StreamBot_edit_message_text w)
          (set_commands w) (db_get_fault w) (db_delete_fault w)
          (initialize_clients w) (glob w) (spec_from_file_location w)
          (exec_module w) (web_server w) (runner_setup w) (site_start w)
          (idle w) o (rate_limiter_shutdown w)
          (runner_cleanup w).

Definition with_plugins (files : list string)
    (spec : string -> string -> sync_outcome (option module_spec))
    (exec : string -> sync_outcome unit) (w : world) : world :=
  mkWorld (StreamBot_start w) (StreamBot_get_me w)
          (StreamBot_edit_message_text w)
          (set_commands w) (db_get_fault w) (db_delete_fault w)
          (initialize_clients w) files spec exec
          (web_server w) (runner_setup w) (site_start w)
          (idle w) (cleanup_clients w) (rate_limiter_shutdown w)
          (runner_cleanup w).

(** The first call raises [FloodWait(value)], the later ones return [a]. *)
Definition flood_once {A} (value : nat) (a : A) (n : nat) : outcome A :=
  match n with
  | 0 => Raise (Exc (FloodWait value))
  | _ => Return a
  end.

(** Every call raises [FloodWait(value)]. *)
Definition flood_always {A} (value : nat) (n : nat) : outcome A :=
  Raise (Exc (FloodWait value)).

(** The state once lines 99-100 have printed the two headers. *)
Definition headers_printed (db : option notice) : state :=
  mkState [Stdout Banner; Stdout InitializingHeader] db None [] 0 0 0.

(** The state once the identity is cached and [set_commands()] has returned
    (lines 116-119), from the state [st] left by the identity fetch. *)
Definition identified (info : bot_info) (st : state) : state :=
  mkState (trace st ++ [Stdout (BotInitialized (bot_username info));
                        Call_set_commands])
          (stored_notice st) (Some (bot_username info)) (sys_modules st)
          (starts st) (get_mes st) (edits st).

(** [st] with further events, another stored notice and [n] more edit
    calls. *)
Definition advanced (evs : list event) (db : option notice) (n : nat)
    (st : state) : state :=
  mkState (trace st ++ evs) db (username st) (sys_modules st)
          (starts st) (get_mes st) (n + edits st).

(** What the awaited calls of the [i]-th iteration of the cleanup loop
    raise, if anything: the sleep or, when the sleep returned, the call of
    [cleanup_expired_tokens()]. *)
Definition iteration_raises (cw : cleanup_world) (i : nat) : option raised :=
  match sleep_outcome cw i with
  | Raise r => Some r
  | Return _ =>
      match cleanup_expired_tokens cw i with
      | Raise r => Some r
      | Return _ => None
      end
  end.

(** The [i]-th iteration of the cleanup loop receives a cancellation request:
    in its sleep, or in its call of [cleanup_expired_tokens()]. *)
Definition cancelled_at (cw : cleanup_world) (i : nat) : bool :=
  match iteration_raises cw i with
  | Some CancelledError => true
  | _ => false
  end.

(** What the [i]-th iteration of the cleanup loop adds to the trace. *)
Definition iteration_events (cw : cleanup_world) (i : nat) : list event :=
  Sleep cleanup_interval ::
  match sleep_outcome cw i with
  | Raise (Exc e) => [LogError (TokenCleanupError e)]
  | Raise _ => []
  | Return _ =>
      Call_cleanup_expired_tokens ::
      match cleanup_expired_tokens cw i with
      | Raise (Exc e) => [LogError (TokenCleanupError e)]
      | _ => []
      end
  end.

(** The exit signal that the [i]-th iteration of the cleanup loop lets
    through, if any: neither clause of lines 174-177 catches it. *)
Definition signal_at (cw : cleanup_world) (i : nat) : option exit_signal :=
  match iteration_raises cw i with
  | Some (Signal s) => Some s
  | _ => None
  end.

(** The [i]-th iteration is the last: it is cancelled, or it raises an exit
    signal. *)
Definition ends_at (cw : cleanup_world) (i : nat) : bool :=
  cancelled_at cw i ||
  match signal_at cw i with Some _ => true | None => false end.

(** What the [i]-th iteration ends in. *)
Definition iteration_outcome (cw : cleanup_world) (i : nat)
  : outcome loop_control :=
  match signal_at cw i with
  | Some s => Raise (Signal s)
  | None => Return (if cancelled_at cw i then Break else Continue)
  end.

(** The first three iterations raise, the fourth returns, and the fifth is
    cancelled in its sleep. *)
Definition three_faults_then_cancel : cleanup_world :=
  mkCleanupWorld
    (fun i => if Nat.eqb i 4 then Raise CancelledError else Return tt)
    (fun i => if Nat.ltb i 3 then Raise (Exc (Error "database unreachable"))
              else Return tt).

(** No cancellation ever arrives; the first cleanup raises an exception and
    the second one exits the interpreter. *)
Definition exit_in_cleanup : cleanup_world :=
  mkCleanupWorld
    (fun _ => Return tt)
    (fun i => match i with
              | 0 => Raise (Exc (Error "database unreachable"))
              | 1 => Raise (Signal (SystemExit 1))
              | _ => Return tt
              end).

(** Worlds of the scenarios. *)
Definition connect_retry_world : world :=
  with_start (flood_once 5 tt) calm_world.

Definition connect_flood_world : world :=
  with_start (flood_always 5) calm_world.

Definition fetch_retry_world : world :=
  with_get_me (flood_once 7 (mkBotInfo "ThunderBot")) calm_world.

Definition fetch_flood_world : world :=
  with_get_me (flood_always 7) calm_world.

(** The connection is rate-limited once, and the registration of the
    commands raises. *)
Definition registration_fails_world : world :=
  with_set_commands (Raise (Exc (Error "commands rejected")))
                    connect_retry_world.

Definition edit_unchanged_world : world :=
  with_edit (fun _ => Raise (Exc MessageNotModified)) calm_world.

Definition edit_flood_world : world :=
  with_edit (fun _ => Raise (Exc (FloodWait 9))) calm_world.

Definition release_fails_world : world :=
  with_cleanup_clients (Raise (Exc (Error "client pool closed"))) calm_world.

Definition sample_notice : notice := mkNotice 1001 42.

(** Three plugin files: the first loads, the second has no loader, the third
    raises while it executes. *)
Definition three_plugins_world : world :=
  with_plugins
    ["Thunder/bot/plugins/admin.py"; "Thunder/bot/plugins/broken.py";
     "Thunder/bot/plugins/stream.py"]
    (fun import_path _ =>
       if String.eqb import_path "Thunder.bot.plugins.broken"
       then Returned (Some (mkSpec None))
       else Returned (Some (mkSpec (Some "SourceFileLoader"))))
    (fun import_path =>
       if String.eqb import_path "Thunder.bot.plugins.stream"
       then Threw (Exc (Error "ImportError"))
       else Returned tt)
    calm_world.

(** Two plugin files: the first calls [sys.exit(3)] while it executes, the
    second would load. *)
Definition exiting_plugin_world : world :=
  with_plugins
    ["Thunder/bot/plugins/exits.py"; "Thunder/bot/plugins/admin.py"]
    (fun _ _ => Returned (Some (mkSpec (Some "SourceFileLoader"))))
    (fun import_path =>
       if String.eqb import_path "Thunder.bot.plugins.exits"
       then Threw (Signal (SystemExit 3))
       else Returned tt)
    calm_world.


(** The states left by the connection and by the identity fetch. *)
Definition connected (w : world) (db : option notice) : state :=
  snd (connect w (headers_printed db)).

Definition fetched (w : world) (db : option notice) : state :=
  snd (fetch_identity w (connected w db)).

(** ** Vocabulary of the further properties *)

(** How many events of a kind a list holds. *)
Definition count_events (f : event -> bool) (evs : list event) : nat :=
  List.length (filter f evs).

Definition is_start (e : event) : bool :=
  match e with Call_start => true | _ => false end.

Definition is_get_me (e : event) : bool :=
  match e with Call_get_me => true | _ => false end.

Definition is_edit (e : event) : bool :=
  match e with Call_edit_message_text _ _ => true | _ => false end.

Definition is_sleep (e : event) : bool :=
  match e with Sleep _ => true | _ => false end.

Definition is_set_commands (e : event) : bool :=
  match e with Call_set_commands => true | _ => false end.

(** [m] only appends to the trace, and at most [b] events of the kind [f]. *)
Definition within (f : event -> bool) (b : nat) {A} (m : M A) : Prop :=
  forall st, exists evs,
    trace (snd (m st)) = trace st ++ evs /\ count_events f evs <= b.

Definition handler_within (f : event -> bool) (b : nat) {A} (h : handler A)
  : Prop :=
  forall r k, h r = Some k -> within f b k.

(** [m] leaves a component of the state as it was. *)
Definition keeps {X} (proj : state -> X) {A} (m : M A) : Prop :=
  forall st, proj (snd (m st)) = proj st.

Definition handler_keeps {X} (proj : state -> X) {A} (h : handler A) : Prop :=
  forall r k, h r = Some k -> keeps proj k.

(** The steps past [Ready]: those of the launch, the wait for termination and
    the teardown. *)
Definition is_serving_step (e : event) : bool :=
  is_launch_step e || is_teardown_call e ||
  match e with Call_idle => true | _ => false end.

Definition serving_only (e : event) : Prop := is_serving_step e = true.

(** The steps of the plugin pass. *)
Definition is_plugin_step (e : event) : bool :=
  match e with
  | Call_spec_from_file_location _ _ | Call_exec_module _
  | LogError (InvalidPluginSpec _) | LogError (FailedToImport _ _)
  | Stdout ImportingHeader | Stdout NoPluginsFound | Stdout (PluginTotals _ _ _)
  | Stdout (FailedPlugins _) => true
  | _ => false
  end.

Definition plugin_only (e : event) : Prop := is_plugin_step e = true.

Definition is_create_task (e : event) : bool :=
  match e with CreateTask _ => true | _ => false end.

(** What lines 140-156 add to the trace, given what the plugin pass added:
    the launch stops at its first awaited call that raises, the plugin pass
    being one of them. *)
Definition launch_events (w : world) (plugin_evs : list event) : list event :=
  Call_initialize_clients ::
  match initialize_clients w with
  | Raise _ => []
  | Return _ =>
      plugin_evs ++
      match first_escape w (glob w) with
      | Some _ => []
      | None =>
          map CreateTask supervised_tasks ++
          Call_web_server ::
          match web_server w with
          | Raise _ => []
          | Return _ =>
              Call_runner_setup ::
              match runner_setup w with
              | Raise _ => []
              | Return _ =>
                  Call_site_start ::
                  match site_start w with
                  | Raise _ => []
                  | Return _ => [Stdout RunningOn; Stdout StartupTime]
                  end
              end
          end
      end
  end.

(** What lines 149-152 end in: the first exception raised, if any. *)
Definition listener_outcome (w : world) : outcome unit :=
  match web_server w with
  | Raise r => Raise r
  | Return _ =>
      match runner_setup w with
      | Raise r => Raise r
      | Return _ =>
          match site_start w with
          | Raise r => Raise r
          | Return _ => Return tt
          end
      end
  end.

(** What lines 140-156 end in: the first exception raised, if any. *)
Definition launch_outcome (w : world) : outcome unit :=
  match initialize_clients w with
  | Raise r => Raise r
  | Return _ =>
      match first_escape w (glob w) with
      | Some r => Raise r
      | None => listener_outcome w
      end
  end.

(** Neither a teardown call nor the wait for termination. *)
Definition before_shutdown (e : event) : Prop :=
  is_teardown_call e = false /\ e <> Call_idle.

(** Neither a plugin step nor the creation of a task. *)
Definition late_step (e : event) : Prop :=
  is_plugin_step e = false /\ is_create_task e = false.

(** Not the creation of a task, and not the start of the site. *)
Definition early_step (e : event) : Prop :=
  is_create_task e = false /\ e <> Call_site_start.

(** The phase of [start_services] a step belongs to: the sequenced start-up
    (0), the initialisation of the clients (1), the plugin pass (2), the
    creation of the tasks (3), the listener (4), the wait for termination
    (5), the teardown (6). *)
Definition phase (e : event) : nat :=
  if is_startup_step e then 0
  else if is_plugin_step e then 2
  else match e with
       | Call_initialize_clients => 1
       | CreateTask _ => 3
       | Call_web_server | Call_runner_setup | Call_site_start
       | Stdout RunningOn | Stdout StartupTime => 4
       | Call_idle => 5
       | _ => 6
       end.

Definition phase_le (x y : event) : Prop := phase x <= phase y.

(** Every step of [l] is followed only by steps of the same or a later
    phase. *)
Definition in_phase_order (l : list event) : Prop :=
  forall a x b, l = a ++ x :: b -> Forall (phase_le x) b.

(** The line [import_plugins] logs for a file it reaches, if any: an invalid
    specification, or the exception, an instance of [Exception], raised
    while the specification was resolved or the module executed.  What the
    handler of line 86 does not catch is not logged. *)
Definition load_error (w : world) (file_path : string) : list logged :=
  let name := path_stem file_path in
  match spec_from_file_location w (import_path_of file_path) file_path with
  | Threw (Exc e) => [FailedToImport name e]
  | Threw _ => []
  | Returned (Some (mkSpec (Some _))) =>
      match exec_module w (import_path_of file_path) with
      | Threw (Exc e) => [FailedToImport name e]
      | _ => []
      end
  | Returned _ => [InvalidPluginSpec name]
  end.

(** Every call of [cleanup_expired_tokens()] in [l] comes right after a sleep
    of the whole interval. *)
Definition follows_sleep (l : list event) : Prop :=
  forall a b, l = a ++ Call_cleanup_expired_tokens :: b ->
    exists a', a = a' ++ [Sleep cleanup_interval].

(** [st] once [e] is appended to its trace. *)
Definition emitted (e : event) (st : state) : state :=
  mkState (trace st ++ [e]) (stored_notice st) (username st)
          (sys_modules st) (starts st) (get_mes st) (edits st).

(** The character occurs in the string. *)
Fixpoint contains (c : ascii) (s : string) : bool :=
  match s with
  | EmptyString => false
  | String c' rest => Ascii.eqb c' c || contains c rest
  end.

(** ** Further sample worlds *)

Definition with_initialize_clients (o : outcome unit) (w : world) : world :=
  mkWorld (StreamBot_start w) (StreamBot_get_me w)
          (StreamBot_edit_message_text w)
          (set_commands w) (db_get_fault w) (db_delete_fault w)
          o (glob w) (spec_from_file_location w)
          (exec_module w) (web_server w) (runner_setup w) (site_start w)
          (idle w) (cleanup_clients w) (rate_limiter_shutdown w)
          (runner_cleanup w).

Definition with_site_start (o : outcome unit) (w : world) : world :=
  mkWorld (StreamBot_start w) (StreamBot_get_me w)
          (StreamBot_edit_message_text w)
          (set_commands w) (db_get_fault w) (db_delete_fault w)
          (initialize_clients w) (glob w) (spec_from_file_location w)
          (exec_module w) (web_server w) (runner_setup w) o
          (idle w) (cleanup_clients w) (rate_limiter_shutdown w)
          (runner_cleanup w).

Definition with_db_faults (get delete : option raised) (w : world) : world :=
  mkWorld (StreamBot_start w) (StreamBot_get_me w)
          (StreamBot_edit_message_text w)
          (set_commands w) get delete
          (initialize_clients w) (glob w) (spec_from_file_location w)
          (exec_module w) (web_server w) (runner_setup w) (site_start w)
          (idle w) (cleanup_clients w) (rate_limiter_shutdown w)
          (runner_cleanup w).

(** The additional clients cannot be initialised. *)
Definition clients_fail_world : world :=
  with_initialize_clients (Raise (Exc (Error "no session"))) calm_world.

(** The port of the site is taken. *)
Definition port_taken_world : world :=
  with_site_start (Raise (Exc (Error "address already in use")))
                  three_plugins_world.

(** The database cannot be read. *)
Definition notice_read_fails_world : world :=
  with_db_faults (Some (Exc (Error "database unreachable"))) None calm_world.

(** The edit of the notice is rejected. *)
Definition edit_rejected_world : world :=
  with_edit (fun _ => Raise (Exc (Error "message not found"))) calm_world.

(** The notice is edited, but cannot be deleted. *)
Definition notice_delete_fails_world : world :=
  with_db_faults None (Some (Exc (Error "database unreachable"))) calm_world.

(** The notice is edited, and its delete is rate-limited. *)
Definition notice_delete_flood_world : world :=
  with_db_faults None (Some (Exc (FloodWait 4))) calm_world.

(** * Properties *)

(** ** Path stems *)

Example path_stem_plugin :
  path_stem "Thunder/bot/plugins/admin.py" = "admin".
Proof. reflexivity. Qed.

Example path_stem_dotted :
  path_stem "Thunder/bot/plugins/stream.v2.py" = "stream.v2".
Proof. reflexivity. Qed.

(** ** Traces grow by appending *)

Lemma attempted_app (a b : list event) :
  attempted (a ++ b) = attempted a ++ attempted b.
Proof.
  induction a as [|e a IH]; simpl; [reflexivity|].
  destruct e; simpl; rewrite ?IH; reflexivity.
Qed.

Lemma executed_app (a b : list event) :
  executed (a ++ b) = executed a ++ executed b.
Proof.
  induction a as [|e a IH]; simpl; [reflexivity|].
  destruct e; simpl; rewrite ?IH; reflexivity.
Qed.

Lemma error_log_app (a b : list event) :
  error_log (a ++ b) = error_log a ++ error_log b.
Proof.
  induction a as [|e a IH]; simpl; [reflexivity|].
  destruct e; simpl; rewrite ?IH; reflexivity.
Qed.

Lemma stdout_app (a b : list event) :
  stdout (a ++ b) = stdout a ++ stdout b.
Proof.
  induction a as [|e a IH]; simpl; [reflexivity|].
  destruct e; simpl; rewrite ?IH; reflexivity.
Qed.

(** ** The plugin loader *)

(** One file: the body raises only what the handler lets through; it tries
    the file, counts it on one side or the other, and logs a failure that
    it catches once. *)
Lemma import_one_spec (w : world) (file_path : string) (t : tally) (st : state) :
  exists st' evs,
    import_one w file_path t st =
      (match escape_of w file_path with
       | Some r => Raise r
       | None => Return (tally_after w file_path t)
       end, st') /\
    trace st' = trace st ++ evs /\
    attempted evs = [file_path] /\
    stdout evs = [] /\
    map logged_plugin (error_log evs) =
      (if caught w file_path then [Some (path_stem file_path)] else []) /\
    executed evs =
      (if has_loader w file_path then [import_path_of file_path] else []).
Proof.
  unfold import_one, tally_after, caught, escape_of, uncaught, fails_to_load,
    has_loader, import_path_of, try_except, bind, call,
    logger_error, register_module, emit, ret, except_Exception.
  destruct (spec_from_file_location w _ file_path) as [[[[l|]]|]|[e| |s]];
    simpl;
    try (destruct (exec_module w _) as [[]|[e| |s]]; simpl);
    eexists; eexists; (split; [reflexivity|]); simpl;
    rewrite <- ?app_assoc; simpl; (split; [reflexivity|]); simpl; auto.
Qed.

Lemma tally_loop_spec (w : world) (files : list string) (t : tally) :
  tally_loop w files t =
    mkTally (success_count t + (List.length files - List.length (failing w files)))
            (failed_plugins t ++ map path_stem (failing w files)).
Proof.
  revert t; induction files as [|f rest IH]; intro t.
  - simpl. rewrite Nat.add_0_r, app_nil_r. destruct t; reflexivity.
  - cbn [tally_loop]. rewrite IH. unfold tally_after, failing.
    cbn [filter].
    assert (Hle : List.length (filter (fails_to_load w) rest) <= List.length rest)
      by apply filter_length_le.
    destruct (fails_to_load w f); cbn [success_count failed_plugins List.length].
    + rewrite <- app_assoc. reflexivity.
    + f_equal. lia.
Qed.

(** When no file raises past the handler the loop reaches every file, and
    the handler deals with every failure. *)
Lemma reached_all (w : world) (files : list string) :
  first_escape w files = None ->
  reached w files = files /\
  filter (caught w) files = failing w files.
Proof.
  induction files as [|f rest IH]; simpl; [auto|].
  unfold caught at 1.
  destruct (escape_of w f) as [r|]; [discriminate|].
  intros H. destruct (IH H) as [Hr Hc].
  rewrite Hr, Hc, andb_true_r. unfold failing. simpl. auto.
Qed.

(** When a file raises past the handler, the loop reaches the files up to the
    first such file, and no other. *)
Lemma reached_until_escape (w : world) (files : list string) (r : raised) :
  first_escape w files = Some r ->
  exists before f after,
    files = before ++ f :: after /\
    first_escape w before = None /\
    escape_of w f = Some r /\
    reached w files = before ++ [f].
Proof.
  induction files as [|f rest IH]; simpl; [discriminate|].
  destruct (escape_of w f) as [r'|] eqn:He.
  - intros H. inversion H; subst r'.
    exists [], f, rest. simpl. auto.
  - intros H. destruct (IH H) as (before & g & after & Hf & Hb & Hg & Hr).
    exists (f :: before), g, after. simpl.
    rewrite He, Hr, Hf. auto.
Qed.

Lemma import_loop_spec (w : world) (files : list string) :
  forall (t : tally) (st : state),
  exists st' evs,
    import_loop w files t st =
      (match first_escape w files with
       | Some r => Raise r
       | None => Return (tally_loop w files t)
       end, st') /\
    trace st' = trace st ++ evs /\
    attempted evs = reached w files /\
    stdout evs = [] /\
    map logged_plugin (error_log evs) =
      map (fun f => Some (path_stem f)) (filter (caught w) (reached w files)) /\
    executed evs = map import_path_of (filter (has_loader w) (reached w files)).
Proof.
  induction files as [|f rest IH]; intros t st; simpl.
  - exists st, []. rewrite app_nil_r. repeat split; reflexivity.
  - destruct (import_one_spec w f t st)
      as (st1 & evs1 & Hrun & Htr & Hatt & Hout & Hlog & Hexe).
    destruct (escape_of w f) as [r|] eqn:He.
    + exists st1, evs1. unfold bind. rewrite Hrun.
      rewrite Hatt, Hout, Hlog, Hexe.
      repeat split; try assumption; try reflexivity.
      * simpl. destruct (caught w f); reflexivity.
      * simpl. destruct (has_loader w f); reflexivity.
    + destruct (IH (tally_after w f t) st1)
        as (st2 & evs2 & Hrun2 & Htr2 & Hatt2 & Hout2 & Hlog2 & Hexe2).
      exists st2, (evs1 ++ evs2).
      unfold bind. rewrite Hrun, Hrun2.
      rewrite Htr2, Htr, <- app_assoc.
      rewrite attempted_app, stdout_app, error_log_app, executed_app, map_app.
      rewrite Hatt, Hout, Hlog, Hexe, Hatt2, Hout2, Hlog2, Hexe2.
      repeat split; try reflexivity.
      * simpl. destruct (caught w f); reflexivity.
      * simpl. destruct (has_loader w f); reflexivity.
Qed.

(** What [import_plugins] does with the files that [glob] finds, whatever
    they do. *)
Lemma import_plugins_spec (w : world) (st : state) :
  exists st' evs,
    import_plugins w st =
      (match first_escape w (glob w) with
       | Some r => Raise r
       | None =>
           Return (List.length (glob w) - List.length (failing w (glob w)))
       end, st') /\
    trace st' = trace st ++ evs /\
    attempted evs = reached w (glob w) /\
    executed evs =
      map import_path_of (filter (has_loader w) (reached w (glob w))) /\
    map logged_plugin (error_log evs) =
      map (fun f => Some (path_stem f))
          (filter (caught w) (reached w (glob w))) /\
    stdout evs =
      match first_escape w (glob w) with
      | Some _ => [ImportingHeader]
      | None =>
          match glob w with
          | [] => [ImportingHeader; NoPluginsFound]
          | _ =>
              ImportingHeader ::
              PluginTotals (List.length (glob w))
                (List.length (glob w) - List.length (failing w (glob w)))
                (List.length (failing w (glob w))) ::
              match failing w (glob w) with
              | [] => []
              | bad => [FailedPlugins (map path_stem bad)]
              end
          end
      end.
Proof.
  unfold import_plugins.
  destruct (glob w) as [|f rest] eqn:Hglob.
  - exists (snd ((print ImportingHeader ;; print NoPluginsFound ;; ret 0) st)).
    exists [Stdout ImportingHeader; Stdout NoPluginsFound].
    unfold print, bind, emit, ret; simpl. rewrite <- app_assoc.
    repeat split; reflexivity.
  - set (files := f :: rest).
    unfold print at 1. unfold bind at 1, emit at 1. unfold bind at 1.
    match goal with
    | |- context [import_loop w files ?t ?s] =>
        destruct (import_loop_spec w files t s)
          as (st1 & evs1 & Hrun & Htr & Hatt & Hout & Hlog & Hexe)
    end.
    rewrite Hrun. cbn [trace] in Htr.
    destruct (first_escape w files) as [r|] eqn:Hesc.
    + exists st1, (Stdout ImportingHeader :: evs1).
      split; [reflexivity|]. rewrite Htr.
      split; [rewrite <- app_assoc; reflexivity|].
      cbn [attempted executed error_log stdout].
      rewrite Hatt, Hout, Hlog, Hexe. repeat split; reflexivity.
    + rewrite tally_loop_spec.
      cbn [success_count failed_plugins].
      rewrite Nat.add_0_l, app_nil_l, length_map.
      destruct (failing w files) as [|b bad'] eqn:Hbad.
      * eexists. exists (Stdout ImportingHeader :: evs1 ++
                  [Stdout (PluginTotals (List.length files) (List.length files - 0) 0)]).
        unfold print, bind, emit, ret; cbn [trace map List.length].
        rewrite Htr. split; [reflexivity|].
        split; [rewrite <- !app_assoc; reflexivity|].
        cbn [attempted executed error_log stdout].
        rewrite attempted_app, executed_app, error_log_app, stdout_app, map_app,
          Hatt, Hout, Hlog, Hexe.
        cbn [attempted executed error_log stdout app map].
        rewrite !app_nil_r. repeat split; reflexivity.
      * eexists. exists (Stdout ImportingHeader :: evs1 ++
                  [Stdout (PluginTotals (List.length files)
                             (List.length files - List.length (b :: bad'))
                             (List.length (b :: bad')));
                   Stdout (FailedPlugins (map path_stem (b :: bad')))]).
        unfold print, bind, emit, ret; cbn [trace map].
        rewrite Htr. split; [reflexivity|].
        split; [cbn [trace]; rewrite <- !app_assoc; reflexivity|].
        cbn [attempted executed error_log stdout].
        rewrite attempted_app, executed_app, error_log_app, stdout_app, map_app,
          Hatt, Hout, Hlog, Hexe.
        cbn [attempted executed error_log stdout app map]. rewrite !app_nil_r.
        repeat split; reflexivity.
Qed.

(** C2.  Plugin isolation, for the exceptions that the handler of line 86
    catches.  Take the [N] files that [glob] finds, of which [K] fail to load
    (no valid load specification, or an exception while the specification is
    resolved or the module executed).  When every exception raised is an
    instance of [Exception], [import_plugins] does not raise and returns
    [N - K]; every one of the [N] files is tried, in order, and every module
    that has a loader is executed, whatever happened to the files before it;
    the error log has one line for each failing module and no other; the
    totals line prints [N], [N - K] and [K], and the failed-plugins line
    lists the names of exactly the failing modules; with no file at all the
    result is [0], nothing is logged as an error, and only the no-plugins
    line is printed.  When a file raises something else (an exit signal or a
    cancellation), [import_plugins] raises it at the first such file: the
    files before it were tried and isolated as above, no file after it is
    tried, its own failure is not logged, and no totals are printed. *)
Theorem import_plugins_isolates_failures (w : world) (st : state) :
  let files := glob w in
  let N := List.length files in
  let bad := failing w files in
  let K := List.length bad in
  (first_escape w files = None ->
   exists st' evs,
     import_plugins w st = (Return (N - K), st') /\
     trace st' = trace st ++ evs /\
     attempted evs = files /\
     executed evs = map import_path_of (filter (has_loader w) files) /\
     map logged_plugin (error_log evs) =
       map (fun f => Some (path_stem f)) bad /\
     stdout evs =
       match files with
       | [] => [ImportingHeader; NoPluginsFound]
       | _ =>
           ImportingHeader :: PluginTotals N (N - K) K ::
           match bad with
           | [] => []
           | _ => [FailedPlugins (map path_stem bad)]
           end
       end) /\
  (forall r,
   first_escape w files = Some r ->
   exists st' evs before f after,
     import_plugins w st = (Raise r, st') /\
     trace st' = trace st ++ evs /\
     files = before ++ f :: after /\
     first_escape w before = None /\
     escape_of w f = Some r /\
     attempted evs = before ++ [f] /\
     executed evs =
       map import_path_of (filter (has_loader w) (before ++ [f])) /\
     map logged_plugin (error_log evs) =
       map (fun f => Some (path_stem f)) (failing w before) /\
     stdout evs = [ImportingHeader]).
Proof.
  cbv zeta.
  destruct (import_plugins_spec w st)
    as (st' & evs & Hrun & Htr & Hatt & Hexe & Hlog & Hout).
  split.
  - intros Hnone. rewrite Hnone in *.
    destruct (reached_all w (glob w) Hnone) as [Hr Hc].
    rewrite Hr in *. rewrite Hc in Hlog.
    exists st', evs. repeat split; try assumption.
    rewrite Hout. destruct (glob w); [reflexivity|].
    destruct (failing w (s :: l)); reflexivity.
  - intros r Hsome. rewrite Hsome in *.
    destruct (reached_until_escape w (glob w) r Hsome)
      as (before & f & after & Hf & Hb & He & Hr).
    rewrite Hr in *.
    exists st', evs, before, f, after.
    repeat split; try assumption.
    rewrite Hlog, filter_app.
    destruct (reached_all w before Hb) as [_ Hc]. rewrite Hc.
    simpl. unfold caught. rewrite He, andb_false_r, app_nil_r. reflexivity.
Qed.

(** ** What a computation may append to the trace *)

Section Emits.

Variable P : event -> Prop.

Lemma emits_ret {A} (a : A) : emits P (ret a).
Proof. intro st; exists []; simpl; rewrite app_nil_r; auto. Qed.

Lemma emits_raise {A} (r : raised) : emits P (@raise A r).
Proof. intro st; exists []; simpl; rewrite app_nil_r; auto. Qed.

Lemma emits_emit (e : event) : P e -> emits P (emit e).
Proof. intros He st; exists [e]; simpl; auto. Qed.

Lemma emits_bind {A B} (m : M A) (k : A -> M B) :
  emits P m -> (forall a, emits P (k a)) -> emits P (bind m k).
Proof.
  intros Hm Hk st. unfold bind.
  destruct (Hm st) as (evs & Htr & Hall & Hdb).
  destruct (m st) as [[a|r] st1]; simpl in *.
  - destruct (Hk a st1) as (evs' & Htr' & Hall' & Hdb').
    exists (evs ++ evs'). rewrite Htr', Htr, app_assoc.
    split; [reflexivity|]. split; [apply Forall_app; auto|].
    intros Hno. apply Forall_app in Hno. destruct Hno as [Hno Hno'].
    rewrite (Hdb' Hno'). exact (Hdb Hno).
  - exists evs; auto.
Qed.

Lemma emits_try_except {A} (m : M A) (h : handler A) :
  emits P m -> handler_emits P h -> emits P (try_except m h).
Proof.
  intros Hm Hh st. unfold try_except.
  destruct (Hm st) as (evs & Htr & Hall & Hdb).
  destruct (m st) as [[a|r] st1]; simpl in *.
  - exists evs; auto.
  - destruct (h r) as [k|] eqn:Hr; simpl.
    + destruct (Hh r k Hr st1) as (evs' & Htr' & Hall' & Hdb').
      exists (evs ++ evs'). rewrite Htr', Htr, app_assoc.
      split; [reflexivity|]. split; [apply Forall_app; auto|].
      intros Hno. apply Forall_app in Hno. destruct Hno as [Hno Hno'].
      rewrite (Hdb' Hno'). exact (Hdb Hno).
    + exists evs; auto.
Qed.

Lemma emits_try_finally {A} (m : M A) (fin : M unit) :
  emits P m -> emits P fin -> emits P (try_finally m fin).
Proof.
  intros Hm Hf st. unfold try_finally.
  destruct (Hm st) as (evs & Htr & Hall & Hdb).
  destruct (m st) as [o st1]; simpl in *.
  destruct (Hf st1) as (evs' & Htr' & Hall' & Hdb').
  exists (evs ++ evs'). rewrite app_assoc, <- Htr.
  assert (Hkeep : Forall no_db_delete (evs ++ evs') ->
                  stored_notice (snd (fin st1)) = stored_notice st).
  { intros Hno. apply Forall_app in Hno. destruct Hno as [Hno Hno'].
    rewrite (Hdb' Hno'). exact (Hdb Hno). }
  destruct (fin st1) as [[u|r] st2]; simpl in *;
    (split; [assumption|]); (split; [apply Forall_app; auto | assumption]).
Qed.

Lemma emits_await {A} (e : event) (o : outcome A) : P e -> emits P (await e o).
Proof.
  intros He. apply emits_bind; [apply emits_emit; exact He|].
  intros _ st; exists []; simpl; rewrite app_nil_r; auto.
Qed.

Lemma emits_call {A} (e : event) (o : sync_outcome A) : P e -> emits P (call e o).
Proof.
  intros He. apply emits_bind; [apply emits_emit; exact He|].
  intros _ st; exists []; destruct o; simpl; rewrite app_nil_r; auto.
Qed.

Lemma handler_emits_FloodWait {A} (k : nat -> M A) :
  (forall v, emits P (k v)) -> handler_emits P (except_FloodWait k).
Proof.
  intros Hk r k' Hr. destruct r as [[v| |msg]| |sg]; inversion Hr; subst; apply Hk.
Qed.

Lemma handler_emits_MessageNotModified {A} (k : M A) :
  emits P k -> handler_emits P (except_MessageNotModified k).
Proof.
  intros Hk r k' Hr. destruct r as [[v| |msg]| |sg]; inversion Hr; subst; apply Hk.
Qed.

Lemma handler_emits_CancelledError {A} (k : M A) :
  emits P k -> handler_emits P (except_CancelledError k).
Proof.
  intros Hk r k' Hr. destruct r as [e| |sg]; inversion Hr; subst; apply Hk.
Qed.

Lemma handler_emits_Exception {A} (k : exception -> M A) :
  (forall e, emits P (k e)) -> handler_emits P (except_Exception k).
Proof.
  intros Hk r k' Hr. destruct r as [e| |sg]; inversion Hr; subst; apply Hk.
Qed.

Lemma handler_emits_orelse {A} (h1 h2 : handler A) :
  handler_emits P h1 -> handler_emits P h2 -> handler_emits P (orelse h1 h2).
Proof.
  intros H1 H2 r k Hr. unfold orelse in Hr.
  destruct (h1 r) as [k1|] eqn:E1.
  - inversion Hr; subst. exact (H1 r k E1).
  - exact (H2 r k Hr).
Qed.

Lemma emits_set_username (name : string) : emits P (set_username name).
Proof. intro st; exists []; simpl; rewrite app_nil_r; auto. Qed.

Lemma emits_register_module (p : string) : emits P (register_module p).
Proof. intro st; exists []; simpl; rewrite app_nil_r; auto. Qed.

Lemma emits_StreamBot_start (w : world) : P Call_start -> emits P (StreamBot_start_ w).
Proof.
  intros He st. unfold StreamBot_start_.
  destruct (emits_await Call_start (StreamBot_start w (starts st)) He
              (mkState (trace st) (stored_notice st) (username st)
                 (sys_modules st) (S (starts st)) (get_mes st) (edits st)))
    as (evs & Htr & Hall & Hdb).
  exists evs; auto.
Qed.

Lemma emits_StreamBot_get_me (w : world) :
  P Call_get_me -> emits P (StreamBot_get_me_ w).
Proof.
  intros He st. unfold StreamBot_get_me_.
  destruct (emits_await Call_get_me (StreamBot_get_me w (get_mes st)) He
              (mkState (trace st) (stored_notice st) (username st)
                 (sys_modules st) (starts st) (S (get_mes st)) (edits st)))
    as (evs & Htr & Hall & Hdb).
  exists evs; auto.
Qed.

Lemma emits_StreamBot_edit_message_text (w : world) (c m : nat) :
  P (Call_edit_message_text c m) -> emits P (StreamBot_edit_message_text_ w c m).
Proof.
  intros He st. unfold StreamBot_edit_message_text_.
  destruct (emits_await (Call_edit_message_text c m)
              (StreamBot_edit_message_text w (edits st)) He
              (mkState (trace st) (stored_notice st) (username st)
                 (sys_modules st) (starts st) (get_mes st) (S (edits st))))
    as (evs & Htr & Hall & Hdb).
  exists evs; auto.
Qed.

Lemma emits_db_get_restart_message (w : world) :
  P Call_get_restart_message -> emits P (db_get_restart_message w).
Proof.
  intros He. apply emits_bind; [apply emits_emit; exact He|].
  intros _ st; exists [].
  destruct (db_get_fault w); simpl; rewrite app_nil_r; auto.
Qed.

Lemma emits_db_delete_restart_message (w : world) (m : nat) :
  P (Call_delete_restart_message m) -> emits P (db_delete_restart_message w m).
Proof.
  intros He st. exists [Call_delete_restart_message m].
  unfold db_delete_restart_message, bind, emit.
  destruct (db_delete_fault w); simpl;
    (split; [reflexivity|]); (split; [auto|]);
    intros Hno; inversion Hno as [|x l Hx Hl]; discriminate Hx.
Qed.

End Emits.

Lemma emits_weaken (P Q : event -> Prop) {A} (m : M A) :
  (forall e, P e -> Q e) -> emits P m -> emits Q m.
Proof.
  intros HPQ Hm st. destruct (Hm st) as (evs & Htr & Hall & Hdb).
  exists evs. split; [exact Htr|]. split; [|exact Hdb].
  eapply Forall_impl; eauto.
Qed.

(** Structural steps of a proof that a program emits only [P]-events; the
    side conditions [P e] are left. *)
Ltac emits_step :=
  first
    [ assumption
    | match goal with H : _ |- emits _ _ => simple apply H end
    | simple apply emits_ret | simple apply emits_raise | simple apply emits_set_username
    | simple apply emits_register_module
    | simple apply emits_StreamBot_start | simple apply emits_StreamBot_get_me
    | simple apply emits_StreamBot_edit_message_text
    | simple apply emits_db_get_restart_message | simple apply emits_db_delete_restart_message
    | simple apply emits_emit | simple apply emits_await | simple apply emits_call
    | simple apply emits_bind | simple apply emits_try_except | simple apply emits_try_finally
    | simple apply handler_emits_orelse
    | simple apply handler_emits_FloodWait | simple apply handler_emits_MessageNotModified
    | simple apply handler_emits_CancelledError | simple apply handler_emits_Exception
    | match goal with |- forall _, _ => intro end
    | match goal with
      | |- emits _ (match ?x with _ => _ end) => destruct x
      end ].

Ltac emits_tac := repeat emits_step; try reflexivity.


Lemma emits_startup_steps (w : world) : emits startup_only (startup_steps w).
Proof.
  unfold startup_steps, connect, fetch_identity, resolve_restart_notice,
    print, asyncio_sleep.
  emits_tac.
Qed.

Lemma emits_startup_sequencer (w : world) :
  emits startup_only (startup_sequencer w).
Proof.
  unfold startup_sequencer, logger_error.
  pose proof (emits_startup_steps w).
  emits_tac.
Qed.

Lemma emits_import_one (w : world) (f : string) (t : tally) :
  emits launch_only (import_one w f t).
Proof.
  unfold import_one, logger_error. emits_tac.
Qed.

Lemma emits_import_loop (w : world) (files : list string) :
  forall t, emits launch_only (import_loop w files t).
Proof.
  induction files as [|f rest IH]; intro t; simpl.
  - apply emits_ret.
  - apply emits_bind; [apply emits_import_one | intro; apply IH].
Qed.

Lemma emits_import_plugins (w : world) : emits launch_only (import_plugins w).
Proof.
  unfold import_plugins, print.
  pose proof (emits_import_loop w) as Hloop.
  destruct (glob w) as [|f rest]; emits_tac.
Qed.

Lemma emits_launch (w : world) : emits launch_only (launch w).
Proof.
  unfold launch, print.
  pose proof (emits_import_plugins w) as Hplug.
  emits_tac.
Qed.

(** ** The three groups of steps are disjoint *)

Lemma startup_not_launch (e : event) :
  startup_only e -> is_launch_step e = false.
Proof. unfold startup_only. destruct e as [[]|[]| | | | | | | | | | | | | | | | | | | |]; simpl; congruence. Qed.

Lemma startup_not_teardown (e : event) :
  startup_only e -> is_teardown_call e = false.
Proof. unfold startup_only. destruct e; simpl; congruence. Qed.


Lemma startup_not_idle (e : event) : startup_only e -> e <> Call_idle.
Proof. unfold startup_only. intros H ->. discriminate. Qed.


Lemma filter_none {A} (f : A -> bool) (l : list A) :
  Forall (fun x => f x = false) l -> filter f l = [].
Proof.
  induction 1 as [|x l Hx _ IH]; simpl; [reflexivity|].
  rewrite Hx. exact IH.
Qed.

(** ** The shape of a run of [start_services] *)

Lemma print_headers_run (st : state) :
  exists st0,
    print_headers st = (Return tt, st0) /\
    trace st0 = trace st ++ [Stdout Banner; Stdout InitializingHeader] /\
    stored_notice st0 = stored_notice st /\
    starts st0 = starts st /\ get_mes st0 = get_mes st /\ edits st0 = edits st.
Proof.
  eexists. unfold print_headers, print, bind, emit. simpl.
  split; [reflexivity|]. simpl. rewrite <- app_assoc. auto.
Qed.

(** [start_services] is its sequencer followed, at [Ready] only, by the
    serving part. *)
Lemma start_services_run (w : world) (st : state) :
  start_services w st =
    match startup_sequencer w (snd (print_headers st)) with
    | (Return Ready, st1) => serve w st1
    | (Return (Failed _), st1) => (Return tt, st1)
    | (Raise r, st1) => (Raise r, st1)
    end.
Proof.
  unfold start_services. unfold bind at 1.
  destruct (print_headers_run st) as (st0 & Hrun & _). rewrite Hrun. simpl.
  unfold bind. destruct (startup_sequencer w st0) as [[[|e]|r] st1]; reflexivity.
Qed.

(** The sequencer ends in [Failed e] exactly when a sequenced step raised the
    exception [e]; the error line is then the last thing it does. *)
Lemma startup_sequencer_run (w : world) (st : state) :
  startup_sequencer w st =
    match startup_steps w st with
    | (Return _, st1) => (Return Ready, st1)
    | (Raise (Exc e), st1) =>
        (Return (Failed e),
         mkState (trace st1 ++ [LogError (BotInitFailed e)]) (stored_notice st1)
                 (username st1) (sys_modules st1) (starts st1) (get_mes st1)
                 (edits st1))
    | (Raise r, st1) => (Raise r, st1)
    end.
Proof.
  unfold startup_sequencer, try_except, bind.
  destruct (startup_steps w st) as [[u|[e| |sg]] st1]; reflexivity.
Qed.

Lemma teardown_run (w : world) (st : state) :
  trace (snd (teardown w st)) = trace st ++ teardown_calls w.
Proof.
  unfold teardown, teardown_calls, await, bind, emit, ret. simpl.
  destruct (cleanup_clients w) as [u|r]; simpl.
  - destruct (rate_limiter_shutdown w) as [u'|r']; simpl.
    + destruct (runner_cleanup w); simpl; rewrite <- !app_assoc; reflexivity.
    + rewrite <- !app_assoc; reflexivity.
  - rewrite <- !app_assoc; reflexivity.
Qed.

Lemma run_until_terminated_trace (w : world) (st : state) :
  trace (snd (run_until_terminated w st)) =
    trace st ++ Call_idle :: teardown_calls w.
Proof.
  unfold run_until_terminated, try_finally.
  destruct (await Call_idle (idle w) st) as [o st1] eqn:Hidle.
  assert (Htr : trace st1 = trace st ++ [Call_idle]).
  { unfold await, bind, emit in Hidle. simpl in Hidle.
    inversion Hidle; subst; reflexivity. }
  pose proof (teardown_run w st1) as Htd.
  destruct (teardown w st1) as [[u|r] st2]; simpl in *;
    rewrite Htd, Htr, <- app_assoc; reflexivity.
Qed.



(** ** Every program only appends to the trace *)

Lemma emits_any {A} (P : event -> Prop) (m : M A) : emits P m -> emits any_event m.
Proof. apply emits_weaken. intros; exact I. Qed.

Lemma emits_any_teardown (w : world) : emits any_event (teardown w).
Proof.
  unfold teardown, supervised_tasks. simpl. repeat emits_step; exact I.
Qed.

Lemma emits_any_serve (w : world) : emits any_event (serve w).
Proof.
  unfold serve, run_until_terminated.
  pose proof (emits_any _ _ (emits_launch w)).
  pose proof (emits_any_teardown w).
  repeat emits_step; exact I.
Qed.

Lemma bind_extends {A B} (m : M A) (k : A -> M B) (st : state) :
  (forall a, emits any_event (k a)) ->
  exists evs, trace (snd (bind m k st)) = trace (snd (m st)) ++ evs.
Proof.
  intros Hk. unfold bind. destruct (m st) as [[a|r] st1]; simpl.
  - destruct (Hk a st1) as (evs & Htr & _). exists evs. exact Htr.
  - exists []. rewrite app_nil_r. reflexivity.
Qed.

(** Whatever the sequencer did, [start_services] only adds to it. *)
Lemma start_services_extends (w : world) (st : state) :
  exists evs,
    trace (snd (start_services w st)) =
      trace (snd (startup_sequencer w (snd (print_headers st)))) ++ evs.
Proof.
  rewrite start_services_run.
  destruct (startup_sequencer w (snd (print_headers st))) as [[[|e]|r] st1];
    cbn [snd].
  - destruct (emits_any_serve w st1) as (evs & Htr & _). exists evs. exact Htr.
  - exists []. rewrite app_nil_r. reflexivity.
  - exists []. rewrite app_nil_r. reflexivity.
Qed.

(** Whatever a prefix of the sequenced steps did, the sequencer only adds to
    it. *)
Lemma startup_sequencer_extends (w : world) (st : state) :
  exists evs,
    trace (snd (startup_sequencer w st)) = trace (snd (startup_steps w st)) ++ evs.
Proof.
  rewrite startup_sequencer_run.
  destruct (startup_steps w st) as [[u|[e| |sg]] st1]; cbn [snd trace].
  - exists []. rewrite app_nil_r. reflexivity.
  - eexists. reflexivity.
  - exists []. rewrite app_nil_r. reflexivity.
  - exists []. rewrite app_nil_r. reflexivity.
Qed.

(** The first thing the serving part does is to initialise the clients. *)
Lemma serve_first (w : world) (st : state) :
  exists rest,
    trace (snd (serve w st)) = trace st ++ Call_initialize_clients :: rest.
Proof.
  unfold serve.
  destruct (bind_extends (launch w) (fun _ => run_until_terminated w) st)
    as (e1 & H1).
  { intros _. unfold run_until_terminated.
    pose proof (emits_any_teardown w). repeat emits_step; exact I. }
  rewrite H1. unfold launch.
  match goal with
  | |- context [bind (await ?e ?o) ?k st] =>
      destruct (bind_extends (await e o) k st) as (e2 & H2)
  end.
  { intros _. pose proof (emits_any _ _ (emits_import_plugins w)).
    unfold print. repeat emits_step; exact I. }
  rewrite H2. unfold await, bind, emit. simpl.
  exists (e2 ++ e1). rewrite <- !app_assoc. reflexivity.
Qed.

(** ** Connecting and fetching the identity *)

Ltac unfold_steps :=
  unfold connect, fetch_identity, StreamBot_start_, StreamBot_get_me_,
    StreamBot_edit_message_text_, db_get_restart_message,
    db_delete_restart_message, asyncio_sleep, logger_error, print,
    try_except, except_FloodWait, except_MessageNotModified,
    except_Exception, except_CancelledError, orelse, await, bind, emit, ret.

Lemma connect_returns (w : world) (st : state) :
  StreamBot_start w (starts st) = Return tt ->
  connect w st =
    (Return tt,
     mkState (trace st ++ [Call_start]) (stored_notice st) (username st)
             (sys_modules st) (S (starts st)) (get_mes st) (edits st)).
Proof. intros H. unfold_steps. simpl. rewrite H. reflexivity. Qed.

Lemma connect_retries (w : world) (st : state) (value : nat) :
  StreamBot_start w (starts st) = Raise (Exc (FloodWait value)) ->
  connect w st =
    (StreamBot_start w (S (starts st)),
     mkState (trace st ++ [Call_start; Sleep value; Call_start])
             (stored_notice st) (username st) (sys_modules st)
             (S (S (starts st))) (get_mes st) (edits st)).
Proof.
  intros H. unfold_steps. simpl. rewrite H. simpl.
  rewrite <- !app_assoc. reflexivity.
Qed.

Lemma fetch_identity_returns (w : world) (st : state) (info : bot_info) :
  StreamBot_get_me w (get_mes st) = Return info ->
  fetch_identity w st =
    (Return info,
     mkState (trace st ++ [Call_get_me]) (stored_notice st) (username st)
             (sys_modules st) (starts st) (S (get_mes st)) (edits st)).
Proof. intros H. unfold_steps. simpl. rewrite H. reflexivity. Qed.

Lemma fetch_identity_retries (w : world) (st : state) (value : nat) :
  StreamBot_get_me w (get_mes st) = Raise (Exc (FloodWait value)) ->
  fetch_identity w st =
    (StreamBot_get_me w (S (get_mes st)),
     mkState (trace st ++ [Call_get_me; Sleep value; Call_get_me])
             (stored_notice st) (username st) (sys_modules st)
             (starts st) (S (S (get_mes st))) (edits st)).
Proof.
  intros H. unfold_steps. simpl. rewrite H. simpl.
  rewrite <- !app_assoc. reflexivity.
Qed.

Lemma fetch_identity_first (w : world) (st : state) :
  exists rest,
    trace (snd (fetch_identity w st)) = trace st ++ Call_get_me :: rest.
Proof.
  destruct (StreamBot_get_me w (get_mes st)) as [info|[[v| |msg]| |sg]] eqn:H.
  - rewrite (fetch_identity_returns w st info H). eexists; reflexivity.
  - rewrite (fetch_identity_retries w st v H). eexists; reflexivity.
  - unfold_steps. simpl. rewrite H. eexists; reflexivity.
  - unfold_steps. simpl. rewrite H. eexists; reflexivity.
  - unfold_steps. simpl. rewrite H. eexists; reflexivity.
  - unfold_steps. simpl. rewrite H. eexists; reflexivity.
Qed.

Lemma emits_after_fetch (w : world) (info : bot_info) :
  emits any_event
    (set_username (bot_username info) ;;
     print (BotInitialized (bot_username info)) ;;
     await Call_set_commands (set_commands w) ;;
     resolve_restart_notice w).
Proof.
  unfold resolve_restart_notice, print, asyncio_sleep.
  repeat emits_step; exact I.
Qed.

Lemma emits_resolve_restart_notice (w : world) :
  emits any_event (resolve_restart_notice w).
Proof.
  unfold resolve_restart_notice, asyncio_sleep.
  repeat emits_step; exact I.
Qed.

Lemma print_headers_initial (db : option notice) :
  print_headers (initial_state db) = (Return tt, headers_printed db).
Proof. reflexivity. Qed.

Lemma sequencer_fails_in_connect (w : world) (db : option notice) (d d' : nat) :
  StreamBot_start w 0 = Raise (Exc (FloodWait d)) ->
  StreamBot_start w 1 = Raise (Exc (FloodWait d')) ->
  startup_sequencer w (headers_printed db) =
    (Return (Failed (FloodWait d')),
     mkState [Stdout Banner; Stdout InitializingHeader;
              Call_start; Sleep d; Call_start;
              LogError (BotInitFailed (FloodWait d'))] db None [] 2 0 0).
Proof.
  intros H0 H1.
  rewrite startup_sequencer_run. unfold startup_steps. unfold bind at 1.
  rewrite (connect_retries w (headers_printed db) d H0).
  cbn [starts headers_printed]. rewrite H1. reflexivity.
Qed.

Lemma sequencer_fails_in_fetch (w : world) (db : option notice) (d d' : nat) :
  StreamBot_start w 0 = Return tt ->
  StreamBot_get_me w 0 = Raise (Exc (FloodWait d)) ->
  StreamBot_get_me w 1 = Raise (Exc (FloodWait d')) ->
  startup_sequencer w (headers_printed db) =
    (Return (Failed (FloodWait d')),
     mkState [Stdout Banner; Stdout InitializingHeader;
              Call_start; Call_get_me; Sleep d; Call_get_me;
              LogError (BotInitFailed (FloodWait d'))] db None [] 1 2 0).
Proof.
  intros H0 G0 G1.
  rewrite startup_sequencer_run. unfold startup_steps. unfold bind at 1.
  rewrite (connect_returns w (headers_printed db) H0). unfold bind at 1.
  match goal with
  | |- context [fetch_identity w ?s] =>
      rewrite (fetch_identity_retries w s d G0)
  end.
  cbn [get_mes headers_printed]. rewrite G1. reflexivity.
Qed.

(** Once the sequencer has ended in [Failed], [start_services] returns. *)
Lemma start_services_failed (w : world) (db : option notice)
    (e : exception) (st' : state) :
  startup_sequencer w (headers_printed db) = (Return (Failed e), st') ->
  start_services w (initial_state db) = (Return tt, st').
Proof.
  intros H. rewrite start_services_run, print_headers_initial. cbn [snd].
  rewrite H. reflexivity.
Qed.

(** Once the sequencer is [Ready], [start_services] goes on to serve. *)
Lemma start_services_ready (w : world) (db : option notice) (st' : state) :
  startup_sequencer w (headers_printed db) = (Return Ready, st') ->
  start_services w (initial_state db) = serve w st'.
Proof.
  intros H. rewrite start_services_run, print_headers_initial. cbn [snd].
  rewrite H. reflexivity.
Qed.

(** C3.  Single retry on a rate limit.  When the first [StreamBot.start()]
    raises [FloodWait(d)] and the second returns, the sequencer sleeps [d]
    between the two calls, and nothing else, and goes on to fetch the
    identity.  When the second call raises [FloodWait] too, the sequencer
    ends in [Failed]: the error is logged, [start_services] returns, and
    [StreamBot.start()] was called twice, not a third time.  The identity
    fetch does the same with [StreamBot.get_me()]. *)
Theorem single_retry_on_rate_limit (w : world) (db : option notice) (d : nat) :
  (StreamBot_start w 0 = Raise (Exc (FloodWait d)) ->
   StreamBot_start w 1 = Return tt ->
   exists rest,
     trace (snd (start_services w (initial_state db))) =
       [Stdout Banner; Stdout InitializingHeader;
        Call_start; Sleep d; Call_start; Call_get_me] ++ rest) /\
  (forall d',
   StreamBot_start w 0 = Raise (Exc (FloodWait d)) ->
   StreamBot_start w 1 = Raise (Exc (FloodWait d')) ->
   exists st',
     startup_sequencer w (headers_printed db) =
       (Return (Failed (FloodWait d')), st') /\
     start_services w (initial_state db) = (Return tt, st') /\
     trace st' =
       [Stdout Banner; Stdout InitializingHeader;
        Call_start; Sleep d; Call_start;
        LogError (BotInitFailed (FloodWait d'))]) /\
  (forall info,
   StreamBot_start w 0 = Return tt ->
   StreamBot_get_me w 0 = Raise (Exc (FloodWait d)) ->
   StreamBot_get_me w 1 = Return info ->
   exists rest,
     trace (snd (start_services w (initial_state db))) =
       [Stdout Banner; Stdout InitializingHeader;
        Call_start; Call_get_me; Sleep d; Call_get_me;
        Stdout (BotInitialized (bot_username info)); Call_set_commands]
       ++ rest) /\
  (forall d',
   StreamBot_start w 0 = Return tt ->
   StreamBot_get_me w 0 = Raise (Exc (FloodWait d)) ->
   StreamBot_get_me w 1 = Raise (Exc (FloodWait d')) ->
   exists st',
     startup_sequencer w (headers_printed db) =
       (Return (Failed (FloodWait d')), st') /\
     start_services w (initial_state db) = (Return tt, st') /\
     trace st' =
       [Stdout Banner; Stdout InitializingHeader;
        Call_start; Call_get_me; Sleep d; Call_get_me;
        LogError (BotInitFailed (FloodWait d'))]).
Proof.
  repeat split.
  - intros H0 H1.
    destruct (start_services_extends w (initial_state db)) as (e1 & E1).
    rewrite E1, print_headers_initial. cbn [snd].
    destruct (startup_sequencer_extends w (headers_printed db)) as (e2 & E2).
    rewrite E2. unfold startup_steps. unfold bind at 1.
    rewrite (connect_retries w (headers_printed db) d H0). cbn [starts headers_printed].
    rewrite H1.
    match goal with
    | |- context [bind (fetch_identity w) ?k ?s] =>
        destruct (bind_extends (fetch_identity w) k s) as (e3 & E3);
        [ intro; apply emits_after_fetch | rewrite E3 ];
        destruct (fetch_identity_first w s) as (e4 & E4); rewrite E4
    end.
    exists (e4 ++ e3 ++ e2 ++ e1). cbn [trace]. simpl. rewrite <- !app_assoc.
    reflexivity.
  - intros d' H0 H1.
    pose proof (sequencer_fails_in_connect w db d d' H0 H1) as Hseq.
    eexists. split; [exact Hseq|].
    split; [exact (start_services_failed w db _ _ Hseq) | reflexivity].
  - intros info H0 G0 G1.
    destruct (start_services_extends w (initial_state db)) as (e1 & E1).
    rewrite E1, print_headers_initial. cbn [snd].
    destruct (startup_sequencer_extends w (headers_printed db)) as (e2 & E2).
    rewrite E2. unfold startup_steps. unfold bind at 1.
    rewrite (connect_returns w (headers_printed db) H0). unfold bind at 1.
    match goal with
    | |- context [fetch_identity w ?s] =>
        rewrite (fetch_identity_retries w s d G0)
    end.
    cbn [get_mes headers_printed]. rewrite G1.
    unfold set_username, print. unfold bind at 1. unfold bind at 1.
    unfold emit at 1.
    match goal with
    | |- context [bind (await Call_set_commands ?o) ?k ?s] =>
        destruct (bind_extends (await Call_set_commands o) k s) as (e3 & E3);
        [ intro; apply emits_resolve_restart_notice | rewrite E3 ]
    end.
    unfold await, bind, emit. cbn [snd trace headers_printed].
    destruct (set_commands w); cbn [snd trace];
      exists (e3 ++ e2 ++ e1); simpl; rewrite <- !app_assoc; reflexivity.
  - intros d' H0 G0 G1.
    pose proof (sequencer_fails_in_fetch w db d d' H0 G0 G1) as Hseq.
    eexists. split; [exact Hseq|].
    split; [exact (start_services_failed w db _ _ Hseq) | reflexivity].
Qed.

(** ** Up to the restart notice *)

(** Connecting and fetching the identity touch neither the database nor the
    message-edit counter. *)
Lemma connect_frame (w : world) (st : state) :
  stored_notice (snd (connect w st)) = stored_notice st /\
  edits (snd (connect w st)) = edits st /\
  get_mes (snd (connect w st)) = get_mes st.
Proof.
  unfold_steps. simpl.
  destruct (StreamBot_start w (starts st)) as [u|[[v| |msg]| |sg]]; simpl; auto.
Qed.

Lemma fetch_identity_frame (w : world) (st : state) :
  stored_notice (snd (fetch_identity w st)) = stored_notice st /\
  edits (snd (fetch_identity w st)) = edits st.
Proof.
  unfold_steps. simpl.
  destruct (StreamBot_get_me w (get_mes st)) as [u|[[v| |msg]| |sg]]; simpl; auto.
Qed.

Lemma identified_frame (w : world) (db : option notice) (info : bot_info)
    (st1 st2 : state) :
  connect w (headers_printed db) = (Return tt, st1) ->
  fetch_identity w st1 = (Return info, st2) ->
  stored_notice (identified info st2) = db /\ edits (identified info st2) = 0.
Proof.
  intros H1 H2.
  destruct (connect_frame w (headers_printed db)) as (Ha & Hb & _).
  destruct (fetch_identity_frame w st1) as (Hc & Hd).
  rewrite H1 in Ha, Hb. rewrite H2 in Hc, Hd. simpl in *.
  split; congruence.
Qed.

(** With the connection made, the identity fetched and the commands
    registered, what is left of the sequenced steps is the restart notice. *)
Lemma startup_steps_reach_notice (w : world) (st st1 st2 : state)
    (info : bot_info) :
  connect w st = (Return tt, st1) ->
  fetch_identity w st1 = (Return info, st2) ->
  set_commands w = Return tt ->
  startup_steps w st = resolve_restart_notice w (identified info st2).
Proof.
  intros H1 H2 H3. unfold startup_steps.
  unfold bind at 1. rewrite H1. unfold bind at 1. rewrite H2.
  unfold set_username, print, await, bind, emit. simpl. rewrite H3.
  unfold identified. rewrite <- app_assoc. reflexivity.
Qed.


(** ** The restart notice, case by case *)

Lemma resolve_no_notice (w : world) (st : state) :
  db_get_fault w = None ->
  stored_notice st = None ->
  resolve_restart_notice w st =
    (Return tt, advanced [Call_get_restart_message] None 0 st).
Proof.
  intros Hget Hdb. unfold resolve_restart_notice. unfold_steps. simpl.
  rewrite Hget, Hdb. reflexivity.
Qed.

Lemma resolve_edit_returns (w : world) (st : state) (n : notice) :
  db_get_fault w = None ->
  stored_notice st = Some n ->
  StreamBot_edit_message_text w (edits st) = Return tt ->
  resolve_restart_notice w st =
    match db_delete_fault w with
    | None =>
        (Return tt,
         advanced [Call_get_restart_message;
                   Call_edit_message_text (chat_id n) (message_id n);
                   Call_delete_restart_message (message_id n)] None 1 st)
    | Some r =>
        match r with
        | Exc (FloodWait value) =>
            (Return tt,
             advanced [Call_get_restart_message;
                       Call_edit_message_text (chat_id n) (message_id n);
                       Call_delete_restart_message (message_id n);
                       Sleep value] (Some n) 1 st)
        | Exc MessageNotModified =>
            (Return tt,
             advanced [Call_get_restart_message;
                       Call_edit_message_text (chat_id n) (message_id n);
                       Call_delete_restart_message (message_id n)]
                      (Some n) 1 st)
        | _ =>
            (Raise r,
             advanced [Call_get_restart_message;
                       Call_edit_message_text (chat_id n) (message_id n);
                       Call_delete_restart_message (message_id n)]
                      (Some n) 1 st)
        end
    end.
Proof.
  intros Hget Hdb Hedit. unfold resolve_restart_notice. unfold_steps. simpl.
  rewrite Hget, Hdb. simpl. rewrite Hedit. simpl.
  unfold advanced, remove_notice.
  destruct (db_delete_fault w) as [[[v| |msg]| |sg]|]; simpl;
    rewrite ?Nat.eqb_refl, <- ?app_assoc, ?Hdb; reflexivity.
Qed.

Lemma resolve_edit_rate_limited (w : world) (st : state) (n : notice)
    (value : nat) :
  db_get_fault w = None ->
  stored_notice st = Some n ->
  StreamBot_edit_message_text w (edits st) = Raise (Exc (FloodWait value)) ->
  resolve_restart_notice w st =
    (Return tt,
     advanced [Call_get_restart_message;
               Call_edit_message_text (chat_id n) (message_id n);
               Sleep value]
              (Some n) 1 st).
Proof.
  intros Hget Hdb Hedit. unfold resolve_restart_notice. unfold_steps. simpl.
  rewrite Hget, Hdb. simpl. rewrite Hedit. simpl.
  unfold advanced. rewrite <- ?app_assoc, ?Hdb. reflexivity.
Qed.

(** ** The serving part *)

Lemma launch_no_db_delete (e : event) : launch_only e -> no_db_delete e.
Proof. unfold launch_only, no_db_delete. destruct e; simpl; congruence. Qed.

(** Nothing past [Ready] touches the stored notice. *)
Lemma serve_keeps_notice (w : world) (st : state) :
  stored_notice (snd (serve w st)) = stored_notice st.
Proof.
  assert (H : emits no_db_delete (serve w)).
  { unfold serve, run_until_terminated, teardown, supervised_tasks. simpl.
    pose proof (emits_weaken _ _ _ launch_no_db_delete (emits_launch w)).
    emits_tac. }
  destruct (H st) as (evs & _ & Hall & Hdb). exact (Hdb Hall).
Qed.

(** The plugin pass returns when no file raises past its handler. *)
Lemma import_plugins_returns (w : world) (st : state) :
  first_escape w (glob w) = None ->
  exists n st' evs,
    import_plugins w st = (Return n, st') /\ trace st' = trace st ++ evs.
Proof.
  intros Hnone.
  destruct (import_plugins_spec w st) as (st' & evs & Hrun & Htr & _).
  rewrite Hnone in Hrun. eauto.
Qed.

(** When the awaited calls of lines 140-152 return, the launch runs to its
    end: the plugin pass, then the three tasks, then the listener. *)
Lemma launch_completes (w : world) (st : state) :
  initialize_clients w = Return tt ->
  first_escape w (glob w) = None ->
  web_server w = Return tt ->
  runner_setup w = Return tt ->
  site_start w = Return tt ->
  exists st' plugin_evs,
    launch w st = (Return tt, st') /\
    trace st' =
      trace st ++ Call_initialize_clients :: plugin_evs ++
      [CreateTask request_executor_task; CreateTask keepalive_task;
       CreateTask token_cleanup_task; Call_web_server; Call_runner_setup;
       Call_site_start; Stdout RunningOn; Stdout StartupTime].
Proof.
  intros Hi Hp Hw Hr Hs. unfold launch.
  unfold await at 1. unfold bind at 1. unfold bind at 1. unfold emit at 1.
  rewrite Hi. unfold bind at 1.
  match goal with
  | |- context [import_plugins w ?s] =>
      destruct (import_plugins_returns w s Hp) as (n & st1 & evs & Hrun & Htr)
  end.
  rewrite Hrun. cbn [trace] in Htr.
  unfold print, await, bind, emit. simpl. rewrite Hw, Hr, Hs.
  eexists; exists evs. split; [reflexivity|].
  simpl. rewrite Htr, <- !app_assoc. reflexivity.
Qed.

(** ** The sequencer in [Failed] *)

Lemma failed_trace (w : world) (st st' : state) (e : exception) :
  startup_sequencer w st = (Return (Failed e), st') ->
  exists A,
    trace st' = trace st ++ A ++ [LogError (BotInitFailed e)] /\
    Forall startup_only A.
Proof.
  intros H. rewrite startup_sequencer_run in H.
  destruct (emits_startup_steps w st) as (A & Htr & HA & _).
  destruct (startup_steps w st) as [[u|[e0| |sg]] st1]; inversion H; subst.
  exists A. simpl in *. rewrite Htr, <- app_assoc. auto.
Qed.

Lemma failed_runs_no_launch_step (w : world) (db : option notice)
    (st' : state) (e : exception) :
  startup_sequencer w (headers_printed db) = (Return (Failed e), st') ->
  Forall (fun ev => is_launch_step ev = false) (trace st') /\
  ~ In Call_idle (trace st').
Proof.
  intros H. destruct (failed_trace _ _ _ _ H) as (A & Htr & HA).
  assert (Hall : Forall startup_only (trace st')).
  { rewrite Htr. simpl. repeat constructor.
    apply Forall_app. split; [exact HA | repeat constructor]. }
  split.
  - eapply Forall_impl; [|exact Hall]. apply startup_not_launch.
  - intros Hin. rewrite Forall_forall in Hall.
    exact (startup_not_idle _ (Hall _ Hin) eq_refl).
Qed.

(** C9.  When the sequencer ends in [Failed], the error line is the last
    thing written and [start_services] returns there: no launch step is ever
    taken, so no plugin file is tried, no background task is created, the
    listener is not started, and the wait for termination is not entered. *)
Theorem failed_startup_serves_nothing (w : world) (db : option notice)
    (e : exception) (st' : state) :
  startup_sequencer w (headers_printed db) = (Return (Failed e), st') ->
  start_services w (initial_state db) = (Return tt, st') /\
  (exists evs, trace st' = evs ++ [LogError (BotInitFailed e)]) /\
  Forall (fun ev => is_launch_step ev = false) (trace st') /\
  (forall p f, ~ In (Call_spec_from_file_location p f) (trace st')) /\
  (forall t, ~ In (CreateTask t) (trace st')) /\
  ~ In Call_site_start (trace st') /\
  ~ In Call_idle (trace st').
Proof.
  intros H.
  destruct (failed_runs_no_launch_step w db st' e H) as (Hno & Hidle).
  destruct (failed_trace _ _ _ _ H) as (A & Htr & _).
  split; [exact (start_services_failed w db e st' H)|].
  split; [exists (trace (headers_printed db) ++ A); rewrite Htr, app_assoc;
          reflexivity|].
  split; [exact Hno|].
  rewrite Forall_forall in Hno.
  repeat split; try exact Hidle; intros; intro Hin;
    apply Hno in Hin; discriminate Hin.
Qed.


Lemma serve_completes (w : world) (st : state) :
  initialize_clients w = Return tt ->
  first_escape w (glob w) = None ->
  web_server w = Return tt ->
  runner_setup w = Return tt ->
  site_start w = Return tt ->
  exists pre,
    trace (snd (serve w st)) =
      trace st ++ pre ++
      [Call_site_start; Stdout RunningOn; Stdout StartupTime; Call_idle] ++
      teardown_calls w.
Proof.
  intros Hi Hp Hw Hr Hs.
  destruct (launch_completes w st Hi Hp Hw Hr Hs) as (st1 & pl & Hrun & Htr).
  unfold serve, bind. rewrite Hrun.
  rewrite run_until_terminated_trace, Htr.
  exists (Call_initialize_clients :: pl ++
          [CreateTask request_executor_task; CreateTask keepalive_task;
           CreateTask token_cleanup_task; Call_web_server; Call_runner_setup]).
  simpl. rewrite <- !app_assoc. simpl. rewrite <- !app_assoc. reflexivity.
Qed.

Lemma sequencer_ready (w : world) (st st' : state) :
  startup_steps w st = (Return tt, st') ->
  startup_sequencer w st = (Return Ready, st').
Proof. intros H. rewrite startup_sequencer_run, H. reflexivity. Qed.

(** What the resolution step does when the edit raises, whatever it raises:
    it sleeps on a [FloodWait] and otherwise adds nothing; it never calls the
    delete, and the stored notice stays. *)
Lemma resolve_edit_raises (w : world) (st : state) (n : notice) (r : raised) :
  db_get_fault w = None ->
  stored_notice st = Some n ->
  StreamBot_edit_message_text w (edits st) = Raise r ->
  resolve_restart_notice w st =
    (match r with
     | Exc (FloodWait _) | Exc MessageNotModified => Return tt
     | _ => Raise r
     end,
     advanced (Call_get_restart_message ::
               Call_edit_message_text (chat_id n) (message_id n) ::
               match r with Exc (FloodWait v) => [Sleep v] | _ => [] end)
              (Some n) 1 st).
Proof.
  intros Hget Hdb Hedit. unfold resolve_restart_notice. unfold_steps. simpl.
  rewrite Hget, Hdb. simpl. rewrite Hedit.
  unfold advanced.
  destruct r as [[v| |msg]| |sg]; simpl; rewrite <- ?app_assoc, ?Hdb; reflexivity.
Qed.

(** C7.  The restart notice when the edit succeeds, and when there is none.
    With a notice stored, the commands registered and the edit returning,
    the sequencer calls [db.delete_restart_message] with the notice's message
    id right after the edit; when that call returns, the sequencer is [Ready]
    and the storage holds no notice, then and at the end of the run.  With
    no notice stored, the step reads the storage and does nothing else: no
    edit, no delete, no sleep, and the sequencer is [Ready]. *)
Theorem restart_notice_resolution (w : world) (db : option notice)
    (info : bot_info) (st1 st2 : state) :
  connect w (headers_printed db) = (Return tt, st1) ->
  fetch_identity w st1 = (Return info, st2) ->
  set_commands w = Return tt ->
  db_get_fault w = None ->
  (forall n,
   db = Some n ->
   StreamBot_edit_message_text w 0 = Return tt ->
   (exists rest,
      trace (snd (startup_sequencer w (headers_printed db))) =
        trace (identified info st2) ++
        [Call_get_restart_message;
         Call_edit_message_text (chat_id n) (message_id n);
         Call_delete_restart_message (message_id n)] ++ rest) /\
   (db_delete_fault w = None ->
    let st' :=
      advanced [Call_get_restart_message;
                Call_edit_message_text (chat_id n) (message_id n);
                Call_delete_restart_message (message_id n)]
               None 1 (identified info st2) in
    startup_sequencer w (headers_printed db) = (Return Ready, st') /\
    stored_notice st' = None /\
    stored_notice (snd (start_services w (initial_state db))) = None)) /\
  (db = None ->
   let st' := advanced [Call_get_restart_message] None 0 (identified info st2) in
   startup_sequencer w (headers_printed db) = (Return Ready, st') /\
   edits st' = 0 /\
   stored_notice (snd (start_services w (initial_state db))) = None).
Proof.
  intros H1 H2 H3 Hget.
  destruct (identified_frame w db info st1 st2 H1 H2) as (Hdb & Hed).
  pose proof (startup_steps_reach_notice w _ st1 st2 info H1 H2 H3) as Hsteps.
  split.
  - intros n Hn Hedit. rewrite Hn in *.
    assert (Hedit' : StreamBot_edit_message_text w (edits (identified info st2))
                     = Return tt) by (rewrite Hed; exact Hedit).
    pose proof (resolve_edit_returns w _ n Hget Hdb Hedit') as Hres.
    split.
    + rewrite startup_sequencer_run, Hsteps, Hres.
      destruct (db_delete_fault w) as [[[v| |msg]| |sg]|]; cbn [snd trace advanced];
        rewrite <- ?app_assoc; simpl; eexists; reflexivity.
    + intros Hdel. rewrite Hdel in Hres. cbv zeta.
      assert (Hseq : startup_sequencer w (headers_printed (Some n)) =
                (Return Ready,
                 advanced [Call_get_restart_message;
                           Call_edit_message_text (chat_id n) (message_id n);
                           Call_delete_restart_message (message_id n)]
                          None 1 (identified info st2))).
      { apply sequencer_ready. rewrite Hsteps. exact Hres. }
      split; [exact Hseq|]. split; [reflexivity|].
      rewrite (start_services_ready w _ _ Hseq), serve_keeps_notice.
      reflexivity.
  - intros Hn. rewrite Hn in *. cbv zeta.
    assert (Hseq : startup_sequencer w (headers_printed None) =
              (Return Ready,
               advanced [Call_get_restart_message] None 0 (identified info st2))).
    { apply sequencer_ready. rewrite Hsteps.
      exact (resolve_no_notice w _ Hget Hdb). }
    split; [exact Hseq|]. split; [simpl; exact Hed|].
    rewrite (start_services_ready w _ _ Hseq), serve_keeps_notice.
    reflexivity.
Qed.

(** C8.  A rate-limited edit is not retried.  With a notice stored and the
    edit raising [FloodWait(v)], the sequencer sleeps [v] and is [Ready]:
    the edit was called once, the delete not at all, and [start_services]
    goes on to the serving part, whose first step is to initialise the
    clients; when the awaited calls of the launch return, the plugin pass
    among them, the listener is started and the wait for termination
    entered. *)
Theorem rate_limited_edit_is_not_retried (w : world) (n : notice)
    (info : bot_info) (st1 st2 : state) (v : nat) :
  connect w (headers_printed (Some n)) = (Return tt, st1) ->
  fetch_identity w st1 = (Return info, st2) ->
  set_commands w = Return tt ->
  db_get_fault w = None ->
  StreamBot_edit_message_text w 0 = Raise (Exc (FloodWait v)) ->
  let st' :=
    advanced [Call_get_restart_message;
              Call_edit_message_text (chat_id n) (message_id n);
              Sleep v]
             (Some n) 1 (identified info st2) in
  let final := snd (start_services w (initial_state (Some n))) in
  startup_sequencer w (headers_printed (Some n)) = (Return Ready, st') /\
  edits st' = 1 /\
  start_services w (initial_state (Some n)) = serve w st' /\
  (exists rest, trace final = trace st' ++ Call_initialize_clients :: rest) /\
  (initialize_clients w = Return tt ->
   first_escape w (glob w) = None ->
   web_server w = Return tt ->
   runner_setup w = Return tt ->
   site_start w = Return tt ->
   In Call_site_start (trace final) /\ In Call_idle (trace final)).
Proof.
  intros H1 H2 H3 Hget Hedit. cbv zeta.
  destruct (identified_frame w (Some n) info st1 st2 H1 H2) as (Hdb & Hed).
  pose proof (startup_steps_reach_notice w _ st1 st2 info H1 H2 H3) as Hsteps.
  assert (Hedit' : StreamBot_edit_message_text w (edits (identified info st2))
                   = Raise (Exc (FloodWait v))) by (rewrite Hed; exact Hedit).
  assert (Hseq : startup_sequencer w (headers_printed (Some n)) =
            (Return Ready,
             advanced [Call_get_restart_message;
                       Call_edit_message_text (chat_id n) (message_id n);
                       Sleep v]
                      (Some n) 1 (identified info st2))).
  { apply sequencer_ready. rewrite Hsteps.
    exact (resolve_edit_rate_limited w _ n v Hget Hdb Hedit'). }
  split; [exact Hseq|].
  split; [cbn [edits advanced]; rewrite Hed; reflexivity|].
  rewrite (start_services_ready w _ _ Hseq).
  split; [reflexivity|].
  split; [apply serve_first|].
  intros Hi Hp Hw Hr Hs.
  destruct (serve_completes w
              (advanced [Call_get_restart_message;
                         Call_edit_message_text (chat_id n) (message_id n);
                         Sleep v] (Some n) 1 (identified info st2))
              Hi Hp Hw Hr Hs) as (pre & Htr).
  rewrite Htr. split.
  - apply in_or_app. right. apply in_or_app. right. simpl. auto.
  - apply in_or_app. right. apply in_or_app. right. simpl. auto.
Qed.

(** C10.  An edit that raises leaves the notice stored.  On
    [MessageNotModified] the sequencer is [Ready] as after a successful edit,
    but the delete is not called and the notice is still stored at the end of
    the run; the same on [FloodWait].  Whatever the edit raises, the events
    added after the registration of the commands include no delete call, and
    the notice is still stored when the sequencer ends. *)
Theorem failed_edit_keeps_notice (w : world) (n : notice)
    (info : bot_info) (st1 st2 : state) :
  connect w (headers_printed (Some n)) = (Return tt, st1) ->
  fetch_identity w st1 = (Return info, st2) ->
  set_commands w = Return tt ->
  db_get_fault w = None ->
  (StreamBot_edit_message_text w 0 = Raise (Exc MessageNotModified) ->
   let st' :=
     advanced [Call_get_restart_message;
               Call_edit_message_text (chat_id n) (message_id n)]
              (Some n) 1 (identified info st2) in
   startup_sequencer w (headers_printed (Some n)) = (Return Ready, st') /\
   start_services w (initial_state (Some n)) = serve w st' /\
   stored_notice (snd (start_services w (initial_state (Some n)))) = Some n) /\
  (forall v,
   StreamBot_edit_message_text w 0 = Raise (Exc (FloodWait v)) ->
   let st' :=
     advanced [Call_get_restart_message;
               Call_edit_message_text (chat_id n) (message_id n);
               Sleep v]
              (Some n) 1 (identified info st2) in
   startup_sequencer w (headers_printed (Some n)) = (Return Ready, st') /\
   start_services w (initial_state (Some n)) = serve w st' /\
   stored_notice (snd (start_services w (initial_state (Some n)))) = Some n) /\
  (forall r,
   StreamBot_edit_message_text w 0 = Raise r ->
   exists evs,
     trace (snd (startup_sequencer w (headers_printed (Some n)))) =
       trace (identified info st2) ++ evs /\
     Forall no_db_delete evs /\
     stored_notice (snd (startup_sequencer w (headers_printed (Some n)))) =
       Some n).
Proof.
  intros H1 H2 H3 Hget.
  destruct (identified_frame w (Some n) info st1 st2 H1 H2) as (Hdb & Hed).
  pose proof (startup_steps_reach_notice w _ st1 st2 info H1 H2 H3) as Hsteps.
  assert (Hraises : forall r,
            StreamBot_edit_message_text w 0 = Raise r ->
            StreamBot_edit_message_text w (edits (identified info st2)) = Raise r)
    by (intros r Hr; rewrite Hed; exact Hr).
  split; [|split].
  - intros Hedit. cbv zeta.
    pose proof (resolve_edit_raises w _ n _ Hget Hdb (Hraises _ Hedit)) as Hres.
    assert (Hseq : startup_sequencer w (headers_printed (Some n)) =
              (Return Ready,
               advanced [Call_get_restart_message;
                         Call_edit_message_text (chat_id n) (message_id n)]
                        (Some n) 1 (identified info st2))).
    { apply sequencer_ready. rewrite Hsteps. exact Hres. }
    split; [exact Hseq|].
    rewrite (start_services_ready w _ _ Hseq).
    split; [reflexivity|]. rewrite serve_keeps_notice. reflexivity.
  - intros v Hedit. cbv zeta.
    pose proof (resolve_edit_raises w _ n _ Hget Hdb (Hraises _ Hedit)) as Hres.
    assert (Hseq : startup_sequencer w (headers_printed (Some n)) =
              (Return Ready,
               advanced [Call_get_restart_message;
                         Call_edit_message_text (chat_id n) (message_id n);
                         Sleep v]
                        (Some n) 1 (identified info st2))).
    { apply sequencer_ready. rewrite Hsteps. exact Hres. }
    split; [exact Hseq|].
    rewrite (start_services_ready w _ _ Hseq).
    split; [reflexivity|]. rewrite serve_keeps_notice. reflexivity.
  - intros r Hedit.
    pose proof (resolve_edit_raises w _ n _ Hget Hdb (Hraises _ Hedit)) as Hres.
    rewrite startup_sequencer_run, Hsteps, Hres.
    destruct r as [[v| |msg]| |sg]; cbn [snd trace stored_notice advanced];
      rewrite <- ?app_assoc; eexists;
      (split; [reflexivity|]); split; try reflexivity;
      repeat constructor.
Qed.

(** ** Teardown *)


(** What [teardown] returns: the outcome of its first call that raises, or
    of the last one. *)
Lemma teardown_outcome (w : world) (st : state) :
  fst (teardown w st) =
    match cleanup_clients w with
    | Raise r => Raise r
    | Return _ =>
        match rate_limiter_shutdown w with
        | Raise r => Raise r
        | Return _ => runner_cleanup w
        end
    end.
Proof.
  unfold teardown, await, bind, emit, ret. simpl.
  destruct (cleanup_clients w) as [u|r]; simpl; [|reflexivity].
  destruct (rate_limiter_shutdown w) as [u'|r']; reflexivity.
Qed.

(** C4 (as amended).  The [finally] block always runs once the wait for
    termination ends, whether [idle()] returns or raises, and takes its steps
    in order: the three cancellation requests and the client release are
    always made; the limiter is shut down if and only if the client release
    returned, and the listener is torn down if and only if both the client
    release and the limiter shutdown returned.  The block raises what its
    first failing step raised. *)
Theorem teardown_stops_at_first_failure (w : world) (st : state) :
  trace (snd (run_until_terminated w st)) =
    trace st ++ Call_idle :: teardown_calls w /\
  (exists later,
     teardown_calls w =
       [Cancel request_executor_task; Cancel keepalive_task;
        Cancel token_cleanup_task; Call_cleanup_clients] ++ later) /\
  (In Call_rate_limiter_shutdown (teardown_calls w) <->
   exists u, cleanup_clients w = Return u) /\
  (In Call_runner_cleanup (teardown_calls w) <->
   (exists u, cleanup_clients w = Return u) /\
   (exists u, rate_limiter_shutdown w = Return u)) /\
  (forall r, cleanup_clients w = Raise r ->
             fst (teardown w st) = Raise r) /\
  (forall u r, cleanup_clients w = Return u ->
               rate_limiter_shutdown w = Raise r ->
               fst (teardown w st) = Raise r).
Proof.
  split; [apply run_until_terminated_trace|].
  split; [unfold teardown_calls; simpl; eexists; reflexivity|].
  rewrite teardown_outcome. unfold teardown_calls. simpl.
  destruct (cleanup_clients w) as [u|r];
    [destruct (rate_limiter_shutdown w) as [u'|r']|]; simpl;
    repeat split; intros;
    repeat match goal with
           | H : _ \/ _ |- _ => destruct H
           | H : _ /\ _ |- _ => destruct H
           | H : exists _, _ |- _ => destruct H
           | H : False |- _ => contradiction
           end;
    try discriminate; try congruence; eauto 10.
Qed.

(** ** Schedules *)



(** A list in which [b] occurs once splits at [b] in one way only. *)
Lemma split_at_unique {A} (b : A) (p q x y : list A) :
  ~ In b p -> ~ In b q ->
  p ++ b :: q = x ++ b :: y ->
  x = p /\ y = q.
Proof.
  revert x. induction p as [|a p IH]; intros x Hp Hq Heq.
  - destruct x as [|a' x]; simpl in Heq.
    + inversion Heq. auto.
    + inversion Heq; subst. exfalso. apply Hq. apply in_elt.
  - destruct x as [|a' x]; simpl in Heq.
    + inversion Heq; subst. exfalso. apply Hp. left. reflexivity.
    + inversion Heq; subst.
      destruct (IH x) as [Hx Hy]; auto.
      * intros Hin. apply Hp. right. exact Hin.
      * subst. auto.
Qed.







(** ** The token-cleanup loop *)

Lemma cleanup_iteration_run (cw : cleanup_world) (i : nat) (st : state) :
  exists st',
    cleanup_iteration cw i st = (iteration_outcome cw i, st') /\
    trace st' = trace st ++ iteration_events cw i.
Proof.
  unfold cleanup_iteration, iteration_outcome, signal_at, cancelled_at,
    iteration_raises, iteration_events.
  unfold_steps. cbn -[cleanup_interval].
  destruct (sleep_outcome cw i) as [[]|[e| |sg]]; cbn -[cleanup_interval];
    try (destruct (cleanup_expired_tokens cw i) as [u|[e| |sg]];
         cbn -[cleanup_interval]);
    eexists; (split; [reflexivity|]); cbn -[cleanup_interval];
    rewrite <- ?app_assoc; reflexivity.
Qed.

(** A cancelled iteration writes no error line. *)
Lemma cancelled_iteration_is_silent (cw : cleanup_world) (i : nat) :
  cancelled_at cw i = true -> error_log (iteration_events cw i) = [].
Proof.
  unfold cancelled_at, iteration_raises, iteration_events.
  destruct (sleep_outcome cw i) as [[]|[e| |sg]];
    try (destruct (cleanup_expired_tokens cw i) as [u|[e| |sg]]); simpl;
    intros H; try discriminate; reflexivity.
Qed.

(** Nor does an iteration that raises an exit signal. *)
Lemma signal_iteration_is_silent (cw : cleanup_world) (i : nat)
    (s : exit_signal) :
  signal_at cw i = Some s -> error_log (iteration_events cw i) = [].
Proof.
  unfold signal_at, iteration_raises, iteration_events.
  destruct (sleep_outcome cw i) as [[]|[e| |sg]];
    try (destruct (cleanup_expired_tokens cw i) as [u|[e| |sg]]); simpl;
    intros H; try discriminate; reflexivity.
Qed.

Lemma cancelled_no_signal (cw : cleanup_world) (i : nat) :
  cancelled_at cw i = true -> signal_at cw i = None.
Proof.
  unfold cancelled_at, signal_at.
  destruct (iteration_raises cw i) as [[e| |sg]|];
    intros H; try discriminate; reflexivity.
Qed.

Lemma ends_at_false (cw : cleanup_world) (i : nat) :
  ends_at cw i = false <-> cancelled_at cw i = false /\ signal_at cw i = None.
Proof.
  unfold ends_at. rewrite orb_false_iff.
  destruct (signal_at cw i); intuition congruence.
Qed.

Lemma iteration_goes_on (cw : cleanup_world) (i : nat) :
  ends_at cw i = false -> iteration_outcome cw i = Return Continue.
Proof.
  intros H. apply ends_at_false in H. destruct H as [Hc Hs].
  unfold iteration_outcome. rewrite Hs, Hc. reflexivity.
Qed.

Lemma iteration_cancelled (cw : cleanup_world) (i : nat) :
  cancelled_at cw i = true -> iteration_outcome cw i = Return Break.
Proof.
  intros H. unfold iteration_outcome.
  rewrite (cancelled_no_signal cw i H), H. reflexivity.
Qed.

Lemma iteration_exits (cw : cleanup_world) (i : nat) (s : exit_signal) :
  signal_at cw i = Some s -> iteration_outcome cw i = Raise (Signal s).
Proof. intros H. unfold iteration_outcome. rewrite H. reflexivity. Qed.

(** An iteration in which an instance of [Exception] is raised logs it, once,
    and goes on. *)
Lemma failed_iteration_logs (cw : cleanup_world) (i : nat) (e : exception) :
  iteration_raises cw i = Some (Exc e) ->
  error_log (iteration_events cw i) = [TokenCleanupError e] /\
  ends_at cw i = false.
Proof.
  unfold ends_at, cancelled_at, signal_at, iteration_events.
  intros H. rewrite H. split; [|reflexivity].
  unfold iteration_raises in H.
  destruct (sleep_outcome cw i) as [[]|r].
  - destruct (cleanup_expired_tokens cw i) as [u|r]; [discriminate|].
    inversion H; subst r. reflexivity.
  - inversion H; subst r. reflexivity.
Qed.

Lemma cleanup_loop_runs_on (cw : cleanup_world) (n : nat) :
  forall i st,
  (forall j, i <= j < i + n -> ends_at cw j = false) ->
  exists st',
    schedule_token_cleanup n cw i st = (Return Running, st') /\
    trace st' = trace st ++ flat_map (iteration_events cw) (seq i n).
Proof.
  induction n as [|n IH]; intros i st Hno.
  - exists st. simpl. rewrite app_nil_r. auto.
  - destruct (cleanup_iteration_run cw i st) as (st1 & Hrun & Htr).
    rewrite (iteration_goes_on cw i) in Hrun by (apply Hno; lia).
    destruct (IH (S i) st1) as (st2 & Hrun2 & Htr2).
    { intros j Hj. apply Hno. lia. }
    exists st2. cbn [schedule_token_cleanup]. unfold bind at 1.
    rewrite Hrun. split; [exact Hrun2|].
    rewrite Htr2, Htr. cbn [seq flat_map]. rewrite app_assoc. reflexivity.
Qed.

(** The loop ends in the first iteration that does not go on, with what that
    iteration ends in. *)
Lemma cleanup_loop_ends (cw : cleanup_world) (k : nat) :
  forall i st n,
  (forall j, i <= j < i + k -> ends_at cw j = false) ->
  ends_at cw (i + k) = true ->
  k < n ->
  exists st',
    schedule_token_cleanup n cw i st =
      (match iteration_outcome cw (i + k) with
       | Raise r => Raise r
       | Return _ => Return Finished
       end, st') /\
    trace st' = trace st ++ flat_map (iteration_events cw) (seq i (S k)).
Proof.
  induction k as [|k IH]; intros i st n Hno Hk Hlt.
  - destruct n as [|n]; [lia|].
    destruct (cleanup_iteration_run cw i st) as (st1 & Hrun & Htr).
    rewrite Nat.add_0_r in *.
    exists st1. cbn [schedule_token_cleanup]. unfold bind at 1.
    rewrite Hrun. split.
    + unfold ends_at in Hk. unfold iteration_outcome.
      destruct (signal_at cw i) as [s|]; [reflexivity|].
      rewrite orb_false_r in Hk. rewrite Hk. reflexivity.
    + rewrite Htr. cbn [seq flat_map]. rewrite app_nil_r. reflexivity.
  - destruct n as [|n]; [lia|].
    destruct (cleanup_iteration_run cw i st) as (st1 & Hrun & Htr).
    rewrite (iteration_goes_on cw i) in Hrun by (apply Hno; lia).
    destruct (IH (S i) st1 n) as (st2 & Hrun2 & Htr2).
    { intros j Hj. apply Hno. lia. }
    { replace (S i + k) with (i + S k) by lia. exact Hk. }
    { lia. }
    exists st2. cbn [schedule_token_cleanup]. unfold bind at 1.
    rewrite Hrun. split.
    + replace (i + S k) with (S i + k) by lia. exact Hrun2.
    + rewrite Htr2, Htr.
      change (seq i (S (S k))) with (i :: seq (S i) (S k)).
      cbn [flat_map]. rewrite app_assoc. reflexivity.
Qed.

(** The first iteration from [i] on that does not go on, if one of the [n]
    observed iterations does not. *)
Lemma first_end (cw : cleanup_world) (n : nat) :
  forall i,
  (forall j, i <= j < i + n -> ends_at cw j = false) \/
  exists k, k < n /\ ends_at cw (i + k) = true /\
            forall j, i <= j < i + k -> ends_at cw j = false.
Proof.
  induction n as [|n IH]; intros i.
  - left. intros j Hj. lia.
  - destruct (ends_at cw i) eqn:Hi.
    + right. exists 0. rewrite Nat.add_0_r.
      split; [lia|]. split; [exact Hi|]. intros j Hj. lia.
    + destruct (IH (S i)) as [Hno | (k & Hk & He & Hno)].
      * left. intros j Hj.
        destruct (Nat.eq_dec j i) as [->|Hne]; [exact Hi|]. apply Hno. lia.
      * right. exists (S k). split; [lia|].
        split; [replace (i + S k) with (S i + k) by lia; exact He|].
        intros j Hj.
        destruct (Nat.eq_dec j i) as [->|Hne]; [exact Hi|]. apply Hno. lia.
Qed.

(** What the observed loop ends in tells what its iterations did. *)
Lemma cleanup_loop_outcome (cw : cleanup_world) (n : nat) (st : state) :
  (fst (schedule_token_cleanup n cw 0 st) = Return Running <->
   forall i, i < n -> ends_at cw i = false) /\
  (fst (schedule_token_cleanup n cw 0 st) = Return Finished <->
   exists k, k < n /\ cancelled_at cw k = true /\
             forall i, i < k -> ends_at cw i = false) /\
  (forall r,
   fst (schedule_token_cleanup n cw 0 st) = Raise r <->
   exists k s, k < n /\ r = Signal s /\ signal_at cw k = Some s /\
               forall i, i < k -> ends_at cw i = false).
Proof.
  destruct (first_end cw n 0) as [Hno | (k & Hk & He & Hno)].
  - destruct (cleanup_loop_runs_on cw n 0 st Hno) as (st' & Hrun & _).
    rewrite Hrun. cbn [fst].
    assert (Hno' : forall i, i < n -> ends_at cw i = false)
      by (intros i Hi; apply Hno; lia).
    split; [|split].
    + split; [intros _; exact Hno' | reflexivity].
    + split; [discriminate|]. intros (k & Hk & Hc & _).
      pose proof (Hno' k Hk) as Hf. apply ends_at_false in Hf.
      destruct Hf as [Hf _]. congruence.
    + intros r. split; [discriminate|]. intros (k & s & Hk & _ & Hs & _).
      pose proof (Hno' k Hk) as Hf. apply ends_at_false in Hf.
      destruct Hf as [_ Hf]. congruence.
  - destruct (cleanup_loop_ends cw k 0 st n Hno He Hk) as (st' & Hrun & _).
    rewrite Hrun. cbn [fst]. cbn [Nat.add] in *.
    assert (Hno' : forall i, i < k -> ends_at cw i = false)
      by (intros i Hi; apply Hno; lia).
    assert (Hfirst : forall k', ends_at cw k' = true ->
                     (forall i, i < k' -> ends_at cw i = false) -> k' = k).
    { intros k' He' Hno''.
      destruct (Nat.lt_trichotomy k' k) as [Hlt|[Heq|Hgt]]; [|exact Heq|].
      - rewrite (Hno' k' Hlt) in He'. discriminate.
      - rewrite (Hno'' k Hgt) in He. discriminate. }
    unfold iteration_outcome.
    destruct (signal_at cw k) as [s|] eqn:Hs.
    + split; [|split].
      * split; [discriminate|]. intros H. rewrite (H k Hk) in He. discriminate.
      * split; [discriminate|]. intros (k' & Hk' & Hc & Hno'').
        assert (k' = k) as ->.
        { apply Hfirst; [|exact Hno'']. unfold ends_at. rewrite Hc. reflexivity. }
        rewrite (cancelled_no_signal cw k Hc) in Hs. discriminate.
      * intros r. split.
        -- intros Hr. inversion Hr; subst r. exists k, s. auto.
        -- intros (k' & s' & Hk' & -> & Hs' & Hno'').
           assert (k' = k) as ->.
           { apply Hfirst; [|exact Hno'']. unfold ends_at. rewrite Hs'.
             apply orb_true_r. }
           congruence.
    + assert (Hc : cancelled_at cw k = true).
      { unfold ends_at in He. rewrite Hs, orb_false_r in He. exact He. }
      split; [|split].
      * split; [discriminate|]. intros H. rewrite (H k Hk) in He. discriminate.
      * split; [|reflexivity]. intros _. exists k. auto.
      * intros r. split; [discriminate|].
        intros (k' & s' & Hk' & _ & Hs' & Hno'').
        assert (k' = k) as ->.
        { apply Hfirst; [|exact Hno'']. unfold ends_at. rewrite Hs'.
          apply orb_true_r. }
        congruence.
Qed.

(** C6.  The cleanup loop.  An iteration in which the sleep or
    [cleanup_expired_tokens()] raises an instance of [Exception] logs it and
    goes on; an iteration that receives a cancellation request ends the loop
    and logs nothing.  As long as no iteration is cancelled or raises an exit
    signal the loop is still running, having taken every iteration in turn,
    each one starting with its sleep of three hours.  When the first
    iteration that does not go on is a cancelled one the coroutine returns,
    having run the iterations up to it and no other, however long it is
    observed.  When it is one that raises an exit signal, which neither
    clause of lines 174-177 catches, the coroutine raises that signal, having
    run the iterations up to it and no other, and the signal is not logged.
    The loop ends in no other way: it is still running exactly when no
    observed iteration was cancelled or raised an exit signal, it returns
    exactly when the first iteration to end it was cancelled, and it raises
    exactly when that iteration raised an exit signal. *)
Theorem cleanup_loop_survives_errors (cw : cleanup_world) (st : state) :
  (forall i st0 e,
   sleep_outcome cw i = Return tt ->
   cleanup_expired_tokens cw i = Raise (Exc e) ->
   exists st1,
     cleanup_iteration cw i st0 = (Return Continue, st1) /\
     trace st1 =
       trace st0 ++ [Sleep cleanup_interval; Call_cleanup_expired_tokens;
                     LogError (TokenCleanupError e)]) /\
  (forall i st0 e,
   iteration_raises cw i = Some (Exc e) ->
   exists st1,
     cleanup_iteration cw i st0 = (Return Continue, st1) /\
     trace st1 = trace st0 ++ iteration_events cw i /\
     error_log (iteration_events cw i) = [TokenCleanupError e]) /\
  (forall i st0,
   cancelled_at cw i = true ->
   exists st1,
     cleanup_iteration cw i st0 = (Return Break, st1) /\
     trace st1 = trace st0 ++ iteration_events cw i /\
     error_log (iteration_events cw i) = []) /\
  (forall n,
   (forall i, i < n -> ends_at cw i = false) ->
   exists st',
     schedule_token_cleanup n cw 0 st = (Return Running, st') /\
     trace st' = trace st ++ flat_map (iteration_events cw) (seq 0 n)) /\
  (forall i, hd_error (iteration_events cw i) = Some (Sleep (3 * 3600))) /\
  (forall k n,
   (forall i, i < k -> ends_at cw i = false) ->
   cancelled_at cw k = true ->
   k < n ->
   exists st',
     schedule_token_cleanup n cw 0 st = (Return Finished, st') /\
     trace st' = trace st ++ flat_map (iteration_events cw) (seq 0 (S k))) /\
  (forall k n s,
   (forall i, i < k -> ends_at cw i = false) ->
   signal_at cw k = Some s ->
   k < n ->
   exists st',
     schedule_token_cleanup n cw 0 st = (Raise (Signal s), st') /\
     trace st' = trace st ++ flat_map (iteration_events cw) (seq 0 (S k)) /\
     error_log (iteration_events cw k) = []) /\
  (forall n,
   (fst (schedule_token_cleanup n cw 0 st) = Return Running <->
    forall i, i < n -> ends_at cw i = false) /\
   (fst (schedule_token_cleanup n cw 0 st) = Return Finished <->
    exists k, k < n /\ cancelled_at cw k = true /\
              forall i, i < k -> ends_at cw i = false) /\
   (forall r,
    fst (schedule_token_cleanup n cw 0 st) = Raise r <->
    exists k s, k < n /\ r = Signal s /\ signal_at cw k = Some s /\
                forall i, i < k -> ends_at cw i = false)).
Proof.
  assert (Hexc : forall i st0 e,
            iteration_raises cw i = Some (Exc e) ->
            exists st1,
              cleanup_iteration cw i st0 = (Return Continue, st1) /\
              trace st1 = trace st0 ++ iteration_events cw i /\
              error_log (iteration_events cw i) = [TokenCleanupError e]).
  { intros i st0 e He.
    destruct (failed_iteration_logs cw i e He) as [Hlog Hgo].
    destruct (cleanup_iteration_run cw i st0) as (st1 & Hrun & Htr).
    rewrite (iteration_goes_on cw i Hgo) in Hrun. exists st1. auto. }
  split; [|split; [|split; [|split; [|split; [|split; [|split]]]]]].
  - intros i st0 e Hs He.
    destruct (Hexc i st0 e) as (st1 & Hrun & Htr & _).
    { unfold iteration_raises. rewrite Hs, He. reflexivity. }
    exists st1. split; [exact Hrun|]. rewrite Htr.
    unfold iteration_events. rewrite Hs, He. reflexivity.
  - exact Hexc.
  - intros i st0 Hc.
    destruct (cleanup_iteration_run cw i st0) as (st1 & Hrun & Htr).
    rewrite (iteration_cancelled cw i Hc) in Hrun. exists st1.
    auto using cancelled_iteration_is_silent.
  - intros n Hno. apply cleanup_loop_runs_on. intros j Hj. apply Hno. lia.
  - intros i. reflexivity.
  - intros k n Hno Hk Hlt.
    destruct (cleanup_loop_ends cw k 0 st n) as (st' & Hrun & Htr).
    + intros j Hj. apply Hno. lia.
    + unfold ends_at. cbn [Nat.add]. rewrite Hk. reflexivity.
    + exact Hlt.
    + cbn [Nat.add] in Hrun. rewrite (iteration_cancelled cw k Hk) in Hrun.
      exists st'. auto.
  - intros k n s Hno Hs Hlt.
    destruct (cleanup_loop_ends cw k 0 st n) as (st' & Hrun & Htr).
    + intros j Hj. apply Hno. lia.
    + unfold ends_at. cbn [Nat.add]. rewrite Hs. apply orb_true_r.
    + exact Hlt.
    + cbn [Nat.add] in Hrun. rewrite (iteration_exits cw k s Hs) in Hrun.
      exists st'. split; [exact Hrun|]. split; [exact Htr|].
      exact (signal_iteration_is_silent cw k s Hs).
  - intros n. apply cleanup_loop_outcome.
Qed.

(** ** The scenarios *)

Example import_three_plugins :
  import_plugins three_plugins_world (initial_state None) =
    (Return 1,
     mkState
       [Stdout ImportingHeader;
        Call_spec_from_file_location "Thunder.bot.plugins.admin"
          "Thunder/bot/plugins/admin.py";
        Call_exec_module "Thunder.bot.plugins.admin";
        Call_spec_from_file_location "Thunder.bot.plugins.broken"
          "Thunder/bot/plugins/broken.py";
        LogError (InvalidPluginSpec "broken");
        Call_spec_from_file_location "Thunder.bot.plugins.stream"
          "Thunder/bot/plugins/stream.py";
        Call_exec_module "Thunder.bot.plugins.stream";
        LogError (FailedToImport "stream" (Error "ImportError"));
        Stdout (PluginTotals 3 1 2);
        Stdout (FailedPlugins ["broken"; "stream"])]
       None None
       ["Thunder.bot.plugins.admin"; "Thunder.bot.plugins.stream"] 0 0 0).
Proof. vm_compute. reflexivity. Qed.

(** C2, the claim as stated, fails: of two plugin files the first calls
    [sys.exit(3)] while it executes; it is one of [N = 2] files of which
    [K = 1] fails to load, yet the pass does not complete: [import_plugins]
    raises, and the second file is never tried. *)
Lemma plugin_exit_aborts_pass :
  ~ (List.length (glob exiting_plugin_world) = 2 ->
     failing exiting_plugin_world (glob exiting_plugin_world) =
       ["Thunder/bot/plugins/exits.py"] ->
     exec_module exiting_plugin_world "Thunder.bot.plugins.exits" =
       Threw (Signal (SystemExit 3)) ->
     fst (import_plugins exiting_plugin_world (initial_state None)) =
       Return 1 /\
     In "Thunder/bot/plugins/admin.py"
        (attempted (trace (snd (import_plugins exiting_plugin_world
                                  (initial_state None)))))).
Proof.
  intros H. destruct (H eq_refl eq_refl eq_refl) as [Hret _].
  vm_compute in Hret. discriminate Hret.
Qed.

Example plugin_exit_run :
  import_plugins exiting_plugin_world (initial_state None) =
    (Raise (Signal (SystemExit 3)),
     mkState
       [Stdout ImportingHeader;
        Call_spec_from_file_location "Thunder.bot.plugins.exits"
          "Thunder/bot/plugins/exits.py";
        Call_exec_module "Thunder.bot.plugins.exits"]
       None None ["Thunder.bot.plugins.exits"] 0 0 0).
Proof. vm_compute. reflexivity. Qed.

(** C6, the claim as stated, fails: no iteration is ever cancelled, the
    first cleanup raises an exception and the second one an exit signal;
    the loop is not running any more after it, and the signal was not
    logged. *)
Lemma exit_signal_ends_cleanup_loop :
  ~ ((forall i, cancelled_at exit_in_cleanup i = false) ->
     cleanup_expired_tokens exit_in_cleanup 1 =
       Raise (Signal (SystemExit 1)) ->
     fst (schedule_token_cleanup 3 exit_in_cleanup 0 (initial_state None)) =
       Return Running /\
     List.length
       (error_log
          (trace (snd (schedule_token_cleanup 3 exit_in_cleanup 0
                         (initial_state None))))) = 2).
Proof.
  intros H.
  assert (Hno : forall i, cancelled_at exit_in_cleanup i = false).
  { intros i. unfold cancelled_at. simpl.
    destruct i as [|[|i]]; reflexivity. }
  destruct (H Hno eq_refl) as [Hrun _].
  vm_compute in Hrun. discriminate Hrun.
Qed.

Example exit_in_cleanup_run :
  schedule_token_cleanup 3 exit_in_cleanup 0 (initial_state None) =
    (Raise (Signal (SystemExit 1)),
     mkState
       [Sleep cleanup_interval; Call_cleanup_expired_tokens;
        LogError (TokenCleanupError (Error "database unreachable"));
        Sleep cleanup_interval; Call_cleanup_expired_tokens]
       None None [] 0 0 0).
Proof. vm_compute. reflexivity. Qed.

Example calm_run :
  trace (snd (start_services calm_world (initial_state None))) =
    [Stdout Banner; Stdout InitializingHeader; Call_start; Call_get_me;
     Stdout (BotInitialized "ThunderBot"); Call_set_commands;
     Call_get_restart_message; Call_initialize_clients;
     Stdout ImportingHeader; Stdout NoPluginsFound;
     CreateTask request_executor_task; CreateTask keepalive_task;
     CreateTask token_cleanup_task; Call_web_server; Call_runner_setup;
     Call_site_start; Stdout RunningOn; Stdout StartupTime; Call_idle;
     Cancel request_executor_task; Cancel keepalive_task;
     Cancel token_cleanup_task; Call_cleanup_clients;
     Call_rate_limiter_shutdown; Call_runner_cleanup].
Proof. vm_compute. reflexivity. Qed.


Example registration_failure_run :
  start_services registration_fails_world (initial_state None) =
    (Return tt,
     mkState
       [Stdout Banner; Stdout InitializingHeader; Call_start; Sleep 5;
        Call_start; Call_get_me; Stdout (BotInitialized "ThunderBot");
        Call_set_commands;
        LogError (BotInitFailed (Error "commands rejected"))]
       None (Some "ThunderBot") [] 2 1 0).
Proof. vm_compute. reflexivity. Qed.

(** C4, the claim as stated, fails: when the client release raises, the
    limiter is not shut down and the listener is not torn down. *)
Lemma failed_release_skips_later_steps :
  ~ (cleanup_clients release_fails_world =
       Raise (Exc (Error "client pool closed")) ->
     In Call_rate_limiter_shutdown
        (trace (snd (start_services release_fails_world (initial_state None))))
     /\
     In Call_runner_cleanup
        (trace (snd (start_services release_fails_world (initial_state None))))).
Proof.
  intros H. destruct (H eq_refl) as [Hin _].
  vm_compute in Hin.
  repeat match goal with
         | H : _ \/ _ |- _ => destruct H
         end;
    try discriminate; contradiction.
Qed.

Example failed_release_run :
  start_services release_fails_world (initial_state None) =
    (Raise (Exc (Error "client pool closed")),
     mkState
       [Stdout Banner; Stdout InitializingHeader; Call_start; Call_get_me;
        Stdout (BotInitialized "ThunderBot"); Call_set_commands;
        Call_get_restart_message; Call_initialize_clients;
        Stdout ImportingHeader; Stdout NoPluginsFound;
        CreateTask request_executor_task; CreateTask keepalive_task;
        CreateTask token_cleanup_task; Call_web_server; Call_runner_setup;
        Call_site_start; Stdout RunningOn; Stdout StartupTime; Call_idle;
        Cancel request_executor_task; Cancel keepalive_task;
        Cancel token_cleanup_task; Call_cleanup_clients]
       None (Some "ThunderBot") [] 1 1 0).
Proof. vm_compute. reflexivity. Qed.

(** ** The theorems at the scenarios *)

Lemma import_plugins_isolates_failures_witness :
  (first_escape three_plugins_world (glob three_plugins_world) = None /\
   exists st',
     import_plugins three_plugins_world (initial_state None) =
       (Return 1, st')) /\
  (first_escape exiting_plugin_world (glob exiting_plugin_world) =
     Some (Signal (SystemExit 3)) /\
   exists st' evs,
     import_plugins exiting_plugin_world (initial_state None) =
       (Raise (Signal (SystemExit 3)), st') /\
     trace st' = evs /\
     stdout evs = [ImportingHeader]).
Proof.
  split.
  - split; [reflexivity|].
    destruct (proj1 (import_plugins_isolates_failures three_plugins_world
                       (initial_state None)) eq_refl)
      as (st' & evs & Hrun & _).
    exists st'. exact Hrun.
  - split; [reflexivity|].
    destruct (proj2 (import_plugins_isolates_failures exiting_plugin_world
                       (initial_state None))
                    (Signal (SystemExit 3)) eq_refl)
      as (st' & evs & before & f & after & Hrun & Htr & _ & _ & _ & _ & _ & _
          & Hout).
    exists st', evs. split; [exact Hrun|]. split; [exact Htr|]. exact Hout.
Defined.


Lemma single_retry_on_rate_limit_witness :
  (StreamBot_start connect_retry_world 0 = Raise (Exc (FloodWait 5)) /\
   StreamBot_start connect_retry_world 1 = Return tt /\
   exists rest,
     trace (snd (start_services connect_retry_world (initial_state None))) =
       [Stdout Banner; Stdout InitializingHeader;
        Call_start; Sleep 5; Call_start; Call_get_me] ++ rest) /\
  (StreamBot_start connect_flood_world 0 = Raise (Exc (FloodWait 5)) /\
   StreamBot_start connect_flood_world 1 = Raise (Exc (FloodWait 5)) /\
   exists st',
     startup_sequencer connect_flood_world (headers_printed None) =
       (Return (Failed (FloodWait 5)), st') /\
     start_services connect_flood_world (initial_state None) =
       (Return tt, st') /\
     trace st' =
       [Stdout Banner; Stdout InitializingHeader;
        Call_start; Sleep 5; Call_start;
        LogError (BotInitFailed (FloodWait 5))]) /\
  (StreamBot_start fetch_retry_world 0 = Return tt /\
   StreamBot_get_me fetch_retry_world 0 = Raise (Exc (FloodWait 7)) /\
   StreamBot_get_me fetch_retry_world 1 = Return (mkBotInfo "ThunderBot") /\
   exists rest,
     trace (snd (start_services fetch_retry_world (initial_state None))) =
       [Stdout Banner; Stdout InitializingHeader;
        Call_start; Call_get_me; Sleep 7; Call_get_me;
        Stdout (BotInitialized "ThunderBot"); Call_set_commands] ++ rest) /\
  (StreamBot_start fetch_flood_world 0 = Return tt /\
   StreamBot_get_me fetch_flood_world 0 = Raise (Exc (FloodWait 7)) /\
   StreamBot_get_me fetch_flood_world 1 = Raise (Exc (FloodWait 7)) /\
   exists st',
     startup_sequencer fetch_flood_world (headers_printed None) =
       (Return (Failed (FloodWait 7)), st') /\
     start_services fetch_flood_world (initial_state None) =
       (Return tt, st') /\
     trace st' =
       [Stdout Banner; Stdout InitializingHeader;
        Call_start; Call_get_me; Sleep 7; Call_get_me;
        LogError (BotInitFailed (FloodWait 7))]).
Proof.
  split; [|split; [|split]].
  - split; [reflexivity|]. split; [reflexivity|].
    apply (proj1 (single_retry_on_rate_limit connect_retry_world None 5));
      reflexivity.
  - split; [reflexivity|]. split; [reflexivity|].
    apply (proj1 (proj2 (single_retry_on_rate_limit connect_flood_world None 5)));
      reflexivity.
  - split; [reflexivity|]. split; [reflexivity|]. split; [reflexivity|].
    apply (proj1 (proj2 (proj2
             (single_retry_on_rate_limit fetch_retry_world None 7)))
             (mkBotInfo "ThunderBot"));
      reflexivity.
  - split; [reflexivity|]. split; [reflexivity|]. split; [reflexivity|].
    apply (proj2 (proj2 (proj2
             (single_retry_on_rate_limit fetch_flood_world None 7))));
      reflexivity.
Defined.

Lemma teardown_stops_at_first_failure_witness :
  cleanup_clients release_fails_world =
    Raise (Exc (Error "client pool closed")) /\
  trace (snd (run_until_terminated release_fails_world (initial_state None))) =
    [Call_idle; Cancel request_executor_task; Cancel keepalive_task;
     Cancel token_cleanup_task; Call_cleanup_clients] /\
  fst (teardown release_fails_world (initial_state None)) =
    Raise (Exc (Error "client pool closed")).
Proof.
  split; [reflexivity|]. split.
  - exact (proj1 (teardown_stops_at_first_failure release_fails_world
                    (initial_state None))).
  - apply (proj1 (proj2 (proj2 (proj2 (proj2
             (teardown_stops_at_first_failure release_fails_world
                (initial_state None))))))).
    reflexivity.
Defined.


Lemma cleanup_loop_survives_errors_witness :
  (sleep_outcome three_faults_then_cancel 0 = Return tt /\
   cleanup_expired_tokens three_faults_then_cancel 0 =
     Raise (Exc (Error "database unreachable")) /\
   exists st1,
     cleanup_iteration three_faults_then_cancel 0 (initial_state None) =
       (Return Continue, st1) /\
     trace st1 =
       [Sleep cleanup_interval; Call_cleanup_expired_tokens;
        LogError (TokenCleanupError (Error "database unreachable"))]) /\
  ((forall i, i < 4 -> ends_at three_faults_then_cancel i = false) /\
   exists st',
     schedule_token_cleanup 4 three_faults_then_cancel 0 (initial_state None) =
       (Return Running, st') /\
     trace st' =
       flat_map (iteration_events three_faults_then_cancel) (seq 0 4)) /\
  (cancelled_at three_faults_then_cancel 4 = true /\
   4 < 10 /\
   exists st',
     schedule_token_cleanup 10 three_faults_then_cancel 0 (initial_state None) =
       (Return Finished, st') /\
     trace st' =
       flat_map (iteration_events three_faults_then_cancel) (seq 0 5)) /\
  ((forall i, i < 1 -> ends_at exit_in_cleanup i = false) /\
   signal_at exit_in_cleanup 1 = Some (SystemExit 1) /\
   1 < 10 /\
   exists st',
     schedule_token_cleanup 10 exit_in_cleanup 0 (initial_state None) =
       (Raise (Signal (SystemExit 1)), st') /\
     trace st' = flat_map (iteration_events exit_in_cleanup) (seq 0 2) /\
     error_log (iteration_events exit_in_cleanup 1) = []).
Proof.
  assert (Hno : forall i, i < 4 -> ends_at three_faults_then_cancel i = false).
  { intros i Hi. do 4 (destruct i as [|i]; [reflexivity|]). lia. }
  assert (Hno' : forall i, i < 1 -> ends_at exit_in_cleanup i = false).
  { intros i Hi. destruct i as [|i]; [reflexivity|]. lia. }
  destruct (cleanup_loop_survives_errors three_faults_then_cancel
              (initial_state None)) as (H1 & _ & _ & H3 & _ & H5 & _).
  split; [|split; [|split]].
  - split; [reflexivity|]. split; [reflexivity|].
    exact (H1 0 (initial_state None) (Error "database unreachable")
              eq_refl eq_refl).
  - split; [exact Hno|]. exact (H3 4 Hno).
  - split; [reflexivity|]. split; [lia|].
    exact (H5 4 10 Hno eq_refl ltac:(lia)).
  - split; [exact Hno'|]. split; [reflexivity|]. split; [lia|].
    destruct (cleanup_loop_survives_errors exit_in_cleanup
                (initial_state None)) as (_ & _ & _ & _ & _ & _ & H6 & _).
    exact (H6 1 10 (SystemExit 1) Hno' eq_refl ltac:(lia)).
Defined.

Example cleanup_loop_run :
  trace (snd (schedule_token_cleanup 10 three_faults_then_cancel 0
                (initial_state None))) =
    [Sleep cleanup_interval; Call_cleanup_expired_tokens;
     LogError (TokenCleanupError (Error "database unreachable"));
     Sleep cleanup_interval; Call_cleanup_expired_tokens;
     LogError (TokenCleanupError (Error "database unreachable"));
     Sleep cleanup_interval; Call_cleanup_expired_tokens;
     LogError (TokenCleanupError (Error "database unreachable"));
     Sleep cleanup_interval; Call_cleanup_expired_tokens;
     Sleep cleanup_interval].
Proof. vm_compute. reflexivity. Qed.

Lemma restart_notice_resolution_witness :
  (connect calm_world (headers_printed (Some sample_notice)) =
     (Return tt, connected calm_world (Some sample_notice)) /\
   fetch_identity calm_world (connected calm_world (Some sample_notice)) =
     (Return (mkBotInfo "ThunderBot"), fetched calm_world (Some sample_notice)) /\
   set_commands calm_world = Return tt /\
   db_get_fault calm_world = None /\
   StreamBot_edit_message_text calm_world 0 = Return tt /\
   db_delete_fault calm_world = None /\
   fst (startup_sequencer calm_world (headers_printed (Some sample_notice))) =
     Return Ready /\
   stored_notice
     (snd (start_services calm_world (initial_state (Some sample_notice)))) =
     None) /\
  (connect calm_world (headers_printed None) =
     (Return tt, connected calm_world None) /\
   fetch_identity calm_world (connected calm_world None) =
     (Return (mkBotInfo "ThunderBot"), fetched calm_world None) /\
   startup_sequencer calm_world (headers_printed None) =
     (Return Ready,
      advanced [Call_get_restart_message] None 0
        (identified (mkBotInfo "ThunderBot") (fetched calm_world None)))).
Proof.
  split.
  - do 6 (split; [reflexivity|]).
    destruct (restart_notice_resolution calm_world (Some sample_notice)
                (mkBotInfo "ThunderBot")
                (connected calm_world (Some sample_notice))
                (fetched calm_world (Some sample_notice))
                eq_refl eq_refl eq_refl eq_refl) as [Hsome _].
    destruct (Hsome sample_notice eq_refl eq_refl) as [_ Hdel].
    destruct (Hdel eq_refl) as (Hseq & _ & Hend).
    split; [rewrite Hseq; reflexivity | exact Hend].
  - do 2 (split; [reflexivity|]).
    destruct (restart_notice_resolution calm_world None
                (mkBotInfo "ThunderBot")
                (connected calm_world None) (fetched calm_world None)
                eq_refl eq_refl eq_refl eq_refl) as [_ Hnone].
    exact (proj1 (Hnone eq_refl)).
Defined.

Lemma rate_limited_edit_is_not_retried_witness :
  connect edit_flood_world (headers_printed (Some sample_notice)) =
    (Return tt, connected edit_flood_world (Some sample_notice)) /\
  fetch_identity edit_flood_world
                 (connected edit_flood_world (Some sample_notice)) =
    (Return (mkBotInfo "ThunderBot"),
     fetched edit_flood_world (Some sample_notice)) /\
  set_commands edit_flood_world = Return tt /\
  db_get_fault edit_flood_world = None /\
  StreamBot_edit_message_text edit_flood_world 0 = Raise (Exc (FloodWait 9)) /\
  startup_sequencer edit_flood_world (headers_printed (Some sample_notice)) =
    (Return Ready,
     advanced [Call_get_restart_message; Call_edit_message_text 1001 42;
               Sleep 9]
              (Some sample_notice) 1
              (identified (mkBotInfo "ThunderBot")
                 (fetched edit_flood_world (Some sample_notice)))) /\
  In Call_site_start
     (trace (snd (start_services edit_flood_world
                    (initial_state (Some sample_notice))))).
Proof.
  do 5 (split; [reflexivity|]).
  destruct (rate_limited_edit_is_not_retried edit_flood_world sample_notice
              (mkBotInfo "ThunderBot")
              (connected edit_flood_world (Some sample_notice))
              (fetched edit_flood_world (Some sample_notice)) 9
              eq_refl eq_refl eq_refl eq_refl eq_refl)
    as (Hseq & _ & _ & _ & Hlisten).
  split; [exact Hseq|].
  exact (proj1 (Hlisten eq_refl eq_refl eq_refl eq_refl eq_refl)).
Defined.

Lemma failed_startup_serves_nothing_witness :
  startup_sequencer connect_flood_world (headers_printed None) =
    (Return (Failed (FloodWait 5)),
     mkState [Stdout Banner; Stdout InitializingHeader;
              Call_start; Sleep 5; Call_start;
              LogError (BotInitFailed (FloodWait 5))] None None [] 2 0 0) /\
  start_services connect_flood_world (initial_state None) =
    (Return tt,
     mkState [Stdout Banner; Stdout InitializingHeader;
              Call_start; Sleep 5; Call_start;
              LogError (BotInitFailed (FloodWait 5))] None None [] 2 0 0).
Proof.
  split; [reflexivity|].
  exact (proj1 (failed_startup_serves_nothing connect_flood_world None
                  (FloodWait 5) _ eq_refl)).
Defined.

Lemma failed_edit_keeps_notice_witness :
  connect edit_unchanged_world (headers_printed (Some sample_notice)) =
    (Return tt, connected edit_unchanged_world (Some sample_notice)) /\
  fetch_identity edit_unchanged_world
                 (connected edit_unchanged_world (Some sample_notice)) =
    (Return (mkBotInfo "ThunderBot"),
     fetched edit_unchanged_world (Some sample_notice)) /\
  set_commands edit_unchanged_world = Return tt /\
  db_get_fault edit_unchanged_world = None /\
  StreamBot_edit_message_text edit_unchanged_world 0 =
    Raise (Exc MessageNotModified) /\
  startup_sequencer edit_unchanged_world (headers_printed (Some sample_notice)) =
    (Return Ready,
     advanced [Call_get_restart_message; Call_edit_message_text 1001 42]
              (Some sample_notice) 1
              (identified (mkBotInfo "ThunderBot")
                 (fetched edit_unchanged_world (Some sample_notice)))) /\
  stored_notice
    (snd (start_services edit_unchanged_world
            (initial_state (Some sample_notice)))) = Some sample_notice.
Proof.
  do 5 (split; [reflexivity|]).
  destruct (failed_edit_keeps_notice edit_unchanged_world sample_notice
              (mkBotInfo "ThunderBot")
              (connected edit_unchanged_world (Some sample_notice))
              (fetched edit_unchanged_world (Some sample_notice))
              eq_refl eq_refl eq_refl eq_refl) as (Hunchanged & _ & _).
  destruct (Hunchanged eq_refl) as (Hseq & _ & Hend).
  split; [exact Hseq | exact Hend].
Defined.

(** * Further properties *)

(** ** Counting the events of a kind *)

Lemma count_events_app (f : event -> bool) (a b : list event) :
  count_events f (a ++ b) = count_events f a + count_events f b.
Proof. unfold count_events. rewrite filter_app, length_app. reflexivity. Qed.

Section Within.

Variable f : event -> bool.

Lemma within_weaken {A} (b b' : nat) (m : M A) :
  b <= b' -> within f b m -> within f b' m.
Proof.
  intros Hle Hm st. destruct (Hm st) as (evs & Htr & Hc).
  exists evs. split; [exact Htr | lia].
Qed.

Lemma within_ret {A} (a : A) : within f 0 (ret a).
Proof. intro st; exists []; simpl; rewrite app_nil_r; auto. Qed.

Lemma within_emit (e : event) : within f (if f e then 1 else 0) (emit e).
Proof.
  intro st; exists [e]; simpl. split; [reflexivity|].
  unfold count_events. simpl. destruct (f e); simpl; lia.
Qed.

Lemma within_bind {A B} (b1 b2 : nat) (m : M A) (k : A -> M B) :
  within f b1 m -> (forall a, within f b2 (k a)) -> within f (b1 + b2) (bind m k).
Proof.
  intros Hm Hk st. unfold bind.
  destruct (Hm st) as (evs & Htr & Hc).
  destruct (m st) as [[a|r] st1]; simpl in *.
  - destruct (Hk a st1) as (evs' & Htr' & Hc').
    exists (evs ++ evs'). rewrite Htr', Htr, app_assoc, count_events_app.
    split; [reflexivity | lia].
  - exists evs. split; [exact Htr | lia].
Qed.

Lemma within_try_except {A} (b1 b2 : nat) (m : M A) (h : handler A) :
  within f b1 m -> handler_within f b2 h -> within f (b1 + b2) (try_except m h).
Proof.
  intros Hm Hh st. unfold try_except.
  destruct (Hm st) as (evs & Htr & Hc).
  destruct (m st) as [[a|r] st1]; simpl in *.
  - exists evs. split; [exact Htr | lia].
  - destruct (h r) as [k|] eqn:Hr; simpl.
    + destruct (Hh r k Hr st1) as (evs' & Htr' & Hc').
      exists (evs ++ evs'). rewrite Htr', Htr, app_assoc, count_events_app.
      split; [reflexivity | lia].
    + exists evs. split; [exact Htr | lia].
Qed.

Lemma within_await {A} (e : event) (o : outcome A) :
  within f (if f e then 1 else 0) (await e o).
Proof.
  intro st. exists [e]. unfold await, bind, emit. simpl.
  split; [reflexivity|]. unfold count_events. simpl. destruct (f e); simpl; lia.
Qed.

Lemma within_set_username (name : string) : within f 0 (set_username name).
Proof. intro st; exists []; simpl; rewrite app_nil_r; auto. Qed.

Lemma within_StreamBot_start (w : world) :
  within f (if f Call_start then 1 else 0) (StreamBot_start_ w).
Proof.
  intro st. unfold StreamBot_start_.
  match goal with
  | |- context [await ?e ?o ?s] => destruct (within_await e o s) as (evs & Htr & Hc)
  end.
  exists evs. auto.
Qed.

Lemma within_StreamBot_get_me (w : world) :
  within f (if f Call_get_me then 1 else 0) (StreamBot_get_me_ w).
Proof.
  intro st. unfold StreamBot_get_me_.
  match goal with
  | |- context [await ?e ?o ?s] => destruct (within_await e o s) as (evs & Htr & Hc)
  end.
  exists evs. auto.
Qed.

Lemma within_StreamBot_edit_message_text (w : world) (c m : nat) :
  within f (if f (Call_edit_message_text c m) then 1 else 0)
         (StreamBot_edit_message_text_ w c m).
Proof.
  intro st. unfold StreamBot_edit_message_text_.
  match goal with
  | |- context [await ?e ?o ?s] => destruct (within_await e o s) as (evs & Htr & Hc)
  end.
  exists evs. auto.
Qed.

Lemma within_db_get_restart_message (w : world) :
  within f (if f Call_get_restart_message then 1 else 0)
         (db_get_restart_message w).
Proof.
  intro st. exists [Call_get_restart_message].
  unfold db_get_restart_message, bind, emit.
  destruct (db_get_fault w); simpl; (split; [reflexivity|]);
    unfold count_events; simpl;
    destruct (f Call_get_restart_message); simpl; lia.
Qed.

Lemma within_db_delete_restart_message (w : world) (m : nat) :
  within f (if f (Call_delete_restart_message m) then 1 else 0)
         (db_delete_restart_message w m).
Proof.
  intro st. exists [Call_delete_restart_message m].
  unfold db_delete_restart_message, bind, emit.
  destruct (db_delete_fault w); simpl; (split; [reflexivity|]);
    unfold count_events; simpl;
    destruct (f (Call_delete_restart_message m)); simpl; lia.
Qed.

Lemma handler_within_FloodWait {A} (b : nat) (k : nat -> M A) :
  (forall v, within f b (k v)) -> handler_within f b (except_FloodWait k).
Proof.
  intros Hk r k' Hr. destruct r as [[v| |msg]| |sg]; inversion Hr; subst; apply Hk.
Qed.

Lemma handler_within_MessageNotModified {A} (b : nat) (k : M A) :
  within f b k -> handler_within f b (except_MessageNotModified k).
Proof.
  intros Hk r k' Hr. destruct r as [[v| |msg]| |sg]; inversion Hr; subst; apply Hk.
Qed.

Lemma handler_within_Exception {A} (b : nat) (k : exception -> M A) :
  (forall e, within f b (k e)) -> handler_within f b (except_Exception k).
Proof.
  intros Hk r k' Hr. destruct r as [e| |sg]; inversion Hr; subst; apply Hk.
Qed.

(** Of two clauses one at most runs: the larger budget covers both. *)
Lemma handler_within_orelse {A} (b1 b2 : nat) (h1 h2 : handler A) :
  handler_within f b1 h1 -> handler_within f b2 h2 ->
  handler_within f (Nat.max b1 b2) (orelse h1 h2).
Proof.
  intros H1 H2 r k Hr. unfold orelse in Hr.
  destruct (h1 r) as [k1|] eqn:E1.
  - inversion Hr; subst.
    apply (within_weaken b1); [apply Nat.le_max_l | exact (H1 r k E1)].
  - apply (within_weaken b2); [apply Nat.le_max_r | exact (H2 r k Hr)].
Qed.

(** A program that emits no event of the kind at all. *)
Lemma within_of_emits {A} (P : event -> Prop) (m : M A) :
  (forall e, P e -> f e = false) -> emits P m -> within f 0 m.
Proof.
  intros HP Hm st. destruct (Hm st) as (evs & Htr & Hall & _).
  exists evs. split; [exact Htr|].
  unfold count_events. rewrite filter_none; [simpl; lia|].
  eapply Forall_impl; [|exact Hall]. exact HP.
Qed.

End Within.

(** ** How often [start_services] calls the provider *)

Lemma emits_serving (w : world) : emits serving_only (serve w).
Proof.
  unfold serve, run_until_terminated, teardown, supervised_tasks. simpl.
  assert (H : emits serving_only (launch w)).
  { apply (emits_weaken launch_only); [|apply emits_launch].
    unfold launch_only, serving_only, is_serving_step. intros e ->. reflexivity. }
  emits_tac.
Qed.

(** A primitive step: its budget, computed, is handed to the enclosing
    bound. *)
Ltac within_prim lem :=
  eapply within_weaken; [|simple apply lem]; cbv; apply Nat.le_refl.

Ltac within_step :=
  lazymatch goal with
  | |- forall _, _ => intro
  | |- handler_within _ _ (orelse _ _) => simple eapply handler_within_orelse
  | |- handler_within _ _ (except_FloodWait _) =>
      simple eapply handler_within_FloodWait
  | |- handler_within _ _ (except_MessageNotModified _) =>
      simple eapply handler_within_MessageNotModified
  | |- handler_within _ _ (except_Exception _) =>
      simple eapply handler_within_Exception
  | |- within _ _ (ret _) =>
      first [ simple apply within_ret
            | eapply within_weaken; [|simple apply within_ret];
              apply Nat.le_0_l ]
  | |- within _ _ (match ?x with _ => _ end) => destruct x
  | |- within _ _ (set_username _) => simple apply within_set_username
  | |- within _ _ (StreamBot_start_ _) => within_prim within_StreamBot_start
  | |- within _ _ (StreamBot_get_me_ _) => within_prim within_StreamBot_get_me
  | |- within _ _ (StreamBot_edit_message_text_ _ _ _) =>
      within_prim within_StreamBot_edit_message_text
  | |- within _ _ (db_get_restart_message _) =>
      within_prim within_db_get_restart_message
  | |- within _ _ (db_delete_restart_message _ _) =>
      within_prim within_db_delete_restart_message
  | |- within _ _ (emit _) => within_prim within_emit
  | |- within _ _ (await _ _) => within_prim within_await
  | |- within _ _ (bind _ _) => simple eapply within_bind
  | |- within _ _ (try_except _ _) => simple eapply within_try_except
  end.

(** A bound for the sequenced steps: the sum of what each step may emit. *)
Ltac within_startup :=
  unfold startup_steps, connect, fetch_identity, resolve_restart_notice,
    print, asyncio_sleep;
  eapply within_weaken; cycle 1;
  [ repeat within_step | cbv; lia ].

Lemma startup_steps_starts (w : world) : within is_start 2 (startup_steps w).
Proof. within_startup. Qed.

Lemma startup_steps_get_mes (w : world) : within is_get_me 2 (startup_steps w).
Proof. within_startup. Qed.

Lemma startup_steps_edits (w : world) : within is_edit 1 (startup_steps w).
Proof. within_startup. Qed.

Lemma startup_steps_deletes (w : world) : within is_db_delete 1 (startup_steps w).
Proof. within_startup. Qed.

Lemma startup_steps_sleeps (w : world) : within is_sleep 3 (startup_steps w).
Proof. within_startup. Qed.

Lemma startup_steps_registrations (w : world) :
  within is_set_commands 1 (startup_steps w).
Proof. within_startup. Qed.

(** Outside the sequenced steps [start_services] emits no event of a kind
    that neither the headers, nor the error line, nor the serving part
    hold. *)
Lemma within_start_services (f : event -> bool) (b : nat) (w : world) :
  f (Stdout Banner) = false ->
  f (Stdout InitializingHeader) = false ->
  (forall e, f (LogError (BotInitFailed e)) = false) ->
  (forall e, serving_only e -> f e = false) ->
  within f b (startup_steps w) ->
  within f b (start_services w).
Proof.
  intros Hb Hi Hl Hs Hsteps.
  pose proof (within_of_emits f serving_only (serve w) Hs (emits_serving w))
    as Hserve.
  assert (Hhead : within f 0 print_headers).
  { unfold print_headers, print.
    apply (within_weaken f ((if f (Stdout Banner) then 1 else 0) +
                            (if f (Stdout InitializingHeader) then 1 else 0)));
      [rewrite Hb, Hi; lia|].
    apply within_bind; [apply within_emit | intro; apply within_emit]. }
  assert (Hlog : forall e,
            within f 0 (logger_error (BotInitFailed e) ;; ret (Failed e))).
  { intro e. unfold logger_error.
    apply (within_weaken f ((if f (LogError (BotInitFailed e)) then 1 else 0) + 0));
      [rewrite Hl; lia|].
    apply within_bind; [apply within_emit | intro; apply within_ret]. }
  assert (Hseq : within f (b + 0 + 0) (startup_sequencer w)).
  { unfold startup_sequencer. apply within_try_except.
    - apply within_bind; [exact Hsteps | intro; apply within_ret].
    - apply handler_within_Exception. exact Hlog. }
  unfold start_services.
  apply (within_weaken f (0 + (b + 0 + 0 + 0))); [lia|].
  apply within_bind; [exact Hhead|]. intros _.
  apply within_bind; [exact Hseq|].
  intros [|e]; [exact Hserve | apply within_ret].
Qed.

Ltac not_serving :=
  let e := fresh "e" in
  intros e; unfold serving_only, is_serving_step;
  destruct e as [[]|[]| | | | | | | | | | | | | | | | | | | |];
  simpl; congruence.

Lemma within_initial (f : event -> bool) (b : nat) (w : world)
    (db : option notice) :
  within f b (start_services w) ->
  count_events f (trace (snd (start_services w (initial_state db)))) <= b.
Proof.
  intros H. destruct (H (initial_state db)) as (evs & Htr & Hc).
  simpl in Htr. rewrite Htr. exact Hc.
Qed.

(** X1.  Whatever the provider and the database answer, one run of
    [start_services] calls [StreamBot.start()] at most twice,
    [StreamBot.get_me()] at most twice, [set_commands()] at most once,
    [StreamBot.edit_message_text] at most once and
    [db.delete_restart_message] at most once, and it sleeps at most three
    times. *)
Theorem provider_calls_bounded (w : world) (db : option notice) :
  let tr := trace (snd (start_services w (initial_state db))) in
  count_events is_start tr <= 2 /\
  count_events is_get_me tr <= 2 /\
  count_events is_set_commands tr <= 1 /\
  count_events is_edit tr <= 1 /\
  count_events is_db_delete tr <= 1 /\
  count_events is_sleep tr <= 3.
Proof.
  cbv zeta. repeat split; apply within_initial; apply within_start_services;
    try reflexivity; try not_serving.
  - apply startup_steps_starts.
  - apply startup_steps_get_mes.
  - apply startup_steps_registrations.
  - apply startup_steps_edits.
  - apply startup_steps_deletes.
  - apply startup_steps_sleeps.
Qed.

(** ** The launch, in every world *)

Lemma emits_plugin_import_one (w : world) (f : string) (t : tally) :
  emits plugin_only (import_one w f t).
Proof. unfold import_one, logger_error. emits_tac. Qed.

Lemma emits_plugin_import_loop (w : world) (files : list string) :
  forall t, emits plugin_only (import_loop w files t).
Proof.
  induction files as [|f rest IH]; intro t; simpl.
  - apply emits_ret.
  - apply emits_bind; [apply emits_plugin_import_one | intro; apply IH].
Qed.

Lemma emits_plugin_import_plugins (w : world) :
  emits plugin_only (import_plugins w).
Proof.
  unfold import_plugins, print.
  pose proof (emits_plugin_import_loop w) as Hloop.
  destruct (glob w) as [|f rest]; emits_tac.
Qed.

(** The plugin pass adds plugin steps only; it returns, or raises what the
    first file that raises past the handler raised. *)
Lemma import_plugins_run (w : world) (st : state) :
  exists st' evs,
    import_plugins w st =
      (match first_escape w (glob w) with
       | Some r => Raise r
       | None =>
           Return (List.length (glob w) - List.length (failing w (glob w)))
       end, st') /\
    trace st' = trace st ++ evs /\
    Forall plugin_only evs.
Proof.
  destruct (import_plugins_spec w st) as (st' & evs & Hrun & Htr & _).
  destruct (emits_plugin_import_plugins w st) as (evs' & Htr' & Hall & _).
  rewrite Hrun in Htr'. simpl in Htr'. rewrite Htr in Htr'.
  apply app_inv_head in Htr'. subst evs'.
  exists st', evs. auto.
Qed.

Lemma emit_run (e : event) (st : state) :
  emit e st = (Return tt, emitted e st).
Proof. reflexivity. Qed.

Lemma await_run {A} (e : event) (o : outcome A) (st : state) :
  await e o st = (o, emitted e st).
Proof. reflexivity. Qed.

Lemma trace_emitted (e : event) (st : state) :
  trace (emitted e st) = trace st ++ [e].
Proof. reflexivity. Qed.

Lemma bind_emit {B} (e : event) (k : unit -> M B) (st : state) :
  bind (emit e) k st = k tt (emitted e st).
Proof. reflexivity. Qed.

Lemma bind_await {A B} (e : event) (o : outcome A) (k : A -> M B)
    (st : state) :
  bind (await e o) k st =
    match o with
    | Return a => k a (emitted e st)
    | Raise r => (Raise r, emitted e st)
    end.
Proof. unfold bind. rewrite await_run. reflexivity. Qed.

Lemma launch_run (w : world) (st : state) :
  exists st' plugin_evs,
    launch w st = (launch_outcome w, st') /\
    trace st' = trace st ++ launch_events w plugin_evs /\
    Forall plugin_only plugin_evs.
Proof.
  unfold launch, launch_outcome, launch_events, print.
  rewrite bind_await.
  destruct (initialize_clients w) as [u|r].
  - destruct (import_plugins_run w (emitted Call_initialize_clients st))
      as (st1 & evs & Hrun & Htr & Hall).
    unfold bind at 1. rewrite Hrun.
    destruct (first_escape w (glob w)) as [r0|].
    + exists st1, evs. split; [reflexivity|]. split; [|exact Hall].
      rewrite Htr, trace_emitted, app_nil_r, <- app_assoc. reflexivity.
    + unfold listener_outcome. rewrite !bind_emit, bind_await.
      destruct (web_server w) as [u1|r1].
      * rewrite bind_await. destruct (runner_setup w) as [u2|r2].
        -- rewrite bind_await. destruct (site_start w) as [u3|r3].
           ++ rewrite bind_emit, emit_run.
              eexists; exists evs. split; [reflexivity|]. split; [|exact Hall].
              rewrite !trace_emitted, Htr, trace_emitted. simpl.
              rewrite <- !app_assoc. reflexivity.
           ++ eexists; exists evs. split; [reflexivity|]. split; [|exact Hall].
              rewrite !trace_emitted, Htr, trace_emitted. simpl.
              rewrite <- !app_assoc. reflexivity.
        -- eexists; exists evs. split; [reflexivity|]. split; [|exact Hall].
           rewrite !trace_emitted, Htr, trace_emitted. simpl.
           rewrite <- !app_assoc. reflexivity.
      * eexists; exists evs. split; [reflexivity|]. split; [|exact Hall].
        rewrite !trace_emitted, Htr, trace_emitted. simpl.
        rewrite <- !app_assoc. reflexivity.
  - eexists; exists []. split; [reflexivity|].
    split; [rewrite trace_emitted; reflexivity | constructor].
Qed.

Lemma startup_before_shutdown (e : event) : startup_only e -> before_shutdown e.
Proof.
  intros H. split; [apply startup_not_teardown | apply startup_not_idle]; exact H.
Qed.

Lemma plugin_before_shutdown (e : event) : plugin_only e -> before_shutdown e.
Proof.
  unfold plugin_only, before_shutdown.
  destruct e; simpl; intros H; split; congruence.
Qed.

Lemma launch_events_before_shutdown (w : world) (pl : list event) :
  Forall plugin_only pl -> Forall before_shutdown (launch_events w pl).
Proof.
  intros Hpl. unfold launch_events.
  assert (Hb : forall e, is_teardown_call e = false -> e <> Call_idle ->
                         before_shutdown e) by (intros; split; assumption).
  assert (Hpl' : Forall before_shutdown pl)
    by (eapply Forall_impl; [|exact Hpl]; apply plugin_before_shutdown).
  destruct (initialize_clients w);
    [destruct (first_escape w (glob w));
     [|destruct (web_server w);
       [destruct (runner_setup w); [destruct (site_start w)|]|]]|];
    simpl;
    repeat first [ apply Forall_nil
                 | apply Forall_cons; [apply Hb; [reflexivity | discriminate]|]
                 | apply Forall_app; split; [exact Hpl'|] ].
Qed.

(** The trace of a sequencer that ended in [Ready] holds start-up steps
    only. *)
Lemma ready_trace (w : world) (db : option notice) (st1 : state) :
  startup_sequencer w (headers_printed db) = (Return Ready, st1) ->
  Forall startup_only (trace st1).
Proof.
  intros H.
  destruct (emits_startup_sequencer w (headers_printed db)) as (A & Htr & HA & _).
  rewrite H in Htr. simpl in Htr. rewrite Htr.
  repeat constructor. exact HA.
Qed.

(** Past [Ready], a launch that raises ends [start_services] there. *)
Lemma start_services_launch_raises (w : world) (db : option notice)
    (st1 : state) (r : raised) :
  startup_sequencer w (headers_printed db) = (Return Ready, st1) ->
  launch_outcome w = Raise r ->
  exists st' pl,
    start_services w (initial_state db) = (Raise r, st') /\
    trace st' = trace st1 ++ launch_events w pl /\
    Forall plugin_only pl.
Proof.
  intros Hseq Hout.
  rewrite (start_services_ready w db st1 Hseq).
  destruct (launch_run w st1) as (st' & pl & Hrun & Htr & Hpl).
  exists st', pl. unfold serve, bind. rewrite Hrun, Hout. auto.
Qed.

(** X2.  When [initialize_clients()] raises past [Ready], [start_services]
    raises the same exception at once: it writes no error line, loads no
    plugin, creates no task and tears nothing down. *)
Theorem clients_failure_escapes (w : world) (db : option notice)
    (st1 : state) (r : raised) :
  startup_sequencer w (headers_printed db) = (Return Ready, st1) ->
  initialize_clients w = Raise r ->
  exists st',
    start_services w (initial_state db) = (Raise r, st') /\
    trace st' = trace st1 ++ [Call_initialize_clients].
Proof.
  intros Hseq Hinit.
  destruct (start_services_launch_raises w db st1 r Hseq) as (st' & pl & Hrun & Htr & _).
  { unfold launch_outcome. rewrite Hinit. reflexivity. }
  exists st'. split; [exact Hrun|].
  rewrite Htr. unfold launch_events. rewrite Hinit. reflexivity.
Qed.

Lemma clients_failure_escapes_witness :
  startup_sequencer clients_fail_world (headers_printed None) =
    (Return Ready,
     snd (startup_sequencer clients_fail_world (headers_printed None))) /\
  initialize_clients clients_fail_world = Raise (Exc (Error "no session")) /\
  exists st',
    start_services clients_fail_world (initial_state None) =
      (Raise (Exc (Error "no session")), st') /\
    trace st' =
      trace (snd (startup_sequencer clients_fail_world (headers_printed None)))
      ++ [Call_initialize_clients].
Proof.
  split; [reflexivity|]. split; [reflexivity|].
  exact (clients_failure_escapes clients_fail_world None
           (snd (startup_sequencer clients_fail_world (headers_printed None)))
           (Exc (Error "no session")) eq_refl eq_refl).
Defined.

(** X3.  When the clients are initialised and the plugin pass has returned,
    but the web application, the runner set-up or the start of the site
    raises, [start_services] raises the same exception with the three
    background tasks created and left as they are: no cancellation is
    requested, the clients and the rate limiter are not released, and the
    wait for termination is never entered. *)
Theorem listener_failure_leaves_tasks (w : world) (db : option notice)
    (st1 : state) (r : raised) :
  startup_sequencer w (headers_printed db) = (Return Ready, st1) ->
  initialize_clients w = Return tt ->
  first_escape w (glob w) = None ->
  launch_outcome w = Raise r ->
  exists st',
    start_services w (initial_state db) = (Raise r, st') /\
    (forall t, In (CreateTask t) (trace st')) /\
    filter is_teardown_call (trace st') = [] /\
    ~ In Call_idle (trace st').
Proof.
  intros Hseq Hinit Hpass Hout.
  destruct (start_services_launch_raises w db st1 r Hseq Hout)
    as (st' & pl & Hrun & Htr & Hpl).
  exists st'. split; [exact Hrun|].
  assert (Hall : Forall before_shutdown (trace st')).
  { rewrite Htr. apply Forall_app. split.
    - eapply Forall_impl; [|exact (ready_trace w db st1 Hseq)].
      apply startup_before_shutdown.
    - apply launch_events_before_shutdown. exact Hpl. }
  split; [|split].
  - intros t. rewrite Htr. apply in_or_app. right.
    unfold launch_events. rewrite Hinit, Hpass. right.
    apply in_or_app. right. apply in_or_app. left.
    destruct t; simpl; auto.
  - apply filter_none. eapply Forall_impl; [|exact Hall].
    intros e [He _]. exact He.
  - intros Hin. rewrite Forall_forall in Hall.
    destruct (Hall _ Hin) as [_ Hne]. exact (Hne eq_refl).
Qed.

Lemma listener_failure_leaves_tasks_witness :
  startup_sequencer port_taken_world (headers_printed None) =
    (Return Ready,
     snd (startup_sequencer port_taken_world (headers_printed None))) /\
  initialize_clients port_taken_world = Return tt /\
  first_escape port_taken_world (glob port_taken_world) = None /\
  launch_outcome port_taken_world =
    Raise (Exc (Error "address already in use")) /\
  exists st',
    start_services port_taken_world (initial_state None) =
      (Raise (Exc (Error "address already in use")), st') /\
    (forall t, In (CreateTask t) (trace st')) /\
    filter is_teardown_call (trace st') = [] /\
    ~ In Call_idle (trace st').
Proof.
  split; [reflexivity|]. split; [reflexivity|]. split; [reflexivity|].
  split; [reflexivity|].
  exact (listener_failure_leaves_tasks port_taken_world None
           (snd (startup_sequencer port_taken_world (headers_printed None)))
           (Exc (Error "address already in use"))
           eq_refl eq_refl eq_refl eq_refl).
Defined.

(** X4.  What [start_services] raises at shutdown: the exception of the
    first teardown step that raises and, when all three return, whatever
    [idle()] raised, if anything.  So an exception of a teardown step
    replaces the one that ended the wait. *)
Theorem shutdown_outcome (w : world) (st : state) :
  fst (run_until_terminated w st) =
    match cleanup_clients w with
    | Raise r => Raise r
    | Return _ =>
        match rate_limiter_shutdown w with
        | Raise r => Raise r
        | Return _ =>
            match runner_cleanup w with
            | Raise r => Raise r
            | Return _ => idle w
            end
        end
    end.
Proof.
  unfold run_until_terminated, try_finally.
  destruct (await Call_idle (idle w) st) as [o st1] eqn:Hidle.
  assert (Ho : o = idle w).
  { unfold await, bind, emit in Hidle. simpl in Hidle.
    inversion Hidle; reflexivity. }
  pose proof (teardown_outcome w st1) as Htd.
  destruct (teardown w st1) as [[u|r] st2]; simpl in *.
  - destruct (cleanup_clients w); [|discriminate].
    destruct (rate_limiter_shutdown w); [|discriminate].
    rewrite <- Htd. exact Ho.
  - destruct (cleanup_clients w); [|exact Htd].
    destruct (rate_limiter_shutdown w); [|exact Htd].
    rewrite <- Htd. reflexivity.
Qed.

(** ** The order of the launch *)

Lemma not_in_of_forall {A} (P : A -> Prop) (l : list A) (x : A) :
  Forall P l -> ~ P x -> ~ In x l.
Proof.
  intros Hall Hx Hin. rewrite Forall_forall in Hall. exact (Hx (Hall x Hin)).
Qed.

Lemma startup_early (e : event) : startup_only e -> early_step e.
Proof.
  unfold startup_only, early_step. destruct e; simpl; intros H; split; congruence.
Qed.

Lemma plugin_early (e : event) : plugin_only e -> early_step e.
Proof.
  unfold plugin_only, early_step. destruct e; simpl; intros H; split; congruence.
Qed.

(** The whole trace of a run: start-up steps only, or start-up steps, then
    the launch, then, if the launch returned, the wait and the teardown. *)
Lemma start_services_launch_shape (w : world) (db : option notice) :
  Forall startup_only (trace (snd (start_services w (initial_state db)))) \/
  exists A pl C,
    trace (snd (start_services w (initial_state db))) =
      A ++ launch_events w pl ++ C /\
    Forall startup_only A /\
    Forall plugin_only pl /\
    (C = [] \/ C = Call_idle :: teardown_calls w).
Proof.
  rewrite start_services_run, print_headers_initial. cbn [snd].
  destruct (emits_startup_sequencer w (headers_printed db))
    as (A & Htr & HA & _).
  assert (Hst : forall st1,
            trace st1 = trace (headers_printed db) ++ A ->
            Forall startup_only (trace st1)).
  { intros st1 H. rewrite H. repeat constructor. exact HA. }
  destruct (startup_sequencer w (headers_printed db)) as [[[|e]|r] st1];
    cbn [snd] in Htr.
  - right. destruct (launch_run w st1) as (st2 & pl & Hrun & Htr2 & Hpl).
    unfold serve, bind. rewrite Hrun.
    destruct (launch_outcome w) as [u|r].
    + exists (trace st1), pl, (Call_idle :: teardown_calls w).
      rewrite run_until_terminated_trace, Htr2, <- app_assoc. auto.
    + exists (trace st1), pl, []. cbn [snd]. rewrite Htr2, app_nil_r. auto.
  - left. apply Hst. exact Htr.
  - left. apply Hst. exact Htr.
Qed.

Lemma teardown_calls_late (w : world) :
  Forall late_step (Call_idle :: teardown_calls w).
Proof.
  unfold teardown_calls.
  destruct (cleanup_clients w); [destruct (rate_limiter_shutdown w)|];
    simpl; repeat constructor.
Qed.

(** With the clients initialised and the plugin pass returning, the launch
    is: the plugin pass, the three tasks, then steps that are neither. *)
Lemma launch_events_split (w : world) (pl : list event) (u : unit) :
  initialize_clients w = Return u ->
  first_escape w (glob w) = None ->
  exists rest,
    launch_events w pl =
      Call_initialize_clients :: pl ++
      map CreateTask supervised_tasks ++ Call_web_server :: rest /\
    Forall late_step rest /\
    (In Call_site_start rest ->
     exists tail, rest = Call_runner_setup :: Call_site_start :: tail /\
                  ~ In Call_site_start tail).
Proof.
  intros Hinit Hpass. unfold launch_events. rewrite Hinit, Hpass.
  destruct (web_server w);
    [destruct (runner_setup w); [destruct (site_start w)|]|];
    eexists; (split; [reflexivity|]); (split; [repeat constructor|]);
    simpl; intros Hin;
    repeat match goal with
           | H : _ \/ _ |- _ => destruct H
           end;
    try discriminate; try contradiction;
    eexists; (split; [reflexivity|]); simpl; intuition discriminate.
Qed.

(** ** The phases of a run *)

Lemma in_phase_order_nil : in_phase_order [].
Proof. intros a x b H. destruct a; discriminate H. Qed.

Lemma in_phase_order_app (n : nat) (l1 l2 : list event) :
  in_phase_order l1 -> Forall (fun e => phase e <= n) l1 ->
  in_phase_order l2 -> Forall (fun e => n <= phase e) l2 ->
  in_phase_order (l1 ++ l2).
Proof.
  intros H1 B1 H2 B2 a x b Heq.
  apply app_eq_app in Heq. destruct Heq as (l & [[Ha Hb] | [Ha Hb]]).
  - (* l1 = a ++ l, x :: b = l ++ l2 *)
    destruct l as [|y l]; simpl in Hb.
    + rewrite <- Hb in H2. apply (H2 [] x b). reflexivity.
    + inversion Hb; subst y b. apply Forall_app. split.
      * apply (H1 a x l). exact Ha.
      * assert (Hx : phase x <= n).
        { rewrite Forall_forall in B1. apply B1. rewrite Ha. apply in_elt. }
        eapply Forall_impl; [|exact B2]. intros e He. unfold phase_le.
        cbv beta in He. lia.
  - (* a = l1 ++ l, l2 = l ++ x :: b *)
    apply (H2 l x b). exact Hb.
Qed.

Lemma in_phase_order_const (n : nat) (l : list event) :
  Forall (fun e => phase e = n) l -> in_phase_order l.
Proof.
  intros Hall a x b Heq. subst l.
  apply Forall_app in Hall. destruct Hall as [_ Hall].
  inversion Hall as [|y l' Hx Hb]; subst.
  eapply Forall_impl; [|exact Hb]. intros e He. unfold phase_le.
  cbv beta in *. lia.
Qed.

Lemma startup_phase (e : event) : startup_only e -> phase e = 0.
Proof. unfold startup_only, phase. intros ->. reflexivity. Qed.

Lemma plugin_phase (e : event) : plugin_only e -> phase e = 2.
Proof.
  unfold plugin_only, phase.
  destruct e as [[]|[]| | | | | | | | | | | | | | | | | | | |];
    simpl; congruence.
Qed.

Lemma teardown_in_phase_order (w : world) :
  in_phase_order (Call_idle :: teardown_calls w) /\
  Forall (fun e => 5 <= phase e) (Call_idle :: teardown_calls w).
Proof.
  split.
  - apply (in_phase_order_app 5 [Call_idle]).
    + apply (in_phase_order_const 5). repeat constructor.
    + repeat constructor.
    + apply (in_phase_order_const 6). unfold teardown_calls.
      destruct (cleanup_clients w); [destruct (rate_limiter_shutdown w)|];
        repeat constructor.
    + unfold teardown_calls.
      destruct (cleanup_clients w); [destruct (rate_limiter_shutdown w)|];
        repeat constructor.
  - unfold teardown_calls.
    destruct (cleanup_clients w); [destruct (rate_limiter_shutdown w)|];
      simpl; repeat constructor.
Qed.

Lemma launch_in_phase_order (w : world) (pl : list event) :
  Forall plugin_only pl ->
  in_phase_order (launch_events w pl) /\
  Forall (fun e => phase e <= 4) (launch_events w pl).
Proof.
  intros Hpl.
  assert (Hp2 : Forall (fun e => phase e = 2) pl)
    by (eapply Forall_impl; [|exact Hpl]; apply plugin_phase).
  assert (Hle : forall n, 2 <= n -> Forall (fun e => phase e <= n) pl).
  { intros n Hn. eapply Forall_impl; [|exact Hp2]. intros e He.
    cbv beta in He. lia. }
  assert (Hge : forall n, n <= 2 -> Forall (fun e => n <= phase e) pl).
  { intros n Hn. eapply Forall_impl; [|exact Hp2]. intros e He.
    cbv beta in He. lia. }
  unfold launch_events.
  destruct (initialize_clients w) as [u|r];
    [destruct (first_escape w (glob w)) as [r0|]|].
  - rewrite app_nil_r. split.
    + apply (in_phase_order_app 1 [Call_initialize_clients]).
      * apply (in_phase_order_const 1). repeat constructor.
      * repeat constructor.
      * apply (in_phase_order_const 2). exact Hp2.
      * apply Hge. lia.
    + constructor; [cbv; lia|]. apply Hle. lia.
  - split.
    + apply (in_phase_order_app 1 [Call_initialize_clients]).
      * apply (in_phase_order_const 1). repeat constructor.
      * repeat constructor.
      * apply (in_phase_order_app 2).
        -- apply (in_phase_order_const 2). exact Hp2.
        -- apply Hle. lia.
        -- apply (in_phase_order_app 3 (map CreateTask supervised_tasks)).
           ++ apply (in_phase_order_const 3). repeat constructor.
           ++ repeat constructor.
           ++ apply (in_phase_order_const 4).
              destruct (web_server w);
                [destruct (runner_setup w); [destruct (site_start w)|]|];
                repeat constructor.
           ++ destruct (web_server w);
                [destruct (runner_setup w); [destruct (site_start w)|]|];
                repeat constructor.
        -- simpl. 
           destruct (web_server w);
             [destruct (runner_setup w); [destruct (site_start w)|]|];
             repeat constructor.
      * apply Forall_app. split; [apply Hge; lia|].
        destruct (web_server w);
          [destruct (runner_setup w); [destruct (site_start w)|]|];
          simpl; repeat constructor.
    + constructor; [cbv; lia|].
      apply Forall_app. split; [apply Hle; lia|].
      destruct (web_server w);
        [destruct (runner_setup w); [destruct (site_start w)|]|];
        simpl; repeat constructor.
  - split.
    + apply (in_phase_order_const 1). repeat constructor.
    + repeat constructor.
Qed.

(** X5.  A run of [start_services] goes through its phases in order and never
    back: the sequenced start-up, the initialisation of the clients, the
    plugin pass, the creation of the three tasks, the listener, the wait for
    termination, the teardown.  Whatever the collaborators answer, a step is
    followed only by steps of its own or of a later phase; so no plugin is
    loaded once a task exists, and no task is created once the listener is
    being set up. *)
Theorem run_in_phase_order (w : world) (db : option notice) :
  in_phase_order (trace (snd (start_services w (initial_state db)))).
Proof.
  destruct (start_services_launch_shape w db)
    as [Hall | (A & pl & C & Htr & HA & Hpl & HC)].
  - apply (in_phase_order_const 0).
    eapply Forall_impl; [|exact Hall]. apply startup_phase.
  - rewrite Htr.
    destruct (launch_in_phase_order w pl Hpl) as [HL HL4].
    destruct (teardown_in_phase_order w) as [HT HT5].
    apply (in_phase_order_app 0).
    + apply (in_phase_order_const 0).
      eapply Forall_impl; [|exact HA]. apply startup_phase.
    + eapply Forall_impl; [|exact HA]. intros e He.
      rewrite (startup_phase e He). lia.
    + apply (in_phase_order_app 4); auto.
      * destruct HC as [-> | ->]; [apply in_phase_order_nil | exact HT].
      * destruct HC as [-> | ->]; [constructor|].
        eapply Forall_impl; [|exact HT5]. intros e He. cbv beta in He. lia.
    + apply Forall_forall. intros e _. lia.
Qed.

Lemma run_in_phase_order_witness :
  trace (snd (start_services three_plugins_world (initial_state None))) =
    [Stdout Banner; Stdout InitializingHeader; Call_start; Call_get_me;
     Stdout (BotInitialized "ThunderBot"); Call_set_commands;
     Call_get_restart_message; Call_initialize_clients;
     Stdout ImportingHeader;
     Call_spec_from_file_location "Thunder.bot.plugins.admin"
       "Thunder/bot/plugins/admin.py";
     Call_exec_module "Thunder.bot.plugins.admin";
     Call_spec_from_file_location "Thunder.bot.plugins.broken"
       "Thunder/bot/plugins/broken.py";
     LogError (InvalidPluginSpec "broken");
     Call_spec_from_file_location "Thunder.bot.plugins.stream"
       "Thunder/bot/plugins/stream.py";
     Call_exec_module "Thunder.bot.plugins.stream";
     LogError (FailedToImport "stream" (Error "ImportError"));
     Stdout (PluginTotals 3 1 2);
     Stdout (FailedPlugins ["broken"; "stream"])] ++
    CreateTask request_executor_task ::
    [CreateTask keepalive_task; CreateTask token_cleanup_task;
     Call_web_server; Call_runner_setup; Call_site_start;
     Stdout RunningOn; Stdout StartupTime; Call_idle;
     Cancel request_executor_task; Cancel keepalive_task;
     Cancel token_cleanup_task; Call_cleanup_clients;
     Call_rate_limiter_shutdown; Call_runner_cleanup] /\
  Forall (phase_le (CreateTask request_executor_task))
    [CreateTask keepalive_task; CreateTask token_cleanup_task;
     Call_web_server; Call_runner_setup; Call_site_start;
     Stdout RunningOn; Stdout StartupTime; Call_idle;
     Cancel request_executor_task; Cancel keepalive_task;
     Cancel token_cleanup_task; Call_cleanup_clients;
     Call_rate_limiter_shutdown; Call_runner_cleanup].
Proof.
  match goal with
  | |- _ = ?a ++ ?x :: ?b /\ _ =>
      assert (H : trace (snd (start_services three_plugins_world
                                (initial_state None))) = a ++ x :: b)
        by (vm_compute; reflexivity);
      split; [exact H
             | exact (run_in_phase_order three_plugins_world None a x b H)]
  end.
Defined.

Lemma teardown_no_site_start (w : world) :
  ~ In Call_site_start (Call_idle :: teardown_calls w).
Proof.
  unfold teardown_calls.
  destruct (cleanup_clients w); [destruct (rate_limiter_shutdown w)|];
    simpl; intuition discriminate.
Qed.

(** X6.  Whenever the site is started, the clients have been initialised and
    the three background tasks created before it. *)
Theorem listener_starts_after_tasks (w : world) (db : option notice)
    (a b : list event) :
  trace (snd (start_services w (initial_state db))) =
    a ++ Call_site_start :: b ->
  In Call_initialize_clients a /\ forall t, In (CreateTask t) a.
Proof.
  intros Hsplit.
  assert (Hin : In Call_site_start
                  (trace (snd (start_services w (initial_state db)))))
    by (rewrite Hsplit; apply in_elt).
  destruct (start_services_launch_shape w db)
    as [Hall | (A & pl & C & Htr & HA & Hpl & HC)].
  - exfalso. revert Hin. apply (not_in_of_forall early_step).
    + eapply Forall_impl; [|exact Hall]. apply startup_early.
    + intros [_ H]. exact (H eq_refl).
  - assert (HnA : ~ In Call_site_start A).
    { apply (not_in_of_forall early_step).
      - eapply Forall_impl; [|exact HA]. apply startup_early.
      - intros [_ H]. exact (H eq_refl). }
    assert (Hnpl : ~ In Call_site_start pl).
    { apply (not_in_of_forall early_step).
      - eapply Forall_impl; [|exact Hpl]. apply plugin_early.
      - intros [_ H]. exact (H eq_refl). }
    assert (HnC : ~ In Call_site_start C).
    { destruct HC as [-> | ->]; [simpl; tauto | apply teardown_no_site_start]. }
    destruct (initialize_clients w) as [u|r] eqn:Hinit;
      [destruct (first_escape w (glob w)) as [r0|] eqn:Hpass|].
    + exfalso. rewrite Htr in Hin. unfold launch_events in Hin.
      rewrite Hinit, Hpass, app_nil_r in Hin.
      apply in_app_or in Hin. destruct Hin as [Hin|Hin]; [contradiction|].
      apply in_app_or in Hin. destruct Hin as [Hin|Hin]; [|contradiction].
      simpl in Hin. destruct Hin as [Hin|Hin]; [discriminate | contradiction].
    + destruct (launch_events_split w pl u Hinit Hpass)
        as (rest & HL & _ & Hrest).
      rewrite Htr, HL in Hin.
      assert (Hr : In Call_site_start rest).
      { apply in_app_or in Hin. destruct Hin as [Hin|Hin]; [contradiction|].
        apply in_app_or in Hin. destruct Hin as [Hin|Hin]; [|contradiction].
        simpl in Hin. destruct Hin as [Hin|Hin]; [discriminate|].
        apply in_app_or in Hin. destruct Hin as [Hin|Hin]; [contradiction|].
        simpl in Hin.
        repeat match goal with
               | H : _ \/ _ |- _ => destruct H
               end; try discriminate; assumption. }
      destruct (Hrest Hr) as (tail & Htail & Hnt).
      assert (Heq : trace (snd (start_services w (initial_state db))) =
                    (A ++ Call_initialize_clients :: pl ++
                     map CreateTask supervised_tasks ++
                     [Call_web_server; Call_runner_setup]) ++
                    Call_site_start :: (tail ++ C)).
      { rewrite Htr, HL, Htail. simpl. rewrite <- !app_assoc. simpl.
        rewrite <- !app_assoc. reflexivity. }
      rewrite Hsplit in Heq.
      assert (Hp : ~ In Call_site_start
                       (A ++ Call_initialize_clients :: pl ++
                        map CreateTask supervised_tasks ++
                        [Call_web_server; Call_runner_setup])).
      { intros H. apply in_app_or in H. destruct H as [H|H]; [contradiction|].
        simpl in H. destruct H as [H|H]; [discriminate|].
        apply in_app_or in H. destruct H as [H|H]; [contradiction|].
        simpl in H.
        repeat match goal with
               | H : _ \/ _ |- _ => destruct H
               end; try discriminate; contradiction. }
      assert (Hq : ~ In Call_site_start (tail ++ C)).
      { intros H. apply in_app_or in H. tauto. }
      destruct (split_at_unique Call_site_start _ _ _ _ Hp Hq (eq_sym Heq))
        as [Ha _].
      subst a. split.
      * apply in_or_app. right. left. reflexivity.
      * intros t. apply in_or_app. right. right.
        apply in_or_app. right. destruct t; simpl; auto.
    + exfalso. rewrite Htr in Hin. unfold launch_events in Hin.
      rewrite Hinit in Hin.
      apply in_app_or in Hin. destruct Hin as [Hin|Hin]; [contradiction|].
      simpl in Hin. destruct Hin as [Hin|Hin]; [discriminate | contradiction].
Qed.

Lemma listener_starts_after_tasks_witness :
  trace (snd (start_services calm_world (initial_state None))) =
    [Stdout Banner; Stdout InitializingHeader; Call_start; Call_get_me;
     Stdout (BotInitialized "ThunderBot"); Call_set_commands;
     Call_get_restart_message; Call_initialize_clients;
     Stdout ImportingHeader; Stdout NoPluginsFound;
     CreateTask request_executor_task; CreateTask keepalive_task;
     CreateTask token_cleanup_task; Call_web_server; Call_runner_setup] ++
    Call_site_start ::
    [Stdout RunningOn; Stdout StartupTime; Call_idle;
     Cancel request_executor_task; Cancel keepalive_task;
     Cancel token_cleanup_task; Call_cleanup_clients;
     Call_rate_limiter_shutdown; Call_runner_cleanup] /\
  In (CreateTask token_cleanup_task)
    [Stdout Banner; Stdout InitializingHeader; Call_start; Call_get_me;
     Stdout (BotInitialized "ThunderBot"); Call_set_commands;
     Call_get_restart_message; Call_initialize_clients;
     Stdout ImportingHeader; Stdout NoPluginsFound;
     CreateTask request_executor_task; CreateTask keepalive_task;
     CreateTask token_cleanup_task; Call_web_server; Call_runner_setup].
Proof.
  assert (H : trace (snd (start_services calm_world (initial_state None))) =
              [Stdout Banner; Stdout InitializingHeader; Call_start; Call_get_me;
               Stdout (BotInitialized "ThunderBot"); Call_set_commands;
               Call_get_restart_message; Call_initialize_clients;
               Stdout ImportingHeader; Stdout NoPluginsFound;
               CreateTask request_executor_task; CreateTask keepalive_task;
               CreateTask token_cleanup_task; Call_web_server;
               Call_runner_setup] ++
              Call_site_start ::
              [Stdout RunningOn; Stdout StartupTime; Call_idle;
               Cancel request_executor_task; Cancel keepalive_task;
               Cancel token_cleanup_task; Call_cleanup_clients;
               Call_rate_limiter_shutdown; Call_runner_cleanup])
    by (vm_compute; reflexivity).
  split; [exact H|].
  exact (proj2 (listener_starts_after_tasks calm_world None _ _ H)
           token_cleanup_task).
Defined.

(** X13.  When the clients are initialised and a plugin raises past the
    handler of line 86 (it calls [sys.exit()], say), [start_services] raises
    that at once: no background task is created, the site is not started,
    the wait for termination is not entered and nothing is torn down. *)
Theorem plugin_escape_aborts_launch (w : world) (db : option notice)
    (st1 : state) (r : raised) :
  startup_sequencer w (headers_printed db) = (Return Ready, st1) ->
  initialize_clients w = Return tt ->
  first_escape w (glob w) = Some r ->
  exists st',
    start_services w (initial_state db) = (Raise r, st') /\
    (forall t, ~ In (CreateTask t) (trace st')) /\
    ~ In Call_site_start (trace st') /\
    filter is_teardown_call (trace st') = [] /\
    ~ In Call_idle (trace st').
Proof.
  intros Hseq Hinit Hesc.
  assert (Hout : launch_outcome w = Raise r)
    by (unfold launch_outcome; rewrite Hinit, Hesc; reflexivity).
  destruct (start_services_launch_raises w db st1 r Hseq Hout)
    as (st' & pl & Hrun & Htr & Hpl).
  exists st'. split; [exact Hrun|].
  assert (Hshape : trace st' = trace st1 ++ Call_initialize_clients :: pl).
  { rewrite Htr. unfold launch_events. rewrite Hinit, Hesc, app_nil_r.
    reflexivity. }
  assert (Hpre : forall P : event -> Prop,
            (forall e, startup_only e -> P e) ->
            (forall e, plugin_only e -> P e) ->
            P Call_initialize_clients ->
            Forall P (trace st')).
  { intros P Hs Hp Hc. rewrite Hshape. apply Forall_app. split.
    - eapply Forall_impl; [|exact (ready_trace w db st1 Hseq)]. exact Hs.
    - constructor; [exact Hc|]. eapply Forall_impl; [|exact Hpl]. exact Hp. }
  assert (Hearly : Forall early_step (trace st')).
  { apply Hpre; [apply startup_early | apply plugin_early|].
    split; [reflexivity | discriminate]. }
  assert (Hbefore : Forall before_shutdown (trace st')).
  { apply Hpre; [apply startup_before_shutdown | apply plugin_before_shutdown|].
    split; [reflexivity | discriminate]. }
  rewrite Forall_forall in Hearly. rewrite Forall_forall in Hbefore.
  split; [|split; [|split]].
  - intros t Hin. destruct (Hearly _ Hin) as [Hc _]. discriminate Hc.
  - intros Hin. destruct (Hearly _ Hin) as [_ Hne]. exact (Hne eq_refl).
  - apply filter_none. apply Forall_forall. intros e Hin.
    exact (proj1 (Hbefore e Hin)).
  - intros Hin. destruct (Hbefore _ Hin) as [_ Hne]. exact (Hne eq_refl).
Qed.

Lemma plugin_escape_aborts_launch_witness :
  startup_sequencer exiting_plugin_world (headers_printed None) =
    (Return Ready,
     snd (startup_sequencer exiting_plugin_world (headers_printed None))) /\
  initialize_clients exiting_plugin_world = Return tt /\
  first_escape exiting_plugin_world (glob exiting_plugin_world) =
    Some (Signal (SystemExit 3)) /\
  exists st',
    start_services exiting_plugin_world (initial_state None) =
      (Raise (Signal (SystemExit 3)), st') /\
    (forall t, ~ In (CreateTask t) (trace st')) /\
    ~ In Call_site_start (trace st') /\
    filter is_teardown_call (trace st') = [] /\
    ~ In Call_idle (trace st').
Proof.
  split; [reflexivity|]. split; [reflexivity|]. split; [reflexivity|].
  exact (plugin_escape_aborts_launch exiting_plugin_world None
           (snd (startup_sequencer exiting_plugin_world (headers_printed None)))
           (Signal (SystemExit 3)) eq_refl eq_refl eq_refl).
Defined.

(** ** What the plugin pass leaves behind *)

Lemma import_one_effect (w : world) (file_path : string) (t : tally)
    (st : state) :
  exists st' evs,
    import_one w file_path t st =
      (match escape_of w file_path with
       | Some r => Raise r
       | None => Return (tally_after w file_path t)
       end, st') /\
    trace st' = trace st ++ evs /\
    error_log evs = load_error w file_path /\
    sys_modules st' =
      sys_modules st ++
      (if has_loader w file_path then [import_path_of file_path] else []).
Proof.
  unfold import_one, load_error, has_loader, import_path_of, escape_of,
    uncaught, tally_after, fails_to_load,
    try_except, bind, call, logger_error, register_module, emit, ret,
    except_Exception.
  destruct (spec_from_file_location w _ file_path) as [[[[l|]]|]|[e| |sg]];
    simpl;
    try (destruct (exec_module w _) as [[]|[e| |sg]]; simpl);
    eexists; eexists; (split; [reflexivity|]); simpl;
    rewrite <- ?app_assoc; simpl; (split; [reflexivity|]); simpl;
    rewrite ?app_nil_r; auto.
Qed.

Lemma import_loop_effect (w : world) (files : list string) :
  forall (t : tally) (st : state),
  exists o st' evs,
    import_loop w files t st = (o, st') /\
    trace st' = trace st ++ evs /\
    error_log evs = flat_map (load_error w) (reached w files) /\
    sys_modules st' =
      sys_modules st ++
      map import_path_of (filter (has_loader w) (reached w files)).
Proof.
  induction files as [|f rest IH]; intros t st; simpl.
  - exists (Return t), st, []. rewrite !app_nil_r. repeat split; reflexivity.
  - destruct (import_one_effect w f t st)
      as (st1 & evs1 & Hrun & Htr & Hlog & Hmod).
    destruct (escape_of w f) as [r|].
    + exists (Raise r), st1, evs1. unfold bind. rewrite Hrun.
      rewrite Htr, Hmod, Hlog. simpl. rewrite app_nil_r.
      repeat split; try reflexivity.
      destruct (has_loader w f); reflexivity.
    + destruct (IH (tally_after w f t) st1)
        as (o & st2 & evs2 & Hrun2 & Htr2 & Hlog2 & Hmod2).
      exists o, st2, (evs1 ++ evs2).
      unfold bind. rewrite Hrun, Hrun2.
      rewrite Htr2, Htr, Hmod2, Hmod, error_log_app, Hlog, Hlog2, <- !app_assoc.
      repeat split; try reflexivity.
      simpl. destruct (has_loader w f); reflexivity.
Qed.

Lemma sys_modules_emitted (e : event) (st : state) :
  sys_modules (emitted e st) = sys_modules st.
Proof. reflexivity. Qed.

Lemma import_plugins_final (w : world) (st : state) :
  exists o st' evs,
    import_plugins w st = (o, st') /\
    trace st' = trace st ++ evs /\
    error_log evs = flat_map (load_error w) (reached w (glob w)) /\
    sys_modules st' =
      sys_modules st ++
      map import_path_of (filter (has_loader w) (reached w (glob w))).
Proof.
  unfold import_plugins, print. destruct (glob w) as [|f rest].
  - eexists; eexists; exists [Stdout ImportingHeader; Stdout NoPluginsFound].
    rewrite !bind_emit. unfold ret. split; [reflexivity|].
    rewrite !trace_emitted, !sys_modules_emitted, <- app_assoc, app_nil_r.
    repeat split; reflexivity.
  - destruct (import_loop_effect w (f :: rest) (mkTally 0 [])
                (emitted (Stdout ImportingHeader) st))
      as (o & st1 & evs1 & Hrun & Htr & Hlog & Hmod).
    rewrite trace_emitted in Htr. rewrite sys_modules_emitted in Hmod.
    rewrite bind_emit. unfold bind at 1. rewrite Hrun.
    destruct o as [t'|r].
    + rewrite bind_emit.
      destruct (failed_plugins t') as [|n ns].
      * eexists; eexists;
          exists (Stdout ImportingHeader :: evs1 ++
                  [Stdout (PluginTotals (List.length (f :: rest))
                             (success_count t') (List.length (@nil string)))]).
        split; [unfold bind, ret; reflexivity|].
        rewrite trace_emitted, sys_modules_emitted, Htr, Hmod, <- !app_assoc.
        split; [reflexivity|]. split; [|reflexivity].
        cbn [error_log]. rewrite error_log_app, Hlog. simpl.
        rewrite app_nil_r. reflexivity.
      * eexists; eexists;
          exists (Stdout ImportingHeader :: evs1 ++
                  [Stdout (PluginTotals (List.length (f :: rest))
                             (success_count t') (List.length (n :: ns)));
                   Stdout (FailedPlugins (n :: ns))]).
        rewrite bind_emit. unfold ret. split; [reflexivity|].
        rewrite !trace_emitted, !sys_modules_emitted, Htr, Hmod, <- !app_assoc.
        split; [reflexivity|]. split; [|reflexivity].
        cbn [error_log]. rewrite error_log_app, Hlog. simpl.
        rewrite app_nil_r. reflexivity.
    + exists (Raise r), st1, (Stdout ImportingHeader :: evs1).
      split; [reflexivity|].
      rewrite Htr, Hmod, <- app_assoc.
      split; [reflexivity|]. split; [|reflexivity].
      cbn [error_log]. exact Hlog.
Qed.

Lemma import_plugins_effect (w : world) (st : state) :
  exists evs,
    trace (snd (import_plugins w st)) = trace st ++ evs /\
    error_log evs = flat_map (load_error w) (reached w (glob w)) /\
    sys_modules (snd (import_plugins w st)) =
      sys_modules st ++
      map import_path_of (filter (has_loader w) (reached w (glob w))).
Proof.
  destruct (import_plugins_final w st)
    as (o & st' & evs & Hrun & Htr & Hlog & Hmod).
  exists evs. rewrite Hrun. auto.
Qed.

(** X7.  After the plugin pass [sys.modules] holds, in the order of the
    files, the import path of every file the loop reached that had a loader,
    whether the execution of its module returned or raised: a plugin that
    fails while it executes stays registered.  The loop reaches every file
    unless one raises past the handler of line 86. *)
Theorem failed_module_stays_registered (w : world) (st : state) :
  sys_modules (snd (import_plugins w st)) =
    sys_modules st ++
    map import_path_of (filter (has_loader w) (reached w (glob w))) /\
  (first_escape w (glob w) = None -> reached w (glob w) = glob w) /\
  (forall f r,
     In f (reached w (glob w)) ->
     has_loader w f = true ->
     exec_module w (import_path_of f) = Threw r ->
     In (import_path_of f) (sys_modules (snd (import_plugins w st))) /\
     fails_to_load w f = true).
Proof.
  destruct (import_plugins_effect w st) as (evs & _ & _ & Hmod).
  split; [exact Hmod|].
  split; [intros H; exact (proj1 (reached_all w (glob w) H))|].
  intros f r Hin Hl He. split.
  - rewrite Hmod. apply in_or_app. right. apply in_map.
    apply filter_In. auto.
  - unfold fails_to_load. unfold has_loader, import_path_of in *.
    destruct (spec_from_file_location w _ f) as [[[[l|]]|]|r0];
      try discriminate. rewrite He. reflexivity.
Qed.

Lemma failed_module_stays_registered_witness :
  first_escape three_plugins_world (glob three_plugins_world) = None /\
  reached three_plugins_world (glob three_plugins_world) =
    glob three_plugins_world /\
  In "Thunder/bot/plugins/stream.py"%string
     (reached three_plugins_world (glob three_plugins_world)) /\
  has_loader three_plugins_world "Thunder/bot/plugins/stream.py" = true /\
  exec_module three_plugins_world
    (import_path_of "Thunder/bot/plugins/stream.py") =
    Threw (Exc (Error "ImportError")) /\
  In (import_path_of "Thunder/bot/plugins/stream.py")
     (sys_modules (snd (import_plugins three_plugins_world
                          (initial_state None)))) /\
  fails_to_load three_plugins_world "Thunder/bot/plugins/stream.py" = true.
Proof.
  assert (Hin : In "Thunder/bot/plugins/stream.py"%string
                   (reached three_plugins_world (glob three_plugins_world)))
    by (vm_compute; auto).
  split; [reflexivity|].
  split; [exact (proj1 (proj2 (failed_module_stays_registered
                                 three_plugins_world (initial_state None)))
                       eq_refl)|].
  split; [exact Hin|]. split; [reflexivity|]. split; [reflexivity|].
  exact (proj2 (proj2 (failed_module_stays_registered three_plugins_world
                         (initial_state None)))
               "Thunder/bot/plugins/stream.py"%string
               (Exc (Error "ImportError"))
               Hin eq_refl eq_refl).
Defined.

(** X8.  The error log of the plugin pass: for each file the loop reaches,
    in turn, no line when it loads, the invalid-specification line when it
    has no specification or no loader, the import-failure line with the very
    exception that was raised when that is an instance of [Exception], and no
    line for what the handler of line 86 lets through.  The loop reaches
    every file unless one raises past that handler. *)
Theorem plugin_error_log (w : world) (st : state) :
  (exists evs,
     trace (snd (import_plugins w st)) = trace st ++ evs /\
     error_log evs = flat_map (load_error w) (reached w (glob w))) /\
  (first_escape w (glob w) = None -> reached w (glob w) = glob w).
Proof.
  destruct (import_plugins_effect w st) as (evs & Htr & Hlog & _).
  split; [exists evs; auto|].
  intros H. exact (proj1 (reached_all w (glob w) H)).
Qed.

Lemma plugin_error_log_witness :
  first_escape three_plugins_world (glob three_plugins_world) = None /\
  reached three_plugins_world (glob three_plugins_world) =
    ["Thunder/bot/plugins/admin.py"; "Thunder/bot/plugins/broken.py";
     "Thunder/bot/plugins/stream.py"].
Proof.
  split; [reflexivity|].
  exact (proj2 (plugin_error_log three_plugins_world (initial_state None))
               eq_refl).
Defined.

(** ** The rhythm of the cleanup loop *)

Lemma follows_sleep_iteration (cw : cleanup_world) (i : nat) (l : list event) :
  follows_sleep l -> follows_sleep (l ++ iteration_events cw i).
Proof.
  intros Hl a b Heq.
  apply app_eq_app in Heq. destruct Heq as (l0 & [[Ha Hb] | [Ha Hb]]).
  - destruct l0 as [|x l0]; simpl in Hb.
    + unfold iteration_events in Hb. discriminate Hb.
    + inversion Hb; subst x. apply (Hl a l0). exact Ha.
  - unfold iteration_events in Hb.
    destruct l0 as [|x l0]; simpl in Hb; [discriminate Hb|].
    inversion Hb as [[Hx Hrest]]. subst x.
    destruct (sleep_outcome cw i) as [[]|[e| |sg]].
    + destruct l0 as [|y l0]; simpl in Hrest.
      * exists l. exact Ha.
      * exfalso. inversion Hrest as [[Hy Htail]].
        destruct (cleanup_expired_tokens cw i) as [u|[e| |sg]];
          destruct l0 as [|z l0]; try discriminate Htail;
          simpl in Htail; inversion Htail as [[Hz Ht]];
          destruct l0; discriminate Ht.
    + exfalso. destruct l0 as [|y l0]; [discriminate Hrest|].
      inversion Hrest as [[Hy Ht]]. destruct l0; discriminate Ht.
    + destruct l0; discriminate Hrest.
    + destruct l0; discriminate Hrest.
Qed.

Lemma follows_sleep_loop (cw : cleanup_world) (n : nat) :
  forall i st,
  follows_sleep (trace st) ->
  follows_sleep (trace (snd (schedule_token_cleanup n cw i st))).
Proof.
  induction n as [|n IH]; intros i st Hst; [exact Hst|].
  destruct (cleanup_iteration_run cw i st) as (st1 & Hrun & Htr).
  cbn [schedule_token_cleanup]. unfold bind at 1. rewrite Hrun.
  assert (H1 : follows_sleep (trace st1))
    by (rewrite Htr; apply follows_sleep_iteration; exact Hst).
  destruct (iteration_outcome cw i) as [[|]|r];
    [apply IH; exact H1 | exact H1 | exact H1].
Qed.

(** X9.  In the cleanup loop every call of [cleanup_expired_tokens()] comes
    right after a sleep of the whole three hours: the tokens are not cleaned
    when the task starts, and a cleanup that raised is not tried again before
    the next interval has passed. *)
Theorem cleanup_follows_full_sleep (cw : cleanup_world) (n : nat) :
  follows_sleep
    (trace (snd (schedule_token_cleanup n cw 0 (initial_state None)))).
Proof.
  apply follows_sleep_loop. intros a b H. destruct a; discriminate H.
Qed.

Lemma cleanup_follows_full_sleep_witness :
  trace (snd (schedule_token_cleanup 2 three_faults_then_cancel 0
                (initial_state None))) =
    [Sleep cleanup_interval; Call_cleanup_expired_tokens;
     LogError (TokenCleanupError (Error "database unreachable"));
     Sleep cleanup_interval] ++
    Call_cleanup_expired_tokens ::
    [LogError (TokenCleanupError (Error "database unreachable"))] /\
  exists a',
    [Sleep cleanup_interval; Call_cleanup_expired_tokens;
     LogError (TokenCleanupError (Error "database unreachable"));
     Sleep cleanup_interval] = a' ++ [Sleep cleanup_interval].
Proof.
  assert (H : trace (snd (schedule_token_cleanup 2 three_faults_then_cancel 0
                            (initial_state None))) =
              [Sleep cleanup_interval; Call_cleanup_expired_tokens;
               LogError (TokenCleanupError (Error "database unreachable"));
               Sleep cleanup_interval] ++
              Call_cleanup_expired_tokens ::
              [LogError (TokenCleanupError (Error "database unreachable"))])
    by (vm_compute; reflexivity).
  split; [exact H|].
  exact (cleanup_follows_full_sleep three_faults_then_cancel 2 _ _ H).
Defined.

(** ** Failures in the restart-notice step *)

Lemma resolve_read_fails (w : world) (st : state) (r : raised) :
  db_get_fault w = Some r ->
  resolve_restart_notice w st =
    (Raise r, advanced [Call_get_restart_message] (stored_notice st) 0 st).
Proof.
  intros Hget. unfold resolve_restart_notice. unfold_steps. simpl.
  rewrite Hget. reflexivity.
Qed.

Lemma sequencer_failed (w : world) (st st' : state) (e : exception) :
  startup_steps w st = (Raise (Exc e), st') ->
  startup_sequencer w st =
    (Return (Failed e),
     advanced [LogError (BotInitFailed e)] (stored_notice st') 0 st').
Proof. intros H. rewrite startup_sequencer_run, H. reflexivity. Qed.

(** X10.  The restart-notice step can abort the start-up.  With the
    connection made, the identity fetched and the commands registered: when
    reading the notice raises an instance of [Exception], whichever, or when
    the edit, or the delete after a successful edit, raises one that is
    neither [FloodWait] nor [MessageNotModified], the sequencer ends in
    [Failed] with that exception and [start_services] returns without
    serving; a notice that was stored is still stored.  A [FloodWait] or a
    [MessageNotModified] raised by the delete is handled like one raised by
    the edit, the delete being inside the same [try] (lines 123-133): the
    sequencer is [Ready], after a sleep on [FloodWait], and the notice is
    still stored at the end of the run. *)
Theorem notice_failure_aborts_startup (w : world) (db : option notice)
    (info : bot_info) (st1 st2 : state) :
  connect w (headers_printed db) = (Return tt, st1) ->
  fetch_identity w st1 = (Return info, st2) ->
  set_commands w = Return tt ->
  (forall e,
   db_get_fault w = Some (Exc e) ->
   exists st',
     startup_sequencer w (headers_printed db) = (Return (Failed e), st') /\
     start_services w (initial_state db) = (Return tt, st') /\
     stored_notice st' = db) /\
  (forall n msg,
   db = Some n ->
   db_get_fault w = None ->
   StreamBot_edit_message_text w 0 = Raise (Exc (Error msg)) ->
   exists st',
     startup_sequencer w (headers_printed db) =
       (Return (Failed (Error msg)), st') /\
     start_services w (initial_state db) = (Return tt, st') /\
     stored_notice st' = Some n) /\
  (forall n msg,
   db = Some n ->
   db_get_fault w = None ->
   StreamBot_edit_message_text w 0 = Return tt ->
   db_delete_fault w = Some (Exc (Error msg)) ->
   exists st',
     startup_sequencer w (headers_printed db) =
       (Return (Failed (Error msg)), st') /\
     start_services w (initial_state db) = (Return tt, st') /\
     stored_notice st' = Some n) /\
  (forall n e,
   db = Some n ->
   db_get_fault w = None ->
   StreamBot_edit_message_text w 0 = Return tt ->
   db_delete_fault w = Some (Exc e) ->
   (forall msg, e <> Error msg) ->
   startup_sequencer w (headers_printed db) =
     (Return Ready,
      advanced (Call_get_restart_message ::
                Call_edit_message_text (chat_id n) (message_id n) ::
                Call_delete_restart_message (message_id n) ::
                match e with FloodWait v => [Sleep v] | _ => [] end)
               (Some n) 1 (identified info st2)) /\
   stored_notice (snd (start_services w (initial_state db))) = Some n).
Proof.
  intros H1 H2 H3.
  destruct (identified_frame w db info st1 st2 H1 H2) as (Hdb & Hed).
  pose proof (startup_steps_reach_notice w _ st1 st2 info H1 H2 H3) as Hsteps.
  split; [|split; [|split]].
  - intros e Hget.
    assert (Hseq := sequencer_failed w (headers_printed db) _ e
                      (eq_trans Hsteps (resolve_read_fails w _ _ Hget))).
    eexists. split; [exact Hseq|].
    split; [exact (start_services_failed w db _ _ Hseq) | exact Hdb].
  - intros n msg Hn Hget Hedit. rewrite Hn in *.
    assert (Hedit' : StreamBot_edit_message_text w (edits (identified info st2))
                     = Raise (Exc (Error msg))) by (rewrite Hed; exact Hedit).
    assert (Hseq := sequencer_failed w (headers_printed (Some n)) _ (Error msg)
                      (eq_trans Hsteps
                         (resolve_edit_raises w _ n _ Hget Hdb Hedit'))).
    eexists. split; [exact Hseq|].
    split; [exact (start_services_failed w _ _ _ Hseq) | reflexivity].
  - intros n msg Hn Hget Hedit Hdel. rewrite Hn in *.
    assert (Hedit' : StreamBot_edit_message_text w (edits (identified info st2))
                     = Return tt) by (rewrite Hed; exact Hedit).
    pose proof (resolve_edit_returns w _ n Hget Hdb Hedit') as Hres.
    rewrite Hdel in Hres.
    assert (Hseq := sequencer_failed w (headers_printed (Some n)) _ (Error msg)
                      (eq_trans Hsteps Hres)).
    eexists. split; [exact Hseq|].
    split; [exact (start_services_failed w _ _ _ Hseq) | reflexivity].
  - intros n e Hn Hget Hedit Hdel Hne. rewrite Hn in *.
    assert (Hedit' : StreamBot_edit_message_text w (edits (identified info st2))
                     = Return tt) by (rewrite Hed; exact Hedit).
    pose proof (resolve_edit_returns w _ n Hget Hdb Hedit') as Hres.
    rewrite Hdel in Hres.
    assert (Hseq : startup_sequencer w (headers_printed (Some n)) =
              (Return Ready,
               advanced (Call_get_restart_message ::
                         Call_edit_message_text (chat_id n) (message_id n) ::
                         Call_delete_restart_message (message_id n) ::
                         match e with FloodWait v => [Sleep v] | _ => [] end)
                        (Some n) 1 (identified info st2))).
    { apply sequencer_ready. rewrite Hsteps, Hres.
      destruct e as [v| |msg]; [reflexivity | reflexivity |].
      exfalso. exact (Hne msg eq_refl). }
    split; [exact Hseq|].
    rewrite (start_services_ready w _ _ Hseq), serve_keeps_notice.
    reflexivity.
Qed.

Lemma notice_failure_aborts_startup_witness :
  (exists st',
     startup_sequencer notice_read_fails_world
                       (headers_printed (Some sample_notice)) =
       (Return (Failed (Error "database unreachable")), st') /\
     start_services notice_read_fails_world
                    (initial_state (Some sample_notice)) = (Return tt, st') /\
     stored_notice st' = Some sample_notice) /\
  (exists st',
     startup_sequencer edit_rejected_world
                       (headers_printed (Some sample_notice)) =
       (Return (Failed (Error "message not found")), st') /\
     start_services edit_rejected_world
                    (initial_state (Some sample_notice)) = (Return tt, st') /\
     stored_notice st' = Some sample_notice) /\
  (exists st',
     startup_sequencer notice_delete_fails_world
                       (headers_printed (Some sample_notice)) =
       (Return (Failed (Error "database unreachable")), st') /\
     start_services notice_delete_fails_world
                    (initial_state (Some sample_notice)) = (Return tt, st') /\
     stored_notice st' = Some sample_notice) /\
  (fst (startup_sequencer notice_delete_flood_world
                          (headers_printed (Some sample_notice))) =
     Return Ready /\
   stored_notice (snd (start_services notice_delete_flood_world
                         (initial_state (Some sample_notice)))) =
     Some sample_notice).
Proof.
  split; [|split; [|split]].
  - exact (proj1 (notice_failure_aborts_startup notice_read_fails_world
                    (Some sample_notice) (mkBotInfo "ThunderBot")
                    (connected notice_read_fails_world (Some sample_notice))
                    (fetched notice_read_fails_world (Some sample_notice))
                    eq_refl eq_refl eq_refl)
                 (Error "database unreachable") eq_refl).
  - exact (proj1 (proj2 (notice_failure_aborts_startup edit_rejected_world
                    (Some sample_notice) (mkBotInfo "ThunderBot")
                    (connected edit_rejected_world (Some sample_notice))
                    (fetched edit_rejected_world (Some sample_notice))
                    eq_refl eq_refl eq_refl))
                 sample_notice "message not found"%string
                 eq_refl eq_refl eq_refl).
  - exact (proj1 (proj2 (proj2 (notice_failure_aborts_startup
                    notice_delete_fails_world
                    (Some sample_notice) (mkBotInfo "ThunderBot")
                    (connected notice_delete_fails_world (Some sample_notice))
                    (fetched notice_delete_fails_world (Some sample_notice))
                    eq_refl eq_refl eq_refl)))
                 sample_notice "database unreachable"%string
                 eq_refl eq_refl eq_refl eq_refl).
  - destruct (proj2 (proj2 (proj2 (notice_failure_aborts_startup
                    notice_delete_flood_world
                    (Some sample_notice) (mkBotInfo "ThunderBot")
                    (connected notice_delete_flood_world (Some sample_notice))
                    (fetched notice_delete_flood_world (Some sample_notice))
                    eq_refl eq_refl eq_refl)))
                 sample_notice (FloodWait 4)
                 eq_refl eq_refl eq_refl eq_refl
                 ltac:(intros msg; discriminate)) as [Hseq Hend].
    split; [rewrite Hseq; reflexivity | exact Hend].
Defined.

(** ** The cached identity *)

Section KeepsUsername.

Lemma keeps_ret {A} (a : A) : keeps username (ret a).
Proof. intro st. reflexivity. Qed.

Lemma keeps_emit (e : event) : keeps username (emit e).
Proof. intro st. reflexivity. Qed.

Lemma keeps_bind {A B} (m : M A) (k : A -> M B) :
  keeps username m -> (forall a, keeps username (k a)) ->
  keeps username (bind m k).
Proof.
  intros Hm Hk st. unfold bind. specialize (Hm st).
  destruct (m st) as [[a|r] st1]; simpl in *.
  - rewrite (Hk a st1). exact Hm.
  - exact Hm.
Qed.

Lemma keeps_try_except {A} (m : M A) (h : handler A) :
  keeps username m -> handler_keeps username h ->
  keeps username (try_except m h).
Proof.
  intros Hm Hh st. unfold try_except. specialize (Hm st).
  destruct (m st) as [[a|r] st1]; simpl in *; [exact Hm|].
  destruct (h r) as [k|] eqn:Hr; simpl; [|exact Hm].
  rewrite (Hh r k Hr st1). exact Hm.
Qed.

Lemma keeps_try_finally {A} (m : M A) (fin : M unit) :
  keeps username m -> keeps username fin ->
  keeps username (try_finally m fin).
Proof.
  intros Hm Hf st. unfold try_finally. specialize (Hm st).
  destruct (m st) as [o st1]; simpl in *. specialize (Hf st1).
  destruct (fin st1) as [[u|r] st2]; simpl in *; congruence.
Qed.

Lemma keeps_await {A} (e : event) (o : outcome A) :
  keeps username (await e o).
Proof. intro st. reflexivity. Qed.

Lemma keeps_call {A} (e : event) (o : sync_outcome A) :
  keeps username (call e o).
Proof. intro st. unfold call, bind, emit. destruct o; reflexivity. Qed.

Lemma keeps_register_module (p : string) :
  keeps username (register_module p).
Proof. intro st. reflexivity. Qed.

Lemma keeps_StreamBot_start (w : world) : keeps username (StreamBot_start_ w).
Proof. intro st. reflexivity. Qed.

Lemma keeps_StreamBot_get_me (w : world) :
  keeps username (StreamBot_get_me_ w).
Proof. intro st. reflexivity. Qed.

Lemma keeps_StreamBot_edit_message_text (w : world) (c m : nat) :
  keeps username (StreamBot_edit_message_text_ w c m).
Proof. intro st. reflexivity. Qed.

Lemma keeps_db_get_restart_message (w : world) :
  keeps username (db_get_restart_message w).
Proof.
  intro st. unfold db_get_restart_message, bind, emit.
  destruct (db_get_fault w); reflexivity.
Qed.

Lemma keeps_db_delete_restart_message (w : world) (m : nat) :
  keeps username (db_delete_restart_message w m).
Proof.
  intro st. unfold db_delete_restart_message, bind, emit.
  destruct (db_delete_fault w); reflexivity.
Qed.

Lemma handler_keeps_FloodWait {A} (k : nat -> M A) :
  (forall v, keeps username (k v)) ->
  handler_keeps username (except_FloodWait k).
Proof.
  intros Hk r k' Hr. destruct r as [[v| |msg]| |sg]; inversion Hr; subst; apply Hk.
Qed.

Lemma handler_keeps_MessageNotModified {A} (k : M A) :
  keeps username k -> handler_keeps username (except_MessageNotModified k).
Proof.
  intros Hk r k' Hr. destruct r as [[v| |msg]| |sg]; inversion Hr; subst; apply Hk.
Qed.

Lemma handler_keeps_Exception {A} (k : exception -> M A) :
  (forall e, keeps username (k e)) ->
  handler_keeps username (except_Exception k).
Proof.
  intros Hk r k' Hr. destruct r as [e| |sg]; inversion Hr; subst; apply Hk.
Qed.

Lemma handler_keeps_orelse {A} (h1 h2 : handler A) :
  handler_keeps username h1 -> handler_keeps username h2 ->
  handler_keeps username (orelse h1 h2).
Proof.
  intros H1 H2 r k Hr. unfold orelse in Hr.
  destruct (h1 r) as [k1|] eqn:E1.
  - inversion Hr; subst. exact (H1 r k E1).
  - exact (H2 r k Hr).
Qed.

End KeepsUsername.

Ltac keeps_step :=
  first
    [ assumption
    | match goal with H : _ |- keeps _ _ => simple apply H end
    | simple apply keeps_ret | simple apply keeps_register_module
    | simple apply keeps_StreamBot_start | simple apply keeps_StreamBot_get_me
    | simple apply keeps_StreamBot_edit_message_text
    | simple apply keeps_db_get_restart_message
    | simple apply keeps_db_delete_restart_message
    | simple apply keeps_emit | simple apply keeps_await
    | simple apply keeps_call
    | simple apply keeps_bind | simple apply keeps_try_except
    | simple apply keeps_try_finally
    | simple apply handler_keeps_orelse
    | simple apply handler_keeps_FloodWait
    | simple apply handler_keeps_MessageNotModified
    | simple apply handler_keeps_Exception
    | match goal with |- forall _, _ => intro end
    | match goal with
      | |- keeps _ (match ?x with _ => _ end) => destruct x
      end ].

Lemma keeps_connect (w : world) : keeps username (connect w).
Proof. unfold connect, asyncio_sleep. repeat keeps_step. Qed.

Lemma keeps_fetch_identity (w : world) : keeps username (fetch_identity w).
Proof. unfold fetch_identity, asyncio_sleep. repeat keeps_step. Qed.

Lemma keeps_resolve_restart_notice (w : world) :
  keeps username (resolve_restart_notice w).
Proof. unfold resolve_restart_notice, asyncio_sleep. repeat keeps_step. Qed.

Lemma keeps_import_loop (w : world) (files : list string) :
  forall t, keeps username (import_loop w files t).
Proof.
  induction files as [|f rest IH]; intro t; simpl.
  - apply keeps_ret.
  - apply keeps_bind; [|intro; apply IH].
    unfold import_one, logger_error. repeat keeps_step.
Qed.

Lemma keeps_serve (w : world) : keeps username (serve w).
Proof.
  pose proof (keeps_import_loop w) as Hloop.
  unfold serve, launch, run_until_terminated, teardown, supervised_tasks,
    import_plugins, print.
  simpl. destruct (glob w); repeat keeps_step.
Qed.

Lemma keeps_after_identity (w : world) (name : string) :
  keeps username
    (print (BotInitialized name) ;;
     await Call_set_commands (set_commands w) ;;
     resolve_restart_notice w).
Proof.
  pose proof (keeps_resolve_restart_notice w).
  unfold print. repeat keeps_step.
Qed.

(** What [start_services] leaves in [StreamBot.username] is what the
    sequenced steps left there. *)
Lemma username_after_run (w : world) (db : option notice) :
  username (snd (start_services w (initial_state db))) =
    username (snd (startup_steps w (headers_printed db))).
Proof.
  rewrite start_services_run, print_headers_initial. cbn [snd].
  rewrite startup_sequencer_run.
  destruct (startup_steps w (headers_printed db)) as [[u|[e| |sg]] st1]; cbn [snd].
  - apply keeps_serve.
  - reflexivity.
  - reflexivity.
  - reflexivity.
Qed.

Lemma username_after_fetch (w : world) (db : option notice)
    (info : bot_info) (st1 st2 : state) :
  connect w (headers_printed db) = (Return tt, st1) ->
  fetch_identity w st1 = (Return info, st2) ->
  username (snd (startup_steps w (headers_printed db))) =
    Some (bot_username info).
Proof.
  intros H1 H2. unfold startup_steps.
  unfold bind at 1. rewrite H1. unfold bind at 1. rewrite H2.
  unfold bind at 1. unfold set_username at 1.
  rewrite keeps_after_identity. reflexivity.
Qed.

(** X11.  The cached identity.  Once [StreamBot.get_me()] has returned,
    [StreamBot.username] holds the fetched username until the end of the run,
    whatever happens afterwards; and the sequencer is never [Ready] without
    it, so the serving part always starts with the username cached.  When
    the connection or the identity fetch raises, it is left unset. *)
Theorem identity_is_cached (w : world) (db : option notice) :
  (forall info st1 st2,
   connect w (headers_printed db) = (Return tt, st1) ->
   fetch_identity w st1 = (Return info, st2) ->
   username (snd (start_services w (initial_state db))) =
     Some (bot_username info)) /\
  (forall st',
   startup_sequencer w (headers_printed db) = (Return Ready, st') ->
   exists name,
     username st' = Some name /\
     username (snd (start_services w (initial_state db))) = Some name) /\
  (forall r,
   fst (connect w (headers_printed db)) = Raise r ->
   username (snd (start_services w (initial_state db))) = None) /\
  (forall st1 r,
   connect w (headers_printed db) = (Return tt, st1) ->
   fst (fetch_identity w st1) = Raise r ->
   username (snd (start_services w (initial_state db))) = None).
Proof.
  split; [|split; [|split]].
  - intros info st1 st2 H1 H2.
    rewrite username_after_run. exact (username_after_fetch w db info st1 st2 H1 H2).
  - intros st' Hseq. rewrite username_after_run.
    rewrite startup_sequencer_run in Hseq.
    destruct (connect w (headers_printed db)) as [[[]|r] st1] eqn:H1.
    + destruct (fetch_identity w st1) as [[info|r] st2] eqn:H2.
      * exists (bot_username info).
        pose proof (username_after_fetch w db info st1 st2 H1 H2) as Hu.
        split; [|exact Hu].
        destruct (startup_steps w (headers_printed db)) as [[u|[e| |sg]] s];
          inversion Hseq; subst. exact Hu.
      * exfalso. unfold startup_steps in Hseq. unfold bind at 1 in Hseq.
        rewrite H1 in Hseq. unfold bind at 1 in Hseq. rewrite H2 in Hseq.
        destruct r as [e| |sg]; discriminate Hseq.
    + exfalso. unfold startup_steps in Hseq. unfold bind at 1 in Hseq.
      rewrite H1 in Hseq. destruct r as [e| |sg]; discriminate Hseq.
  - intros r H1. rewrite username_after_run.
    unfold startup_steps. unfold bind at 1.
    pose proof (keeps_connect w (headers_printed db)) as Hk.
    destruct (connect w (headers_printed db)) as [[u|r'] st1];
      simpl in H1; [discriminate H1|]. exact Hk.
  - intros st1 r H1 H2. rewrite username_after_run.
    unfold startup_steps. unfold bind at 1. rewrite H1. unfold bind at 1.
    pose proof (keeps_connect w (headers_printed db)) as Hk1.
    rewrite H1 in Hk1. cbn [snd] in Hk1.
    pose proof (keeps_fetch_identity w st1) as Hk2.
    destruct (fetch_identity w st1) as [[info|r'] st2];
      simpl in H2; [discriminate H2|].
    cbn [snd] in *. rewrite Hk2. exact Hk1.
Qed.

Lemma identity_is_cached_witness :
  username (snd (start_services release_fails_world (initial_state None))) =
    Some "ThunderBot"%string /\
  (exists name,
     username (snd (startup_sequencer calm_world (headers_printed None))) =
       Some name /\
     username (snd (start_services calm_world (initial_state None))) =
       Some name) /\
  username (snd (start_services connect_flood_world (initial_state None))) =
    None /\
  username (snd (start_services fetch_flood_world (initial_state None))) =
    None.
Proof.
  split; [|split; [|split]].
  - exact (proj1 (identity_is_cached release_fails_world None)
                 (mkBotInfo "ThunderBot")
                 (connected release_fails_world None)
                 (fetched release_fails_world None) eq_refl eq_refl).
  - exact (proj1 (proj2 (identity_is_cached calm_world None))
                 (snd (startup_sequencer calm_world (headers_printed None)))
                 eq_refl).
  - exact (proj1 (proj2 (proj2 (identity_is_cached connect_flood_world None)))
                 (Exc (FloodWait 5)) eq_refl).
  - exact (proj2 (proj2 (proj2 (identity_is_cached fetch_flood_world None)))
                 (connected fetch_flood_world None) (Exc (FloodWait 7))
                 eq_refl eq_refl).
Defined.

(** ** The name of a plugin *)

Lemma split_slash_nonempty (s : string) : split_slash s <> [].
Proof.
  destruct s as [|c s]; simpl; [discriminate|].
  destruct (Ascii.eqb c slash); [discriminate|].
  destruct (split_slash s); discriminate.
Qed.

Lemma split_slash_app (a b : string) :
  split_slash (a ++ String slash b)%string = split_slash a ++ split_slash b.
Proof.
  induction a as [|c a IH]; simpl.
  - reflexivity.
  - destruct (Ascii.eqb c slash).
    + rewrite IH. reflexivity.
    + rewrite IH. pose proof (split_slash_nonempty a) as Hne.
      destruct (split_slash a) as [|p ps]; [contradiction|]. reflexivity.
Qed.

Lemma split_slash_plain (b : string) :
  contains slash b = false -> split_slash b = [b].
Proof.
  induction b as [|c b IH]; simpl; [reflexivity|].
  intros H. apply orb_false_iff in H. destruct H as [Hc Hb].
  rewrite Hc, (IH Hb). reflexivity.
Qed.

Lemma path_name_of_file (dir name : string) :
  contains slash name = false ->
  name <> ""%string -> name <> "."%string ->
  path_name (dir ++ String slash name)%string = name.
Proof.
  intros Hs He Hd. unfold path_name.
  rewrite split_slash_app, (split_slash_plain name Hs), filter_app.
  simpl.
  apply String.eqb_neq in He. apply String.eqb_neq in Hd.
  rewrite He, Hd. simpl. apply last_last.
Qed.

Lemma rfind_dot_app (s t : string) (i : nat) :
  rfind_dot t = Some i ->
  rfind_dot (s ++ t)%string = Some (String.length s + i).
Proof.
  intros Ht. induction s as [|c s IH]; simpl; [exact Ht|].
  rewrite IH. reflexivity.
Qed.

Lemma length_append (s t : string) :
  String.length (s ++ t)%string = String.length s + String.length t.
Proof. induction s as [|c s IH]; simpl; [reflexivity|]. rewrite IH. reflexivity. Qed.

Lemma substring_prefix (s t : string) :
  substring 0 (String.length s) (s ++ t)%string = s.
Proof.
  induction s as [|c s IH]; simpl.
  - destruct t; reflexivity.
  - rewrite IH. reflexivity.
Qed.

Lemma contains_app (c : ascii) (s t : string) :
  contains c (s ++ t)%string = contains c s || contains c t.
Proof.
  induction s as [|c' s IH]; simpl; [reflexivity|].
  rewrite IH, orb_assoc. reflexivity.
Qed.

(** X12.  The name of a plugin.  For a file [dir/base.py], with [base] not
    empty and free of slashes, the plugin name is [base], the file name
    without its last suffix, and the module is imported as
    [Thunder.bot.plugins.base]; so two such files with different names never
    share an import path. *)
Theorem plugin_name_of_file (dir base : string) :
  base <> ""%string ->
  contains slash base = false ->
  path_stem (dir ++ String slash (base ++ ".py"))%string = base /\
  import_path_of (dir ++ String slash (base ++ ".py"))%string =
    ("Thunder.bot.plugins." ++ base)%string.
Proof.
  intros Hne Hs.
  assert (Hstem : path_stem (dir ++ String slash (base ++ ".py"))%string = base).
  { unfold path_stem.
    rewrite path_name_of_file.
    - rewrite (rfind_dot_app base ".py" 0 eq_refl), Nat.add_0_r.
      rewrite length_append.
      assert (Hlen : 0 < String.length base)
        by (destruct base; [contradiction | simpl; lia]).
      replace ((0 <? String.length base) &&
               (String.length base <?
                String.length base + String.length ".py" - 1))%nat
        with true.
      + apply substring_prefix.
      + symmetry. apply andb_true_iff. split; apply Nat.ltb_lt; simpl; lia.
    - rewrite contains_app, Hs. reflexivity.
    - destruct base; discriminate.
    - destruct base as [|c [|c' b]]; simpl; discriminate. }
  split; [exact Hstem|]. unfold import_path_of. rewrite Hstem. reflexivity.
Qed.

Lemma plugin_name_of_file_witness :
  "admin"%string <> ""%string /\
  contains slash "admin" = false /\
  path_stem "Thunder/bot/plugins/admin.py" = "admin"%string /\
  import_path_of "Thunder/bot/plugins/admin.py" =
    "Thunder.bot.plugins.admin"%string.
Proof.
  split; [discriminate|]. split; [reflexivity|].
  exact (plugin_name_of_file "Thunder/bot/plugins" "admin"
           ltac:(discriminate) eq_refl).
Defined.
